(** * heycochrane: the acquisition script and the date backfill script

    A shallow embedding of [scripts/update_cochrane.py] and
    [scripts/add_dates.py].

    Python [str] values are [string]s; a character is a code point below
    256, on which [\d] is exactly [0-9] and [str.isspace] is the set
    written out in [is_space].  Python integers are [Z].  Decoded JSON and
    YAML values are the inductive [value]; a [dict] with string keys is an
    association list in insertion order.  Everything outside the two
    scripts (HTTP, the feed parser, the language model, the JSON and YAML
    libraries, the HTML parser) is a field of the record [Env]. *)

From Stdlib Require Import ZArith Lia List Ascii String Permutation.
From Stdlib Require Import DecimalString SpecFloat.
From stdpp Require Import base option list gmap strings.

Local Open Scope string_scope.
Set Warnings "-register-all".

(** ** Strings *)

Module Str.

Definition NL : string := String "010"%char "".
Definition DQ : string := String "034"%char "".

Definition code (c : ascii) : N := N_of_ascii c.

(** [\d] on code points below 256. *)
Definition is_digit (c : ascii) : bool :=
  ((48 <=? code c) && (code c <=? 57))%N.

(** [str.isspace] (and [\s]) on code points below 256. *)
Definition is_space (c : ascii) : bool :=
  (((9 <=? code c) && (code c <=? 13)) || ((28 <=? code c) && (code c <=? 32))
   || (code c =? 133) || (code c =? 160))%N.

(** [str.lower] on code points below 256. *)
Definition lower_char (c : ascii) : ascii :=
  if (((65 <=? code c) && (code c <=? 90))
      || ((192 <=? code c) && (code c <=? 222) && negb (code c =? 215)))%N
  then ascii_of_N (code c + 32) else c.

(** [str.upper] on ASCII letters; it is only applied to text matched by
    [CD\d+] under [re.IGNORECASE]. *)
Definition upper_char (c : ascii) : ascii :=
  if ((97 <=? code c) && (code c <=? 122))%N
  then ascii_of_N (code c - 32) else c.

Fixpoint smap (f : ascii → ascii) (s : string) : string :=
  match s with
  | "" => ""
  | String c r => String (f c) (smap f r)
  end.

Definition lower : string → string := smap lower_char.
Definition upper : string → string := smap upper_char.

Definition truthy (s : string) : bool :=
  match s with "" => false | _ => true end.

(** [s.startswith(p)] *)
Fixpoint startswith (p s : string) : bool :=
  match p, s with
  | "", _ => true
  | String a p', String b s' => if Ascii.eqb a b then startswith p' s' else false
  | String _ _, "" => false
  end.

Fixpoint drop (n : nat) (s : string) : string :=
  match n, s with
  | S k, String _ r => drop k r
  | _, _ => s
  end.

Fixpoint take (n : nat) (s : string) : string :=
  match n, s with
  | S k, String c r => String c (take k r)
  | _, _ => ""
  end.

(** [p in s] *)
Fixpoint contains (p s : string) : bool :=
  startswith p s ||
  match s with
  | "" => false
  | String _ r => contains p r
  end.

(** The longest prefix of characters satisfying [f]: a greedy [[...]*]. *)
Fixpoint span (f : ascii → bool) (s : string) : string :=
  match s with
  | String c r => if f c then String c (span f r) else ""
  | "" => ""
  end.

(** [s.lstrip()], [s.rstrip()], [s.strip()] *)
Fixpoint lstrip (s : string) : string :=
  match s with
  | String c r => if is_space c then lstrip r else s
  | "" => ""
  end.

Fixpoint rstrip (s : string) : string :=
  match s with
  | String c r =>
      match rstrip r with
      | "" => if is_space c then "" else String c ""
      | t => String c t
      end
  | "" => ""
  end.

Definition strip (s : string) : string := rstrip (lstrip s).

(** [sep.join(l)] *)
Fixpoint join (sep : string) (l : list string) : string :=
  match l with
  | [] => ""
  | [x] => x
  | x :: r => x +:+ sep +:+ join sep r
  end.

(** [s.replace(old, new)] for a non-empty [old]: occurrences are replaced
    left to right, without overlap.  [skip] counts the characters of an
    occurrence that are still to be passed over. *)
Fixpoint replace_from (skip : nat) (old new s : string) : string :=
  match s with
  | "" => ""
  | String c r =>
      match skip with
      | S k => replace_from k old new r
      | O =>
          if startswith old s
          then new +:+ replace_from (String.length old - 1) old new r
          else String c (replace_from 0 old new r)
      end
  end.

Definition replace (old new s : string) : string := replace_from 0 old new s.

(** [str(z)] for a Python [int]. *)
Definition of_Z (z : Z) : string := NilZero.string_of_int (Z.to_int z).

(** [f"{z:02d}"] for a Python [int]: sign-aware zero padding to width 2. *)
Definition pad2 (z : Z) : string :=
  let s := of_Z z in
  if (String.length s <? 2)%nat then "0" +:+ s else s.

End Str.

(** ** The regular expressions of the two scripts

    Each pattern is written out as the function that decides whether it
    matches at the start of a string and returns the matched text (or the
    captured group).  All of them are deterministic under Python's greedy
    backtracking: every repetition is followed by a character outside the
    repeated class, so the longest run is the only one that can succeed. *)

Module Re.
Import Str.

Fixpoint drop_while (f : ascii → bool) (s : string) : string :=
  match s with
  | String c r => if f c then drop_while f r else s
  | "" => ""
  end.

Fixpoint all (f : ascii → bool) (s : string) : bool :=
  match s with
  | String c r => f c && all f r
  | "" => true
  end.

(** [re.search]: the match at the leftmost position that has one. *)
Fixpoint search (m : string → option string) (s : string) : option string :=
  match m s with
  | Some x => Some x
  | None =>
      match s with
      | "" => None
      | String _ r => search m r
      end
  end.

(** [re.findall] for a pattern without empty matches: after a match the
    scan resumes behind it.  [skip] counts the characters of the last match
    that are still to be passed over. *)
Fixpoint findall_from (m : string → option string) (skip : nat) (s : string)
  : list string :=
  match s with
  | "" => []
  | String _ r =>
      match skip with
      | S k => findall_from m k r
      | O =>
          match m s with
          | Some x => x :: findall_from m (String.length x - 1) r
          | None => findall_from m 0 r
          end
      end
  end.

Definition findall (m : string → option string) (s : string) : list string :=
  findall_from m 0 s.

(** [CD\d+] *)
Definition match_cd (s : string) : option string :=
  match s with
  | String c (String d r) =>
      if Ascii.eqb c "C" && Ascii.eqb d "D" then
        match span is_digit r with
        | "" => None
        | ds => Some ("CD" +:+ ds)
        end
      else None
  | _ => None
  end.

(** [(CD\d+)] under [re.IGNORECASE] *)
Definition match_cd_nocase (s : string) : option string :=
  match s with
  | String c (String d r) =>
      if Ascii.eqb (upper_char c) "C" && Ascii.eqb (upper_char d) "D" then
        match span is_digit r with
        | "" => None
        | ds => Some (String c (String d ds))
        end
      else None
  | _ => None
  end.

Definition doi_prefix : string := "10.1002/14651858.CD".

(** [(10\.1002/14651858\.CD\d+(?:\.pub\d+)?)] *)
Definition match_cochrane_doi (s : string) : option string :=
  if startswith doi_prefix s then
    let r := drop (String.length doi_prefix) s in
    match span is_digit r with
    | "" => None
    | d =>
        let r2 := drop (String.length d) r in
        let pub :=
          if startswith ".pub" r2 then
            match span is_digit (drop 4 r2) with
            | "" => ""
            | d2 => ".pub" +:+ d2
            end
          else "" in
        Some (doi_prefix +:+ d +:+ pub)
    end
  else None.

Definition not_slash (c : ascii) : bool := negb (Ascii.eqb c "/").

(** [doi/(10\.[^/]+/[^/]+)]: the captured group *)
Definition match_generic_doi (s : string) : option string :=
  if startswith "doi/10." s then
    let r := drop 7 s in
    match span not_slash r with
    | "" => None
    | a =>
        match drop (String.length a) r with
        | String "/" r2 =>
            match span not_slash r2 with
            | "" => None
            | b => Some ("10." +:+ a +:+ "/" +:+ b)
            end
        | _ => None
        end
    end
  else None.

Definition date_key : string := DQ +:+ "datePublished" +:+ DQ.
Definition not_quote (c : ascii) : bool := negb (Ascii.eqb c "034").

(** The pattern of [get_date_from_cochrane_page]: the quoted key
    [datePublished], [\s*:\s*], then a quoted non-empty run of characters
    other than the double quote, which is the captured group. *)
Definition match_date_published (s : string) : option string :=
  if startswith date_key s then
    match drop_while is_space (drop (String.length date_key) s) with
    | String ":" r1 =>
        match drop_while is_space r1 with
        | String "034" r2 =>
            match span not_quote r2 with
            | "" => None
            | body =>
                match drop (String.length body) r2 with
                | String "034" _ => Some body
                | _ => None
                end
            end
        | _ => None
        end
    | _ => None
    end
  else None.

(** [re.match(r'(\d{4})-(\d{2})-(\d{2})', s)], returning the three groups
    joined by dashes as the caller formats them. *)
Definition match_iso_date (s : string) : option string :=
  let y := take 4 s in
  let m := take 2 (drop 5 s) in
  let d := take 2 (drop 8 s) in
  if (String.length y =? 4)%nat && all is_digit y
     && startswith "-" (drop 4 s)
     && (String.length m =? 2)%nat && all is_digit m
     && startswith "-" (drop 7 s)
     && (String.length d =? 2)%nat && all is_digit d
  then Some (y +:+ "-" +:+ m +:+ "-" +:+ d)
  else None.

Definition not_brace (c : ascii) : bool :=
  negb (Ascii.eqb c "{") && negb (Ascii.eqb c "}").

(** [\{[^{}]*\}] (with [re.DOTALL], which changes nothing here) *)
Definition match_brace (s : string) : option string :=
  match s with
  | String "{" r =>
      let body := span not_brace r in
      match drop (String.length body) r with
      | String "}" _ => Some ("{" +:+ body +:+ "}")
      | _ => None
      end
  | _ => None
  end.

(** A string that does not start with a digit. *)
Definition no_digit_ahead (s : string) : Prop :=
  match s with String c _ => is_digit c = false | "" => True end.

(** [u], then a line break, occurs in [s]. *)
Definition on_a_line (u s : string) : Prop :=
  ∃ pre post, s = pre +:+ u +:+ NL +:+ post.

End Re.

(** ** The parsed HTML page

    The tree that [BeautifulSoup(text, 'html.parser')] builds, with the
    parts of bs4 the scripts call. *)

Module Dom.

(** [Text] is a [NavigableString] (or a [CData]).  [Special c s] is a
    string of another class: for [c] in [string_containers], the class
    that the tree builder gives to the strings inside a [c] element
    ([RubyTextString], [RubyParenthesisString], [Stylesheet], [Script],
    [TemplateString], as bs4 has them from 4.11 on); for any other [c],
    a comment, declaration, doctype or processing instruction. *)
Inductive node : Type :=
| Text (s : string)
| Special (container : string) (s : string)
| Elem (name : string) (attrs : list (string * string)) (children : list node).

Definition is_elem (n : node) : bool :=
  match n with Elem _ _ _ => true | _ => false end.

Definition name_of (n : node) : string :=
  match n with Elem nm _ _ => nm | _ => "" end.

(** [tag.get(k)] for a single-valued attribute *)
Fixpoint attr (k : string) (attrs : list (string * string)) : option string :=
  match attrs with
  | [] => None
  | (k', v) :: r => if String.eqb k' k then Some v else attr k r
  end.

Definition attr_of (k : string) (n : node) : option string :=
  match n with Elem _ a _ => attr k a | _ => None end.

(** Every element below the roots in document order, each with the
    elements that follow it under the same parent: the tag and its
    [find_next_siblings()]. *)
Fixpoint walk (n : node) (following : list node) : list (node * list node) :=
  match n with
  | Elem _ _ cs =>
      (n, filter (fun x => is_elem x = true) following)
      :: (fix go (l : list node) : list (node * list node) :=
            match l with
            | [] => []
            | c :: r => (walk c r ++ go r)%list
            end) cs
  | _ => []
  end.

Fixpoint walk_all (roots : list node) : list (node * list node) :=
  match roots with
  | [] => []
  | c :: r => (walk c r ++ walk_all r)%list
  end.

Definition children_of (n : node) : list node :=
  match n with Elem _ _ cs => cs | _ => [] end.

(** [find_all(names)] below the roots *)
Definition find_all (names : list string) (roots : list node) : list (node * list node) :=
  filter (fun p => bool_decide (name_of (fst p) ∈ names)) (walk_all roots).

(** [find(name)] below the roots *)
Definition find (nm : string) (roots : list node) : option node :=
  head (map fst (find_all [nm] roots)).

(** The element names of [HTMLTreeBuilder.DEFAULT_STRING_CONTAINERS]. *)
Definition string_containers : list string :=
  ["rt"; "rp"; "style"; "script"; "template"].

(** [tag.interesting_string_types]: [Some c] is the one class of the
    strings of a [c] element, for a tag of that name; [None] is the
    default, [NavigableString] and [CData]. *)
Definition interesting (n : node) : option string :=
  if bool_decide (name_of n ∈ string_containers) then Some (name_of n) else None.

(** What [_all_strings] yields for a string [s] that has passed its test
    on the class: with [strip], the stripped string unless it is empty. *)
Definition yielded (strip : bool) (s : string) : list string :=
  if strip then
    match Str.strip s with
    | "" => []
    | t => [t]
    end
  else [s].

(** [tag._all_strings(strip, types)]: the strings below the tag whose
    class is one of [types], in document order. *)
Fixpoint strings (types : option string) (strip : bool) (n : node) : list string :=
  match n with
  | Text s =>
      match types with
      | None => yielded strip s
      | Some _ => []
      end
  | Special c s =>
      match types with
      | Some t => if String.eqb c t then yielded strip s else []
      | None => []
      end
  | Elem _ _ cs =>
      (fix go (l : list node) : list string :=
         match l with
         | [] => []
         | c :: r => (strings types strip c ++ go r)%list
         end) cs
  end.

(** [tag.get_text()] and [tag.get_text(strip=True)]: the strings of the
    classes that are interesting for the tag it is called on, so a script
    element gives its own body and a paragraph leaves out the body of a
    script inside it. *)
Definition get_text (strip : bool) (n : node) : string :=
  Str.join "" (strings (interesting n) strip n).

(** The whitespace-separated words of a [class] attribute. *)
Fixpoint words_from (cur : string) (s : string) : list string :=
  match s with
  | "" => match cur with "" => [] | _ => [cur] end
  | String c r =>
      if Str.is_space c then
        match cur with
        | "" => words_from "" r
        | _ => cur :: words_from "" r
        end
      else words_from (cur +:+ String c "") r
  end.

Definition has_class (cls : string) (n : node) : bool :=
  match attr_of "class" n with
  | Some v => bool_decide (cls ∈ words_from "" v)
  | None => false
  end.

Definition has_attr_value (k v : string) (n : node) : bool :=
  match attr_of k n with
  | Some x => String.eqb x v
  | None => false
  end.

(** The four selectors the script passes to [select_one]. *)
Inductive selector : Type :=
| ByClass (cls : string)
| ById (id : string)
| ByAttr (k v : string).

Definition matches (sel : selector) (n : node) : bool :=
  match sel with
  | ByClass c => has_class c n
  | ById i => has_attr_value "id" i n
  | ByAttr k v => has_attr_value k v n
  end.

(** [soup.select_one(selector)] *)
Definition select_one (sel : selector) (roots : list node) : option node :=
  head (filter (fun n => matches sel n = true) (map fst (walk_all roots))).

End Dom.

(** ** Python values, exceptions and the effect monad *)

Module Py.

(** A value decoded by [json.loads] or [yaml.safe_load].  [VDate] is the
    [datetime.date] that YAML builds from an unquoted timestamp. *)
Inductive value : Type :=
| VNone
| VBool (b : bool)
| VInt (z : Z)
| VFloat (f : spec_float)
| VStr (s : string)
| VList (l : list value)
| VDict (d : list (string * value))
| VDate (y m d : Z).

(** A [dict] with string keys, in insertion order, keys pairwise distinct. *)
Definition dict : Type := list (string * value).

(** [d.get(k)] *)
Fixpoint dict_get (d : dict) (k : string) : option value :=
  match d with
  | [] => None
  | (k', v) :: r => if String.eqb k' k then Some v else dict_get r k
  end.

(** [d.get(k, default)] *)
Definition dict_get_default (d : dict) (k : string) (default : value) : value :=
  match dict_get d k with
  | Some v => v
  | None => default
  end.

(** [d[k] = v]: an existing key keeps its place, a new key goes last. *)
Fixpoint dict_set (d : dict) (k : string) (v : value) : dict :=
  match d with
  | [] => [(k, v)]
  | (k', v') :: r =>
      if String.eqb k' k then (k', v) :: r else (k', v') :: dict_set r k v
  end.

(** [bool(v)] *)
Definition truthy (v : value) : bool :=
  match v with
  | VNone => false
  | VBool b => b
  | VInt z => negb (z =? 0)%Z
  | VFloat (S754_zero _) => false
  | VFloat _ => true
  | VStr s => Str.truthy s
  | VList l => match l with [] => false | _ => true end
  | VDict d => match d with [] => false | _ => true end
  | VDate _ _ _ => true
  end.

(** [bool(d.get(k))] *)
Definition get_truthy (d : dict) (k : string) : bool :=
  match dict_get d k with
  | Some v => truthy v
  | None => false
  end.

(** Truthiness of an [Optional[str]]. *)
Definition otruthy (o : option string) : bool :=
  match o with
  | Some s => Str.truthy s
  | None => false
  end.

Inductive exn : Type :=
| KeyError
| IndexError
| TypeError
| ValueError
| AttributeError
| FileNotFoundError
| SystemExit (status : Z).

Inductive result (A : Type) : Type :=
| Ok (a : A)
| Raise (e : exn).
Arguments Ok {A} a.
Arguments Raise {A} e.

Definition rbind {A B} (r : result A) (k : A → result B) : result B :=
  match r with
  | Ok a => k a
  | Raise e => Raise e
  end.

(** [try: ... except Exception: return None] around a computation that
    returns an [Optional]. *)
Definition catch_none {A} (r : result (option A)) : option A :=
  match r with
  | Ok o => o
  | Raise _ => None
  end.

(** An HTTP response as the scripts read it. *)
Record response : Type := { status_code : Z; text : string }.

Inductive delay : Type := CROSSREF_DELAY | COCHRANE_DELAY.

(** What a run does to the outside, in order. *)
Inductive event : Type :=
| EvGet (url : string)
| EvFeed (url : string)
| EvModel (prompt : string) (max_tokens : Z)
| EvSleep (d : delay).

(** The outside world [W] and the libraries.  A call that raises returns
    [None]; every call may change the world. *)
Record Env (W : Type) : Type := {
  (** [requests.get(url, ...)] *)
  requests_get : string → W → option response * W;
  (** [feedparser.parse(url).entries] as (link, title) pairs *)
  feedparser_parse : string → W → option (list (option string * option string)) * W;
  (** [Anthropic().messages.create(...).content[0].text] *)
  messages_create : string → Z → W → option string * W;
  (** [json.loads]: [None] is [json.JSONDecodeError] *)
  json_loads : string → option value;
  (** [json.dumps] *)
  json_dumps : value → string;
  (** [str()] of a float, list, dict or date *)
  py_repr : value → string;
  (** whether [yaml.safe_load] accepts a text; [false] is a
      [yaml.YAMLError], the one exception that [validate_yaml] catches,
      and the parser is taken to raise no other *)
  yaml_ok : string → bool;
  (** [BeautifulSoup(text, 'html.parser')]: the top-level nodes *)
  html_parse : string → list Dom.node;
  (** the contents of [prompts/summarize_prompt.txt] and of
      [enrichment_prompt.txt]; the two files are taken to be there and
      readable, so the [open] and [read] of [summarize_review] and
      [enrich_summary] do not raise *)
  summarize_prompt : string;
  enrichment_prompt : string;
}.
Arguments requests_get {W} _ _ _.
Arguments feedparser_parse {W} _ _ _.
Arguments messages_create {W} _ _ _ _.
Arguments json_loads {W} _ _.
Arguments json_dumps {W} _ _.
Arguments py_repr {W} _ _.
Arguments yaml_ok {W} _ _.
Arguments html_parse {W} _ _.
Arguments summarize_prompt {W} _.
Arguments enrichment_prompt {W} _.

(** The state a computation threads: the world, the events so far, and
    the content of [summaries.yml] ([None]: the file does not exist). *)
Record st (W : Type) : Type := {
  world : W;
  trace : list event;
  store : option string;
}.
Arguments world {W} _.
Arguments trace {W} _.
Arguments store {W} _.
Arguments Build_st {W} _ _ _.

Definition M (W A : Type) : Type := st W → result A * st W.

Definition ret {W A} (a : A) : M W A := fun s => (Ok a, s).

Definition bind {W A B} (m : M W A) (k : A → M W B) : M W B :=
  fun s =>
    match m s with
    | (Ok a, s') => k a s'
    | (Raise e, s') => (Raise e, s')
    end.

Definition raise {W A} (e : exn) : M W A := fun s => (Raise e, s).

Definition lift {W A} (r : result A) : M W A := fun s => (r, s).

(** Record an event, then let the world answer. *)
Definition call {W A} (ev : event) (f : W → A * W) : M W A :=
  fun s =>
    let (a, w) := f (world s) in
    (Ok a, Build_st w (trace s ++ [ev])%list (store s)).

Definition emit {W} (ev : event) : M W unit :=
  fun s => (Ok tt, Build_st (world s) (trace s ++ [ev])%list (store s)).

(** A computation that leaves [summaries.yml] as it is. *)
Definition keeps_store {W A} (m : M W A) : Prop :=
  ∀ s, store (snd (m s)) = store s.

(** A computation that only adds events, all of them in [P]. *)
Definition emits_only {W A} (P : event → Prop) (m : M W A) : Prop :=
  ∀ s, ∃ evs, trace (snd (m s)) = (trace s ++ evs)%list ∧ Forall P evs.

(** [str(v)], the empty format spec of an f-string. *)
Definition py_str {W} (E : Env W) (v : value) : string :=
  match v with
  | VNone => "None"
  | VBool true => "True"
  | VBool false => "False"
  | VInt z => Str.of_Z z
  | VStr s => s
  | _ => py_repr E v
  end.

(** [f"{v:02d}"]: only [int] (and its subclass [bool]) accept the spec. *)
Definition format_02d (v : value) : result string :=
  match v with
  | VInt z => Ok (Str.pad2 z)
  | VBool b => Ok (Str.pad2 (if b then 1 else 0))
  | VFloat _ | VStr _ => Raise ValueError
  | _ => Raise TypeError
  end.

(** [len(v)] *)
Definition py_len (v : value) : result nat :=
  match v with
  | VList l => Ok (length l)
  | VStr s => Ok (String.length s)
  | VDict d => Ok (length d)
  | _ => Raise TypeError
  end.

(** [v[i]] for a non-negative integer literal [i] *)
Definition py_index (v : value) (i : nat) : result value :=
  match v with
  | VList l => match nth_error l i with Some x => Ok x | None => Raise IndexError end
  | VStr s =>
      match String.get i s with
      | Some c => Ok (VStr (String c ""))
      | None => Raise IndexError
      end
  | VDict _ => Raise KeyError
  | _ => Raise TypeError
  end.

(** [k in v] for a string [k] *)
Definition py_contains (v : value) (k : string) : result bool :=
  match v with
  | VDict d => Ok (bool_decide (is_Some (dict_get d k)))
  | VList l => Ok (existsb (fun x => match x with VStr s => String.eqb s k | _ => false end) l)
  | VStr s => Ok (Str.contains k s)
  | _ => Raise TypeError
  end.

(** [v[k]] for a string [k] *)
Definition py_getitem (v : value) (k : string) : result value :=
  match v with
  | VDict d => match dict_get d k with Some x => Ok x | None => Raise KeyError end
  | _ => Raise TypeError
  end.

(** [v.get(k, default)] *)
Definition py_get (v : value) (k : string) (default : value) : result value :=
  match v with
  | VDict d => Ok (dict_get_default d k default)
  | _ => Raise AttributeError
  end.

End Py.

Declare Scope py_scope.
Delimit Scope py_scope with py.
Notation "'let!' x ':=' c1 'in' c2" := (Py.bind c1 (fun x => c2))
  (at level 10, x name, c1 at level 100, c2 at level 200) : py_scope.
Notation "'let!' ' p ':=' c1 'in' c2" :=
  (Py.bind c1 (fun x => match x with p => c2 end))
  (at level 10, p pattern, c1 at level 100, c2 at level 200) : py_scope.
Notation "c1 ;;; c2" := (Py.bind c1 (fun _ => c2))
  (at level 100, c2 at level 200, right associativity) : py_scope.

(** ** scripts/add_dates.py *)

Module AddDates.
Import Py.
Local Open Scope py_scope.

Section Script.
Context {W : Type} (E : Env W).

(** [extract_doi]; [re.search] raises [TypeError] on anything but a [str]. *)
Definition extract_doi (url : value) : result (option string) :=
  match url with
  | VStr u =>
      match Re.search Re.match_cochrane_doi u with
      | Some d => Ok (Some d)
      | None =>
          match Re.search Re.match_generic_doi u with
          | Some d => Ok (Some d)
          | None => Ok None
          end
      end
  | _ => Raise TypeError
  end.

(** [extract_cd_number] *)
Definition extract_cd_number (url : value) : result (option string) :=
  match url with
  | VStr u =>
      match Re.search Re.match_cd_nocase u with
      | Some m => Ok (Some (Str.upper m))
      | None => Ok None
      end
  | _ => Raise TypeError
  end.

Definition date_fields : list string :=
  ["published"; "issued"; "published-online"; "created"].

(** A field the loop passes over without a result: it is absent from the
    message, or its first date-parts list is empty. *)
Definition passed_over (message : dict) (field : string) : Prop :=
  dict_get message field = None
  ∨ ∃ fv rest,
      dict_get message field = Some (VDict fv)
      ∧ dict_get_default fv "date-parts" (VList [VList []]) = VList (VList [] :: rest).

(** The three branches on [len(date_parts)]; [Ok None] is the fall-through
    to the next field. *)
Definition format_date_parts (date_parts : value) : result (option string) :=
  rbind (py_len date_parts) (fun n =>
  if (3 <=? n)%nat then
    rbind (py_index date_parts 0) (fun y =>
    rbind (py_index date_parts 1) (fun m =>
    rbind (format_02d m) (fun ms =>
    rbind (py_index date_parts 2) (fun d =>
    rbind (format_02d d) (fun ds =>
    Ok (Some (py_str E y +:+ "-" +:+ ms +:+ "-" +:+ ds)))))))
  else if (2 <=? n)%nat then
    rbind (py_index date_parts 0) (fun y =>
    rbind (py_index date_parts 1) (fun m =>
    rbind (format_02d m) (fun ms =>
    Ok (Some (py_str E y +:+ "-" +:+ ms +:+ "-01")))))
  else if (1 <=? n)%nat then
    rbind (py_index date_parts 0) (fun y =>
    Ok (Some (py_str E y +:+ "-01-01")))
  else Ok None).

(** One turn of the loop over the field names. *)
Definition field_date (message : value) (field : string) : result (option string) :=
  rbind (py_contains message field) (fun present =>
  if present then
    rbind (py_getitem message field) (fun fv =>
    rbind (py_get fv "date-parts" (VList [VList []])) (fun dp =>
    rbind (py_index dp 0) (fun date_parts =>
    format_date_parts date_parts)))
  else Ok None).

Fixpoint first_date (message : value) (fields : list string) : result (option string) :=
  match fields with
  | [] => Ok None
  | f :: r =>
      rbind (field_date message f) (fun o =>
      match o with
      | Some d => Ok (Some d)
      | None => first_date message r
      end)
  end.

(** What [get_date_from_crossref] makes of the body of a 200 response. *)
Definition crossref_date (body : string) : option string :=
  catch_none
    (match json_loads E body with
     | None => Raise ValueError
     | Some data =>
         rbind (py_get data "message" (VDict [])) (fun message =>
         first_date message date_fields)
     end).

Definition crossref_url (doi : string) : string :=
  "https://api.crossref.org/works/" +:+ doi.

(** [get_date_from_crossref] *)
Definition get_date_from_crossref (doi : string) : M W (option string) :=
  let! r := call (EvGet (crossref_url doi)) (requests_get E (crossref_url doi)) in
  ret (match r with
       | Some resp =>
           if (status_code resp =? 200)%Z then crossref_date (text resp) else None
       | None => None
       end).

(** What [get_date_from_cochrane_page] makes of the text of a 200 response. *)
Definition page_date (t : string) : option string :=
  match Re.search Re.match_date_published t with
  | Some date_str => Re.match_iso_date date_str
  | None => None
  end.

Definition cochrane_url (cd_number : string) : string :=
  "https://www.cochrane.org/" +:+ cd_number.

(** [get_date_from_cochrane_page] *)
Definition get_date_from_cochrane_page (cd_number : string) : M W (option string) :=
  let! r := call (EvGet (cochrane_url cd_number)) (requests_get E (cochrane_url cd_number)) in
  ret (match r with
       | Some resp =>
           if (status_code resp =? 200)%Z then page_date (text resp) else None
       | None => None
       end).

(** The CrossRef half of [get_date_for_entry]: [Some date] is its early
    return. *)
Definition try_crossref (url : value) : M W (option string) :=
  let! doi := lift (extract_doi url) in
  match doi with
  | Some d =>
      if Str.truthy d then
        let! date := get_date_from_crossref d in
        if otruthy date then ret date
        else (emit (EvSleep CROSSREF_DELAY) ;;; ret None)
      else ret None
  | None => ret None
  end.

(** The Cochrane page half of [get_date_for_entry]. *)
Definition try_cochrane_page (url : value) : M W (option string) :=
  let! cd_number := lift (extract_cd_number url) in
  match cd_number with
  | Some cd =>
      if Str.truthy cd then
        emit (EvSleep COCHRANE_DELAY) ;;;
        let! date := get_date_from_cochrane_page cd in
        if otruthy date then ret date else ret None
      else ret None
  | None => ret None
  end.

(** [get_date_for_entry] *)
Definition get_date_for_entry (entry : dict) (index : nat) : M W (nat * option value) :=
  let url := dict_get_default entry "url" (VStr "") in
  if get_truthy entry "date" then
    let! d := lift (py_getitem (VDict entry) "date") in
    ret (index, Some d)
  else
    let! early := try_crossref url in
    match early with
    | Some date => ret (index, Some (VStr date))
    | None =>
        let! late := try_cochrane_page url in
        match late with
        | Some date => ret (index, Some (VStr date))
        | None => ret (index, None)
        end
    end.

(** *** [main]

    [yaml.safe_load] returns a list of references to dicts; an alias in
    the YAML text makes two positions refer to one dict.  [summaries] is
    the list of references and the heap gives each referenced dict. *)

Definition loc : Type := nat.
Definition heap : Type := loc → dict.

Definition upd (h : heap) (l : loc) (d : dict) : heap :=
  fun l' => if decide (l' = l) then d else h l'.

(** [not entry.get("date")] *)
Definition lacks_date (e : dict) : bool := negb (get_truthy e "date").

(** The indices for which the dict comprehension submits a task. *)
Definition submitted (summaries : list loc) (h : heap) : list nat :=
  map fst (filter (fun p => lacks_date (h (snd p)) = true) (imap pair summaries)).

(** One thing that happens while the pool is open: a worker runs the task
    of index [i] to its end, or [as_completed] hands the finished future of
    index [i] to the loop body. *)
Inductive action : Type :=
| Run (i : nat)
| Yield (i : nat).

Record pool : Type := {
  objects : heap;
  finished : gmap nat (result (nat * option value));
  consumed : list nat;
  updated : nat;
  failed : nat;
}.

(** The loop body of [main]: [summaries[index]["date"] = date] when the
    date is truthy. *)
Definition merge (summaries : list loc) (p : pool) (i : nat) (index : nat)
    (date : option value) : result pool :=
  match date with
  | Some d =>
      if truthy d then
        match summaries !! index with
        | Some l =>
            Ok {| objects := upd (objects p) l (dict_set (objects p l) "date" d);
                  finished := delete i (finished p);
                  consumed := i :: consumed p;
                  updated := S (updated p);
                  failed := failed p |}
        | None => Raise IndexError
        end
      else
        Ok {| objects := objects p; finished := delete i (finished p);
              consumed := i :: consumed p;
              updated := updated p; failed := S (failed p) |}
  | None =>
      Ok {| objects := objects p; finished := delete i (finished p);
            consumed := i :: consumed p;
            updated := updated p; failed := S (failed p) |}
  end.

(** [net i] is the outside world as the task of index [i] meets it.
    [None]: the action cannot happen in this state. *)
Definition step (summaries : list loc) (subm : list nat) (net : nat → st W)
    (p : pool) (a : action) : option (result pool) :=
  match a with
  | Run i =>
      if bool_decide (i ∈ subm) && bool_decide (finished p !! i = None)
         && bool_decide (i ∉ consumed p) then
        match summaries !! i with
        | Some l =>
            let r := fst (get_date_for_entry (objects p l) i (net i)) in
            Some (Ok {| objects := objects p;
                        finished := <[i := r]> (finished p);
                        consumed := consumed p;
                        updated := updated p; failed := failed p |})
        | None => None
        end
      else None
  | Yield i =>
      match finished p !! i with
      | Some (Ok (index, date)) => Some (merge summaries p i index date)
      | Some (Raise e) => Some (Raise e)
      | None => None
      end
  end.

(** A whole schedule; an exception of [future.result()] ends the run. *)
Fixpoint steps (summaries : list loc) (subm : list nat) (net : nat → st W)
    (p : pool) (sched : list action) : option (result pool) :=
  match sched with
  | [] => Some (Ok p)
  | a :: rest =>
      match step summaries subm net p a with
      | Some (Ok p') => steps summaries subm net p' rest
      | Some (Raise e) => Some (Raise e)
      | None => None
      end
  end.

(** The pool is closed when every submitted future has been consumed. *)
Definition all_consumed (subm : list nat) (p : pool) : bool :=
  bool_decide (finished p = ∅) && forallb (fun i => bool_decide (i ∈ consumed p)) subm.

(** The pool before the first action. *)
Definition pool0 (h : heap) : pool :=
  {| objects := h; finished := ∅; consumed := []; updated := 0; failed := 0 |}.

Inductive outcome : Type :=
| NoSummaries
| AllDated
| Written (records : list dict)
| Crashed (e : exn).

(** [main] under a schedule of the pool.  [None]: [sched] is not a schedule
    of this run. *)
Definition main (summaries : list loc) (h : heap) (net : nat → st W)
    (sched : list action) : option outcome :=
  match summaries with
  | [] => Some NoSummaries
  | _ =>
      let subm := submitted summaries h in
      if (length subm =? 0)%nat then Some AllDated
      else
        match steps summaries subm net (pool0 h) sched with
        | Some (Ok p) =>
            if all_consumed subm p then Some (Written (map (objects p) summaries))
            else None
        | Some (Raise e) => Some (Crashed e)
        | None => None
        end
  end.

(** No two positions that lack a date refer to one dict. *)
Definition no_alias (summaries : list loc) (h : heap) : Prop :=
  ∀ i j l, summaries !! i = Some l → summaries !! j = Some l →
           lacks_date (h l) = true → i = j.

(** What the task of index [i] returns when it reads the dict [l] as it
    was loaded. *)
Definition task_result (h : heap) (net : nat → st W) (i : nat) (l : loc)
  : result (nat * option value) :=
  fst (get_date_for_entry (h l) i (net i)).

(** The dict [l] after the result of the task of index [i] is merged. *)
Definition merged (h : heap) (net : nat → st W) (i : nat) (l : loc) : dict :=
  match task_result h net i l with
  | Ok (_, Some d) => if truthy d then dict_set (h l) "date" d else h l
  | _ => h l
  end.

(** The collection a run is expected to write: position by position, the
    dict as it was read, with the result of its own task merged when it
    had no date. *)
Definition backfilled (summaries : list loc) (h : heap) (net : nat → st W) : list dict :=
  imap (fun i l => if lacks_date (h l) then merged h net i l else h l) summaries.

(** What holds of the pool at every moment of a run, whatever the dicts
    share: a future belongs to a submitted index and reports it, and a
    dict is as it was read or has had a date set where it had none. *)
Definition frame_inv (summaries : list loc) (h : heap) (p : pool) : Prop :=
  (∀ i r, finished p !! i = Some r →
          i ∈ submitted summaries h ∧ ∀ idx d, r = Ok (idx, d) → idx = i)
  ∧ (∀ l, objects p l = h l
          ∨ (lacks_date (h l) = true ∧ ∃ d, objects p l = dict_set (h l) "date" d)).

(** What holds in addition when no two dateless positions share a dict:
    an unconsumed future holds the result of its task on the dict as it was
    read, and a dict has the merged result exactly when the future of its
    position is consumed. *)
Definition order_inv (summaries : list loc) (h : heap) (net : nat → st W) (p : pool)
  : Prop :=
  (∀ i r, finished p !! i = Some r →
          i ∈ submitted summaries h ∧ (i ∉ consumed p)
          ∧ ∃ l, summaries !! i = Some l ∧ r = task_result h net i l)
  ∧ (∀ i, i ∈ consumed p → i ∈ submitted summaries h)
  ∧ (∀ i l, summaries !! i = Some l →
            objects p l = if bool_decide (i ∈ consumed p) then merged h net i l else h l).

(** Every task runs, then the futures complete in the given order. *)
Definition run_then_yield (subm order : list nat) : list action :=
  (map Run subm ++ map Yield order)%list.

End Script.

(** *** Dates as the specification writes them

    [YYYY] and [MM] written out digit by digit, for a year of four digits
    and a month or day below 100. *)

Definition digit_char (k : Z) : ascii := ascii_of_N (48 + Z.to_N k).

Definition two_digits (n : Z) : string :=
  String (digit_char (n / 10)) (String (digit_char (n mod 10)) "").

Definition four_digits (n : Z) : string :=
  String (digit_char (n / 1000))
    (String (digit_char (n / 100 mod 10))
       (String (digit_char (n / 10 mod 10)) (String (digit_char (n mod 10)) ""))).

End AddDates.

(** ** scripts/update_cochrane.py *)

Module UpdateCochrane.
Import Py.
Local Open Scope py_scope.

Definition RSS_URL : string := "https://www.cochranelibrary.com/cdsr/table-of-contents/rss.xml".
Definition NEWS_URL : string := "https://www.cochrane.org/news".
Definition COCHRANE_BASE_URL : string := "https://www.cochrane.org".

(** The dicts that discovery builds. *)
Record review : Type := { cd_number : string; url : string; title : string }.

(** [l[:k]] *)
Definition slice_to {A} (l : list A) (k : Z) : list A :=
  if (k <? 0)%Z then take (Z.to_nat (Z.of_nat (length l) + k)) l
  else take (Z.to_nat k) l.

(** The loop body of [fetch_rss_reviews] on one feed entry. *)
Definition review_of_entry (e : option string * option string) : option review :=
  let link := default "" (fst e) in
  match Re.search Re.match_cd link with
  | Some cd => Some {| cd_number := cd; url := link; title := default "" (snd e) |}
  | None => None
  end.

(** The loop body of [scrape_news_page] on one [a] element with an [href]. *)
Definition review_of_link (n : Dom.node) : option review :=
  match Dom.attr_of "href" n with
  | Some href =>
      match Re.search Re.match_cd href with
      | Some cd =>
          Some {| cd_number := cd;
                  url := if Str.startswith "/" href then COCHRANE_BASE_URL +:+ href else href;
                  title := Dom.get_text true n |}
      | None => None
      end
  | None => None
  end.

(** Deduplicate by CD number, first occurrence wins. *)
Fixpoint dedupe (seen : list string) (l : list review) : list review :=
  match l with
  | [] => []
  | r :: t =>
      if bool_decide (cd_number r ∈ seen) then dedupe seen t
      else r :: dedupe (cd_number r :: seen) t
  end.

Definition headings : list string := ["h2"; "h3"; "h4"].

Definition is_heading (n : Dom.node) : bool :=
  bool_decide (Dom.name_of n ∈ headings).

(** The inner loop over [header.find_next_siblings()], up to its [break]. *)
Fixpoint until_heading (siblings : list Dom.node) : list Dom.node :=
  match siblings with
  | [] => []
  | x :: r => if is_heading x then [] else x :: until_heading r
  end.

Definition blank_line : string := Str.NL +:+ Str.NL.

(** The loop over the headers of the page. *)
Fixpoint heading_fallback (hs : list (Dom.node * list Dom.node)) : option string :=
  match hs with
  | [] => None
  | (header, siblings) :: r =>
      if Str.contains "plain language" (Str.lower (Dom.get_text false header)) then
        match map (Dom.get_text true) (until_heading siblings) with
        | [] => heading_fallback r
        | content_parts => Some (Str.join blank_line content_parts)
        end
      else heading_fallback r
  end.

Definition selectors : list Dom.selector :=
  [Dom.ByClass "pls-section"; Dom.ById "pls"; Dom.ByAttr "data-section" "pls";
   Dom.ByClass "plain-language-summary"].

(** The loop over the selectors, up to its [break]. *)
Fixpoint first_selected (sels : list Dom.selector) (roots : list Dom.node)
  : option Dom.node :=
  match sels with
  | [] => None
  | s :: r =>
      match Dom.select_one s roots with
      | Some n => Some n
      | None => first_selected r roots
      end
  end.

(** The [try] block of [fetch_plain_language_summary] on the parsed page. *)
Definition extract_summary (roots : list Dom.node) : option string :=
  let pls_section := first_selected selectors roots in
  let from_heading :=
    match pls_section with
    | None => heading_fallback (Dom.find_all headings roots)
    | Some _ => None
    end in
  match from_heading with
  | Some t => Some t
  | None =>
      match pls_section with
      | Some sec => Some (Dom.get_text true sec)
      | None =>
          let article :=
            match Dom.find "article" roots with
            | Some a => Some a
            | None => Dom.find "main" roots
            end in
          match article with
          | Some a =>
              match take 5 (map fst (Dom.find_all ["p"] (Dom.children_of a))) with
              | [] => None
              | paragraphs => Some (Str.join blank_line (map (Dom.get_text true) paragraphs))
              end
          | None => None
          end
      end
  end.

(** [\{plain_language_summary\}] and the other placeholders. *)
Definition placeholder (name : string) : string := "{" +:+ name +:+ "}".

(** [str.replace(old, new)] with [new] taken from a dict: anything but a
    [str] raises [TypeError]. *)
Definition replace_value (old : string) (new : value) (s : string) : result string :=
  match new with
  | VStr n => Ok (Str.replace old n s)
  | _ => Raise TypeError
  end.

(** [exit] status of the process for the way [main] ends. *)
Definition exit_status {A} (r : result A) : Z :=
  match r with
  | Ok _ => 0
  | Raise (SystemExit n) => n
  | Raise _ => 1
  end.

Definition marker : string :=
  Str.NL +:+ Str.NL +:+ "# New reviews added by automation" +:+ Str.NL.

(** What the code checks [processed] candidates against: a string item of
    [','.join(...)]. *)
Definition as_str (v : value) : result string :=
  match v with
  | VStr s => Ok s
  | _ => Raise TypeError
  end.

Fixpoint rmap {A B} (f : A → result B) (l : list A) : result (list B) :=
  match l with
  | [] => Ok []
  | x :: r =>
      rbind (f x) (fun y =>
      rbind (rmap f r) (fun ys => Ok (y :: ys)))
  end.

(** The events that concern one review: a request for its page under
    either address, or a call of the model. *)
Definition about (r : review) (ev : event) : Prop :=
  match ev with
  | EvGet u => u = "https://www.cochrane.org/" +:+ cd_number r ∨ u = url r
  | EvModel _ _ => True
  | _ => False
  end.

(** The CD numbers that [get_existing_cd_numbers] finds in the file. *)
Definition existing_in (file : option string) : list string :=
  match file with
  | None => []
  | Some content => Re.findall Re.match_cd content
  end.

Section Script.
Context {W : Type} (E : Env W).

(** [get_existing_cd_numbers] *)
Definition get_existing_cd_numbers : M W (list string) :=
  fun s =>
    match store s with
    | None => (Ok [], s)
    | Some content => (Ok (Re.findall Re.match_cd content), s)
    end.

(** [fetch_rss_reviews] *)
Definition fetch_rss_reviews : M W (list review) :=
  let! r := call (EvFeed RSS_URL) (feedparser_parse E RSS_URL) in
  ret (match r with
       | Some entries => omap review_of_entry entries
       | None => []
       end).

(** [scrape_news_page]; [raise_for_status] raises on a 4xx or 5xx status. *)
Definition scrape_news_page : M W (list review) :=
  let! r := call (EvGet NEWS_URL) (requests_get E NEWS_URL) in
  ret (match r with
       | Some resp =>
           if ((400 <=? status_code resp) && (status_code resp <? 600))%Z then []
           else
             dedupe []
               (omap review_of_link
                  (map fst (Dom.find_all ["a"] (html_parse E (text resp)))))
       | None => []
       end).

(** The loop over [urls_to_try]; [last] is the value of [response]. *)
Fixpoint try_urls (urls : list string) (last : option response) : M W (option response) :=
  match urls with
  | [] => ret last
  | u :: r =>
      let! x := call (EvGet u) (requests_get E u) in
      match x with
      | Some resp =>
          if (status_code resp =? 200)%Z then ret (Some resp)
          else try_urls r (Some resp)
      | None => try_urls r last
      end
  end.

(** [fetch_plain_language_summary] *)
Definition fetch_plain_language_summary (url cd_number : string) : M W (option string) :=
  let urls_to_try :=
    ((if Str.truthy cd_number then ["https://www.cochrane.org/" +:+ cd_number] else [])
     ++ [url])%list in
  let! response := try_urls urls_to_try None in
  match response with
  | Some resp =>
      if (status_code resp =? 200)%Z
      then ret (extract_summary (html_parse E (text resp)))
      else ret None
  | None => ret None
  end.

(** [call_claude] *)
Definition call_claude (prompt : string) (max_tokens : Z) : M W (option string) :=
  call (EvModel prompt max_tokens) (messages_create E prompt max_tokens).

(** The [try] block of [summarize_review] on the model's text. *)
Definition parse_summary (response : string) : result (option dict) :=
  match Re.search Re.match_brace response with
  | Some m =>
      match json_loads E m with
      | Some result =>
          rbind (py_get result "skip" VNone) (fun skip =>
          if truthy skip then Ok None
          else
            match result with
            | VDict d => Ok (Some d)
            | _ => Raise AttributeError
            end)
      | None => Ok None
      end
  | None => Ok None
  end.

(** The prompt of [summarize_review]. *)
Definition summarize_prompt_for (plain_language_summary : string) : string :=
  Str.replace (placeholder "plain_language_summary") plain_language_summary
    (summarize_prompt E).

(** [summarize_review] *)
Definition summarize_review (plain_language_summary : string) : M W (option dict) :=
  let prompt := summarize_prompt_for plain_language_summary in
  let! response := call_claude prompt 500 in
  if otruthy response then lift (parse_summary (default "" response))
  else ret None.

(** The prompt of [enrich_summary]. *)
Definition enrichment_prompt_for (summary : dict) : result string :=
  rbind (py_getitem (VDict summary) "question") (fun q =>
  rbind (replace_value (placeholder "question") q (enrichment_prompt E)) (fun p1 =>
  rbind (py_getitem (VDict summary) "answer") (fun a =>
  rbind (replace_value (placeholder "answer") a p1) (fun p2 =>
  rbind (py_getitem (VDict summary) "notes") (fun n =>
  replace_value (placeholder "notes") n p2))))).

(** The [try] block of [enrich_summary] on the model's text. *)
Definition parse_enrichment (summary : dict) (response : string) : result (option dict) :=
  match Re.search Re.match_brace response with
  | Some m =>
      match json_loads E m with
      | Some enrichment =>
          rbind (py_get enrichment "interest" (VInt 5)) (fun interest =>
          rbind (py_get enrichment "tags" (VList [])) (fun tags =>
          Ok (Some (dict_set (dict_set summary "interest" interest) "tags" tags))))
      | None => Ok None
      end
  | None => Ok None
  end.

(** [enrich_summary] *)
Definition enrich_summary (summary : dict) : M W (option dict) :=
  let! prompt := lift (enrichment_prompt_for summary) in
  let! response := call_claude prompt 100 in
  if otruthy response then lift (parse_enrichment summary (default "" response))
  else ret None.

(** One entry of [append_to_summaries], before its [strip()]. *)
Definition format_entry (s : dict) : result string :=
  rbind (py_getitem (VDict s) "question") (fun q =>
  rbind (py_getitem (VDict s) "answer") (fun a =>
  rbind (py_getitem (VDict s) "url") (fun u =>
  rbind (py_getitem (VDict s) "notes") (fun n =>
  rbind (py_getitem (VDict s) "interest") (fun i =>
  rbind (py_getitem (VDict s) "tags") (fun t =>
  Ok (Str.NL +:+ "- question: " +:+ json_dumps E q +:+ Str.NL
      +:+ "  answer: " +:+ json_dumps E a +:+ Str.NL
      +:+ "  url: " +:+ py_str E u +:+ Str.NL
      +:+ "  notes: |" +:+ Str.NL
      +:+ "    " +:+ py_str E n +:+ Str.NL
      +:+ "  interest: " +:+ py_str E i +:+ Str.NL
      +:+ "  tags: " +:+ json_dumps E t +:+ Str.NL))))))).

(** The text that [append_to_summaries] writes behind the file. *)
Definition appended_text (new_entries : list string) : string :=
  marker +:+ Str.join blank_line new_entries +:+ Str.NL.

(** [append_to_summaries] *)
Definition append_to_summaries (new_summaries : list dict) : M W unit :=
  match new_summaries with
  | [] => ret tt
  | _ =>
      fun s =>
        match store s with
        | None => (Raise FileNotFoundError, s)
        | Some existing_content =>
            match rmap (fun d => rbind (format_entry d) (fun e => Ok (Str.strip e)))
                    new_summaries with
            | Ok new_entries =>
                (Ok tt,
                 Build_st (world s) (trace s)
                   (Some (existing_content +:+ appended_text new_entries)))
            | Raise e => (Raise e, s)
            end
        end
  end.

(** [validate_yaml] *)
Definition validate_yaml : M W bool :=
  fun s =>
    match store s with
    | None => (Raise FileNotFoundError, s)
    | Some content => (Ok (yaml_ok E content), s)
    end.

(** The body of the loop of [main] over the new reviews: [None] is a
    [continue]. *)
Definition process_review (r : review) : M W (option dict) :=
  let! pls := fetch_plain_language_summary (url r) (cd_number r) in
  if otruthy pls then
    let! summary := summarize_review (default "" pls) in
    match summary with
    | Some ((_ :: _) as sm) =>
        let sm' := dict_set sm "url" (VStr (url r)) in
        let! enriched := enrich_summary sm' in
        match enriched with
        | Some ((_ :: _) as en) => ret (Some en)
        | _ => ret None
        end
    | _ => ret None
    end
  else ret None.

(** The loop of [main]: the value of [processed_summaries] behind it. *)
Fixpoint process_all (new_reviews : list review) : M W (list dict) :=
  match new_reviews with
  | [] => ret []
  | r :: rest =>
      let! x := process_review r in
      let! xs := process_all rest in
      ret (match x with Some d => d :: xs | None => xs end)
  end.

(** Discovery: the feed first, then the news page. *)
Definition discover : M W (list review) :=
  let! reviews := fetch_rss_reviews in
  match reviews with
  | [] => scrape_news_page
  | _ => ret reviews
  end.

(** The filter of [main] on the discovered reviews. *)
Definition filter_new (existing : list string) (reviews : list review) : list review :=
  filter (fun r => cd_number r ∉ existing) reviews.

(** The two lines [main] prints at its end. *)
Definition output_lines (processed_summaries : list dict) : result (list string) :=
  rbind (rmap (fun s => as_str (dict_get_default s "url" (VStr ""))) processed_summaries)
    (fun urls =>
     Ok ["::set-output name=count::" +:+ Str.of_Z (Z.of_nat (length processed_summaries));
         "::set-output name=reviews::" +:+ Str.join "," urls]).

(** What [main] does with [processed_summaries]. *)
Definition finish (processed_summaries : list dict) : M W (list string) :=
  (match processed_summaries with
   | [] => ret tt
   | _ =>
       append_to_summaries processed_summaries ;;;
       let! ok := validate_yaml in
       if ok then ret tt else raise (SystemExit 1)
   end) ;;;
  lift (output_lines processed_summaries).

(** [main]: the result is what it printed on standard output. *)
Definition main (dry_run : bool) (max_reviews : Z) : M W (list string) :=
  let! existing := get_existing_cd_numbers in
  let! reviews := discover in
  match reviews with
  | [] => ret []
  | _ =>
      match filter_new existing reviews with
      | [] => ret []
      | new_reviews =>
          let new_reviews := slice_to new_reviews max_reviews in
          if dry_run then ret []
          else
            let! processed_summaries := process_all new_reviews in
            finish processed_summaries
      end
  end.

End Script.

(** *** The heading rule as the specification words it

    Collect the siblings up to the next heading of equal or higher level
    than the matched heading. *)




(** *** The first brace group of a text

    What the claim on [summarize_review] speaks of, written without the
    matcher of the pattern: a text without a brace, a brace group at the
    start of a text, the first brace group of a text. *)







End UpdateCochrane.

(** ** A small concrete outside world, for running the scripts *)

Module Demo.
Import Py.

Definition quoted (s : string) : string := Str.DQ +:+ s +:+ Str.DQ.

(** The page of a review: JSON-LD with its publication date, then markup. *)
Definition page_text (n : string) : string :=
  "<script>{" +:+ Re.date_key +:+ ": " +:+ quoted "2020-05-06T00:00:00Z" +:+ "}</script>page-" +:+ n.

Definition feed_link (cd : string) : string :=
  "https://www.cochranelibrary.com/cdsr/doi/10.1002/14651858." +:+ cd +:+ "/full".

Definition requests_get (url : string) (w : unit) : option response * unit :=
  if String.eqb url "https://www.cochrane.org/CD000001" then
    (Some {| status_code := 200; text := page_text "1" |}, w)
  else if String.eqb url "https://www.cochrane.org/CD000002" then
    (Some {| status_code := 200; text := page_text "2" |}, w)
  else if String.eqb url "https://www.cochrane.org/CD000003" then
    (Some {| status_code := 200; text := page_text "3" |}, w)
  else if String.eqb url "https://api.crossref.org/works/10.1002/14651858.CD000001" then
    (Some {| status_code := 200; text := "crossref-year-month" |}, w)
  else if String.eqb url "https://api.crossref.org/works/10.1111/abc.12" then
    (Some {| status_code := 404; text := "" |}, w)
  else (None, w).

Definition html_parse (t : string) : list Dom.node :=
  if String.eqb t (page_text "1") then
    [Dom.Elem "div" [("class", "main pls-section")] [Dom.Text " First summary. "]]
  else if String.eqb t (page_text "2") then
    [Dom.Elem "div" [("id", "pls")] [Dom.Text "Second summary."]]
  else if String.eqb t (page_text "3") then
    [Dom.Elem "div" [("id", "pls")] [Dom.Text "A protocol, skipme."]]
  else [].

Definition messages_create (prompt : string) (max_tokens : Z) (w : unit)
  : option string * unit :=
  if (max_tokens =? 500)%Z then
    if Str.contains "skipme" prompt then (Some "No results yet: {skip}", w)
    else (Some "Here you go: {summary} I hope it helps {x}", w)
  else (Some "{enrich}", w).

Definition json_loads (t : string) : option value :=
  if String.eqb t "{summary}" then
    Some (VDict [("question", VStr "Does it help?"); ("answer", VStr "Yes.");
                 ("notes", VStr "Reduces pain in 60% of patients.")])
  else if String.eqb t "{enrich}" then
    Some (VDict [("interest", VInt 7); ("tags", VList [VStr "pain"])])
  else if String.eqb t "{skip}" then
    Some (VDict [("skip", VBool true); ("reason", VStr "protocol")])
  else if String.eqb t "crossref-year-month" then
    Some (VDict [("status", VStr "ok");
                 ("message",
                  VDict [("issued", VDict [("date-parts", VList [VList [VInt 2021; VInt 3]])]);
                         ("created", VDict [("date-parts", VList [VList [VInt 2020; VInt 1; VInt 2]])])])])
  else None.

Definition json_dumps (v : value) : string :=
  match v with
  | VStr s => quoted s
  | VList l =>
      "[" +:+ Str.join ", " (map (fun x => match x with VStr s => quoted s | _ => "null" end) l) +:+ "]"
  | _ => "null"
  end.

(** An outside world with the given feed entries and YAML verdict. *)
Definition env (entries : list (option string * option string)) (yaml : bool) : Env unit :=
  {| Py.requests_get := requests_get;
     Py.feedparser_parse := fun _ w => (Some entries, w);
     Py.messages_create := messages_create;
     Py.json_loads := json_loads;
     Py.json_dumps := json_dumps;
     Py.py_repr := fun _ => "?";
     Py.yaml_ok := fun _ => yaml;
     Py.html_parse := html_parse;
     Py.summarize_prompt := "Summarise: {plain_language_summary}";
     Py.enrichment_prompt := "Rate: {question} / {answer} / {notes}" |}.

Definition feed2 : list (option string * option string) :=
  [(Some (feed_link "CD000001"), Some "First"); (Some (feed_link "CD000002"), Some "Second")].

Definition feed_skip : list (option string * option string) :=
  [(Some (feed_link "CD000003"), Some "Protocol"); (Some (feed_link "CD000001"), Some "First")].

(** An outside world in which CrossRef may be out of reach: the state
    says whether it answers. *)
Definition flaky_get (url : string) (w : bool) : option response * bool :=
  if Str.startswith "https://api.crossref.org/" url && negb w then (None, w)
  else (fst (requests_get url tt), w).

Definition flaky_env : Env bool :=
  {| Py.requests_get := flaky_get;
     Py.feedparser_parse := fun _ w => (None, w);
     Py.messages_create := fun _ _ w => (None, w);
     Py.json_loads := json_loads;
     Py.json_dumps := json_dumps;
     Py.py_repr := fun _ => "?";
     Py.yaml_ok := fun _ => true;
     Py.html_parse := html_parse;
     Py.summarize_prompt := "";
     Py.enrichment_prompt := "" |}.

(** Task 0 reaches CrossRef, every other task does not. *)
Definition flaky_net (i : nat) : st bool :=
  {| world := bool_decide (i = 0%nat); trace := []; store := None |}.

(** Three records; the first and the last lack a date. *)
Definition three_records (l : nat) : dict :=
  match l with
  | 0%nat => [("question", VStr "a"); ("url", VStr (feed_link "CD000001"))]
  | 1%nat => [("url", VStr (feed_link "CD000002")); ("date", VStr "2019-01-01")]
  | _ => [("url", VStr (feed_link "CD000003")); ("date", VStr ""); ("tags", VList [])]
  end.

(** A page without the known regions: a heading, a paragraph, a
    sub-heading with its paragraph, then the next section. *)
Definition h2_summary : Dom.node := Dom.Elem "h2" [] [Dom.Text "Plain Language Summary"].
Definition par_a : Dom.node :=
  Dom.Elem "p" [] [Dom.Text " A "; Dom.Special "" "note"; Dom.Elem "b" [] [Dom.Text "a"]].
Definition par_b : Dom.node := Dom.Elem "p" [] [Dom.Text "B"].




(** A page with a script between the summary heading and its paragraph,
    and a page whose only region is a script of id pls. *)
Definition script_node : Dom.node :=
  Dom.Elem "script" [("id", "pls")] [Dom.Special "script" "var x = 1;"].

Definition script_sibling_page : list Dom.node :=
  [h2_summary; Dom.Elem "script" [] [Dom.Special "script" "var x = 1;"]; par_b].

(** The review that discovery builds from a feed entry. *)
Definition review (cd title : string) : UpdateCochrane.review :=
  {| UpdateCochrane.cd_number := cd;
     UpdateCochrane.url := feed_link cd;
     UpdateCochrane.title := title |}.

(** The state of a run on the given file right after the feed was read. *)
Definition after_feed (content : option string) : st unit :=
  {| world := tt; trace := [EvFeed UpdateCochrane.RSS_URL]; store := content |}.

(** The value of a computation that did not raise. *)
Definition ok_or {A} (d : A) (r : result A) : A :=
  match r with
  | Ok a => a
  | Raise _ => d
  end.

(** The start of a run on a store with the given content. *)
Definition start (content : option string) : st unit :=
  {| world := tt; trace := []; store := content |}.

End Demo.

(** ** Notions for the further properties *)

Module Shape.
Import Py UpdateCochrane.

(** A computation that raises nothing outside [P]. *)
Definition raises_only {W A} (P : exn → Prop) (m : M W A) : Prop :=
  ∀ s e s', m s = (Raise e, s') → P e.

(** A request that did not answer 200: it raised, or the status is
    another one. *)
Definition not_200 (r : option response) : Prop :=
  match r with
  | Some resp => status_code resp ≠ 200%Z
  | None => True
  end.

(** The reviews that [fetch_rss_reviews] makes of what the feed parser
    returned. *)
Definition feed_reviews (feed : option (list (option string * option string)))
  : list review :=
  match feed with
  | Some entries => omap review_of_entry entries
  | None => []
  end.

(** The state behind one more event and the answer of the world. *)
Definition after {W} (s : st W) (w : W) (evs : list event) : st W :=
  {| world := w; trace := (trace s ++ evs)%list; store := store s |}.

(** The calls of the model that one turn of the loop of [main] can make:
    none, the summarize call, or the summarize call and then the
    enrichment call. *)
Definition model_calls (evs : list event) : Prop :=
  evs = []
  ∨ (∃ p, evs = [EvModel p 500])
  ∨ (∃ p q, evs = [EvModel p 500; EvModel q 100]).

(** The page requests of [fetch_plain_language_summary] for a review: the
    addresses to try, in their order, up to one of them. *)
Definition urls_to_try (r : review) : list string :=
  ((if Str.truthy (cd_number r) then ["https://www.cochrane.org/" +:+ cd_number r] else [])
   ++ [url r])%list.

Definition page_requests (r : review) (evs : list event) : Prop :=
  ∃ k, (0 < k ≤ length (urls_to_try r))%nat ∧ evs = map EvGet (take k (urls_to_try r)).

(** A summary that [append_to_summaries] can format: the url of its
    review, string question, answer and notes, an interest and tags. *)
Definition record_of (r : review) (d : dict) : Prop :=
  dict_get d "url" = Some (VStr (url r))
  ∧ (∃ q, dict_get d "question" = Some (VStr q))
  ∧ (∃ a, dict_get d "answer" = Some (VStr a))
  ∧ (∃ n, dict_get d "notes" = Some (VStr n))
  ∧ is_Some (dict_get d "interest")
  ∧ is_Some (dict_get d "tags").

(** The requests and sleeps of one [get_date_for_entry]: at most one
    CrossRef request, a sleep behind it when it gave nothing, then at most
    one Cochrane page request behind its sleep; no page request behind a
    CrossRef request that gave a date. *)
Definition crossref_part (evs : list event) : Prop :=
  evs = []
  ∨ (∃ doi, evs = [EvGet (AddDates.crossref_url doi)])
  ∨ (∃ doi, evs = [EvGet (AddDates.crossref_url doi); EvSleep CROSSREF_DELAY]).

Definition page_part (evs : list event) : Prop :=
  evs = []
  ∨ (∃ ds, ds ≠ "" ∧ Re.all Str.is_digit ds = true
           ∧ evs = [EvSleep COCHRANE_DELAY; EvGet (AddDates.cochrane_url ("CD" +:+ ds))]).

(** A date of the form [dddd-dd-dd]. *)
Definition iso_shaped (d : string) : Prop :=
  ∃ y m dd,
    d = y +:+ "-" +:+ m +:+ "-" +:+ dd
    ∧ String.length y = 4%nat ∧ String.length m = 2%nat ∧ String.length dd = 2%nat
    ∧ Re.all Str.is_digit y = true ∧ Re.all Str.is_digit m = true
    ∧ Re.all Str.is_digit dd = true.

(** The exceptions that the loop of [main] lets through: the ones of the
    subscripts and replacements of [enrich_summary] and of a [get] on
    something that is no dict. *)
Definition loop_error (e : exn) : Prop :=
  e = KeyError ∨ e = TypeError ∨ e = AttributeError.

(** The two lines [main] prints for the urls of the processed summaries. *)
Definition report (urls : list string) : list string :=
  ["::set-output name=count::" +:+ Str.of_Z (Z.of_nat (length urls));
   "::set-output name=reviews::" +:+ Str.join "," urls].

Definition url_of (d : dict) : string :=
  match dict_get d "url" with
  | Some (VStr u) => u
  | _ => ""
  end.

(** The state behind an append of [entries] to a file of content [c]. *)
Definition appended {W} (s : st W) (c : string) (entries : list string) : st W :=
  {| world := world s; trace := trace s;
     store := Some (c +:+ appended_text entries) |}.

(** What discovery asks of the outside. *)
Definition discovery_events (evs : list event) : Prop :=
  evs = [EvFeed RSS_URL] ∨ evs = [EvFeed RSS_URL; EvGet NEWS_URL].

(** A summary as [enrich_summary] needs it: strings under question,
    answer and notes. *)
Definition has_texts (sm : dict) : Prop :=
  ∃ q a n,
    dict_get sm "question" = Some (VStr q) ∧ dict_get sm "answer" = Some (VStr a)
    ∧ dict_get sm "notes" = Some (VStr n).

(** What holds of the counters of [main] of [add_dates.py] at every
    moment of a run: they count the futures consumed, each once, all of
    them submitted. *)
Definition count_inv (subm : list nat) (p : AddDates.pool) : Prop :=
  (AddDates.updated p + AddDates.failed p = length (AddDates.consumed p))%nat
  ∧ NoDup (AddDates.consumed p)
  ∧ (∀ i, i ∈ AddDates.consumed p → i ∈ subm)
  ∧ (∀ i, is_Some (AddDates.finished p !! i) → i ∈ subm ∧ i ∉ AddDates.consumed p).

(** A dict without a date whose url is no string. *)
Definition bad_url (h : AddDates.heap) (l : AddDates.loc) : Prop :=
  AddDates.lacks_date (h l) = true
  ∧ ∀ u, dict_get_default (h l) "url" (VStr "") ≠ VStr u.

(** What holds of the pool with regard to such dicts: they stay as they
    were read, the future of a position that refers to one holds a
    [TypeError] and no other future holds an exception, and no future of
    such a position has been consumed. *)
Definition crash_inv (summaries : list AddDates.loc) (h : AddDates.heap)
    (p : AddDates.pool) : Prop :=
  AddDates.frame_inv summaries h p
  ∧ (∀ l, bad_url h l → AddDates.objects p l = h l)
  ∧ (∀ i r, AddDates.finished p !! i = Some r →
       ∃ l, summaries !! i = Some l
            ∧ match r with
              | Ok _ => ¬ bad_url h l
              | Raise e => e = TypeError ∧ bad_url h l
              end)
  ∧ (∀ i l, i ∈ AddDates.consumed p → summaries !! i = Some l → ¬ bad_url h l).

(** A text that starts with the letters c and d in either case and a
    digit: where the pattern of [extract_cd_number] has a match. *)
Definition cd_start (s : string) : Prop :=
  ∃ c d x rest,
    s = String c (String d (String x rest))
    ∧ (c = "C"%char ∨ c = "c"%char) ∧ (d = "D"%char ∨ d = "d"%char)
    ∧ (48 ≤ N_of_ascii x ≤ 57)%N.

End Shape.

(** ** A news page, for running the fallback of discovery *)

Module DemoNews.
Import Py.

Definition link (href text : string) : Dom.node :=
  Dom.Elem "a" [("href", href)] [Dom.Text text].

(** Two links to one review, the first relative, a link without a CD
    number, and a link to a second review. *)
Definition news_page : list Dom.node :=
  [Dom.Elem "div" []
     [link "/CD000001/first" " First "; link "/about" "About";
      link "https://www.cochrane.org/CD000001" "First again";
      Dom.Elem "a" [] [Dom.Text "no href CD000009"];
      link "https://www.cochranelibrary.com/CD000002" "Second"]].

Definition requests_get (url : string) (w : unit) : option response * unit :=
  if String.eqb url UpdateCochrane.NEWS_URL then
    (Some {| status_code := 200; text := "news" |}, w)
  else Demo.requests_get url w.

Definition html_parse (t : string) : list Dom.node :=
  if String.eqb t "news" then news_page else Demo.html_parse t.

(** An outside world whose feed has the given entries ([None]: the feed
    parser raises) and whose news page is [news_page]. *)
Definition env (feed : option (list (option string * option string))) : Env unit :=
  {| Py.requests_get := requests_get;
     Py.feedparser_parse := fun _ w => (feed, w);
     Py.messages_create := Demo.messages_create;
     Py.json_loads := Demo.json_loads;
     Py.json_dumps := Demo.json_dumps;
     Py.py_repr := fun _ => "?";
     Py.yaml_ok := fun _ => true;
     Py.html_parse := html_parse;
     Py.summarize_prompt := "Summarise: {plain_language_summary}";
     Py.enrichment_prompt := "Rate: {question} / {answer} / {notes}" |}.

End DemoNews.

(** ** A model whose summaries lack the notes *)

Module DemoPartial.
Import Py.

Definition json_loads (t : string) : option value :=
  if String.eqb t "{summary}" then
    Some (VDict [("question", VStr "Does it help?"); ("answer", VStr "Yes.")])
  else Demo.json_loads t.

Definition env : Env unit :=
  {| Py.requests_get := Demo.requests_get;
     Py.feedparser_parse := fun _ w => (Some Demo.feed2, w);
     Py.messages_create := Demo.messages_create;
     Py.json_loads := json_loads;
     Py.json_dumps := Demo.json_dumps;
     Py.py_repr := fun _ => "?";
     Py.yaml_ok := fun _ => true;
     Py.html_parse := Demo.html_parse;
     Py.summarize_prompt := "Summarise: {plain_language_summary}";
     Py.enrichment_prompt := "Rate: {question} / {answer} / {notes}" |}.

End DemoPartial.

(** ** Records of which one has a null url *)

Module DemoBad.
Import Py.

Definition records (l : nat) : dict :=
  match l with
  | 0%nat => [("question", VStr "a"); ("url", VNone)]
  | _ => Demo.three_records l
  end.

End DemoBad.

(** ** A CrossRef answer whose first date field has a null year *)

Module DemoNull.
Import Py.

Definition requests_get (url : string) (w : unit) : option response * unit :=
  if Str.startswith "https://api.crossref.org/" url then
    (Some {| status_code := 200; text := "null-year" |}, w)
  else Demo.requests_get url w.

Definition json_loads (t : string) : option value :=
  if String.eqb t "null-year" then
    Some (VDict [("message",
                  VDict [("published", VDict [("date-parts", VList [VList [VNone]])]);
                         ("issued",
                          VDict [("date-parts", VList [VList [VInt 2020; VInt 1; VInt 2]])])])])
  else None.

Definition env : Env unit :=
  {| Py.requests_get := requests_get;
     Py.feedparser_parse := fun _ w => (None, w);
     Py.messages_create := fun _ _ w => (None, w);
     Py.json_loads := json_loads;
     Py.json_dumps := Demo.json_dumps;
     Py.py_repr := fun _ => "?";
     Py.yaml_ok := fun _ => true;
     Py.html_parse := fun _ => [];
     Py.summarize_prompt := "";
     Py.enrichment_prompt := "" |}.

End DemoNull.

(** * Properties *)

#[local] Arguments String.append !_ _ / : simpl nomatch.

(** ** The string functions on examples *)

Example replace_ex :
  Str.replace "{x}" "ab" "1{x}2{x}{x" = "1ab2ab{x".
Proof. reflexivity. Qed.

Example strip_ex : Str.strip (Str.NL +:+ "- a b  " +:+ Str.NL) = "- a b".
Proof. reflexivity. Qed.

Example pad2_ex : map Str.pad2 [0; 7; 12; 123; -3]%Z = ["00"; "07"; "12"; "123"; "-3"].
Proof. reflexivity. Qed.

Example of_Z_ex : map Str.of_Z [0; 2021; -5]%Z = ["0"; "2021"; "-5"].
Proof. reflexivity. Qed.

Example findall_ex :
  Re.findall Re.match_cd "url: x/CD0123.pub2 CD CD9CD77x" = ["CD0123"; "CD9"; "CD77"].
Proof. reflexivity. Qed.

Example doi_ex :
  Re.search Re.match_cochrane_doi "https://x/doi/10.1002/14651858.CD001234.pub3/full"
  = Some "10.1002/14651858.CD001234.pub3"
  /\ Re.search Re.match_generic_doi "https://x/doi/10.1111/abc.12/full" = Some "10.1111/abc.12"
  /\ Re.search Re.match_cd_nocase "https://x/cd004/y" = Some "cd004".
Proof. repeat split; reflexivity. Qed.

Example date_ex :
  Re.search Re.match_date_published
    ("{" +:+ Re.date_key +:+ " : " +:+ Str.DQ +:+ "2021-03-04T10:00" +:+ Str.DQ +:+ "}")
  = Some "2021-03-04T10:00"
  /\ Re.match_iso_date "2021-03-04T10:00" = Some "2021-03-04"
  /\ Re.match_iso_date "2021-3-04" = None.
Proof. repeat split; reflexivity. Qed.

Example brace_ex :
  Re.search Re.match_brace "a {b {c: 1} d} {e}" = Some "{c: 1}".
Proof. reflexivity. Qed.

(** ** Facts on the scanning functions *)

Module ReFacts.
Import Str Re.

Lemma search_some (m : string → option string) (s x : string) :
  search m s = Some x → ∃ pre suf, s = pre +:+ suf ∧ m suf = Some x.
Proof.
  induction s as [|c s IH]; simpl.
  - destruct (m "") eqn:Hm; [|discriminate].
    intros [= ->]. exists "", "". split; [reflexivity | exact Hm].
  - destruct (m (String c s)) eqn:Hm.
    + intros [= ->]. exists "", (String c s). split; [reflexivity | exact Hm].
    + intros H. destruct (IH H) as (pre & suf & -> & Hs).
      exists (String c pre), suf. split; [reflexivity | exact Hs].
Qed.

Lemma match_cd_nocase_truthy (s m : string) :
  match_cd_nocase s = Some m → Str.truthy (upper m) = true.
Proof.
  unfold match_cd_nocase.
  destruct s as [|c [|d r]]; try discriminate.
  match goal with |- (if ?c then _ else _) = _ → _ => destruct c end;
    [|discriminate].
  destruct (span is_digit r); [discriminate|].
  intros [= <-]. reflexivity.
Qed.

Lemma match_iso_date_truthy (s d : string) :
  match_iso_date s = Some d → Str.truthy d = true.
Proof.
  unfold match_iso_date. set (y := take 4 s).
  match goal with |- (if ?c then _ else _) = _ → _ => destruct c end;
    [|discriminate].
  intros [= <-]. destruct y; reflexivity.
Qed.

Lemma span_drop (f : ascii → bool) (s : string) :
  s = span f s +:+ drop (String.length (span f s)) s.
Proof.
  induction s as [|c s IH]; simpl; [reflexivity|].
  destruct (f c); simpl; [f_equal; exact IH | reflexivity].
Qed.

Lemma span_all (f : ascii → bool) (s : string) : all f (span f s) = true.
Proof.
  induction s as [|c s IH]; simpl; [reflexivity|].
  destruct (f c) eqn:Hc; simpl; [rewrite Hc; exact IH | reflexivity].
Qed.

Lemma append_assoc (a b c : string) : (a +:+ b) +:+ c = a +:+ (b +:+ c).
Proof. induction a as [|x a IH]; simpl; [reflexivity | f_equal; exact IH]. Qed.

Lemma append_length (a b : string) :
  String.length (a +:+ b) = (String.length a + String.length b)%nat.
Proof. induction a as [|x a IH]; simpl; [reflexivity | f_equal; exact IH]. Qed.

Lemma append_nil_r (a : string) : a +:+ "" = a.
Proof. induction a as [|x a IH]; simpl; [reflexivity | f_equal; exact IH]. Qed.


(** [re.search] returns the match at the first position that has one. *)
Lemma search_leftmost (m : string → option string) (s x : string) :
  search m s = Some x →
  ∃ pre suf, s = pre +:+ suf ∧ m suf = Some x
             ∧ ∀ p1 p2, pre = p1 +:+ p2 → p2 ≠ "" → m (p2 +:+ suf) = None.
Proof.
  induction s as [|c s IH]; simpl.
  - destruct (m "") eqn:Hm; [|discriminate].
    intros [= ->]. exists "", "". split; [reflexivity|]. split; [exact Hm|].
    intros p1 p2 Heq Hne. destruct p1, p2; simpl in Heq; congruence.
  - destruct (m (String c s)) eqn:Hm.
    + intros [= ->]. exists "", (String c s). split; [reflexivity|]. split; [exact Hm|].
      intros p1 p2 Heq Hne. destruct p1, p2; simpl in Heq; congruence.
    + intros H. destruct (IH H) as (pre & suf & -> & Hs & Hleft).
      exists (String c pre), suf. split; [reflexivity|]. split; [exact Hs|].
      intros [|c1 p1] p2 Heq Hne; simpl in Heq.
      * subst p2. simpl. exact Hm.
      * injection Heq as -> ->. apply (Hleft p1 p2); auto.
Qed.





(** *** Where [CD\d+] is found *)

Lemma span_app_stop (f : ascii → bool) (p q : string) (c : ascii) :
  f c = false → span f (p +:+ String c q) = span f p.
Proof.
  intros Hc. induction p as [|x p IH]; simpl.
  - rewrite Hc. reflexivity.
  - destruct (f x); [f_equal; exact IH | reflexivity].
Qed.

Lemma span_length (f : ascii → bool) (s : string) :
  (String.length (span f s) ≤ String.length s)%nat.
Proof.
  induction s as [|c s IH]; simpl; [lia|]. destruct (f c); simpl; lia.
Qed.

(** The run that [span] returns cannot be extended. *)
Lemma span_maximal (f : ascii → bool) (s : string) :
  match drop (String.length (span f s)) s with
  | String c _ => f c = false
  | "" => True
  end.
Proof.
  induction s as [|c s IH]; simpl; [exact I|].
  destruct (f c) eqn:Hc; simpl; [exact IH | exact Hc].
Qed.

Lemma span_whole (f : ascii → bool) (ds rest : string) :
  all f ds = true →
  match rest with String c _ => f c = false | "" => True end →
  span f (ds +:+ rest) = ds.
Proof.
  intros Hall Hrest. induction ds as [|d ds IH]; simpl.
  - destruct rest as [|c r]; simpl; [reflexivity | rewrite Hrest; reflexivity].
  - simpl in Hall. apply andb_prop in Hall as [Hd Hall]. rewrite Hd.
    f_equal. apply IH. exact Hall.
Qed.

(** The text that [CD\d+] matches at the start of a string: CD, then
    the whole run of digits that follows. *)
Lemma match_cd_form (s m : string) :
  match_cd s = Some m →
  ∃ ds rest, s = "CD" +:+ ds +:+ rest ∧ m = "CD" +:+ ds ∧ ds ≠ ""
             ∧ all is_digit ds = true ∧ no_digit_ahead rest.
Proof.
  unfold match_cd. destruct s as [|c [|d r]]; try discriminate.
  destruct (Ascii.eqb_spec c "C") as [->|]; [|discriminate].
  destruct (Ascii.eqb_spec d "D") as [->|]; [|discriminate]. simpl.
  destruct (span is_digit r) as [|x ds] eqn:Hspan; [discriminate|].
  intros [= <-]. exists (String x ds), (drop (String.length (String x ds)) r).
  split; [|split; [reflexivity|split; [discriminate|split]]].
  - rewrite <- Hspan.
    change (String "C" (String "D" r)
            = String "C" (String "D" (span is_digit r
                                      +:+ drop (String.length (span is_digit r)) r))).
    do 2 f_equal. apply span_drop.
  - rewrite <- Hspan. apply span_all.
  - rewrite <- Hspan. apply span_maximal.
Qed.

Lemma match_cd_here (ds rest : string) :
  ds ≠ "" → all is_digit ds = true → no_digit_ahead rest →
  match_cd ("CD" +:+ ds +:+ rest) = Some ("CD" +:+ ds).
Proof.
  intros Hne Hall Hrest. simpl. rewrite (span_whole _ _ _ Hall Hrest).
  destruct ds; [congruence | reflexivity].
Qed.

(** A match that starts before an occurrence of CD ends before it. *)
Lemma match_cd_before (c : ascii) (p tail x : string) :
  match_cd (String c p +:+ "CD" +:+ tail) = Some x →
  (String.length x - 1 ≤ String.length p)%nat.
Proof.
  simpl. destruct p as [|d p]; simpl.
  - destruct (Ascii.eqb c "C"); discriminate.
  - destruct (Ascii.eqb c "C" && Ascii.eqb d "D"); [|discriminate].
    change (p +:+ String "C" (String "D" tail)) with (p +:+ String "C" ("D" +:+ tail)).
    rewrite span_app_stop by reflexivity.
    pose proof (span_length is_digit p).
    destruct (span is_digit p) eqn:Hs; [discriminate|].
    intros [= <-]. simpl in *. lia.
Qed.

Lemma findall_from_occurrence (pre ds post : string) (k : nat) :
  ds ≠ "" → all is_digit ds = true → no_digit_ahead post →
  (k ≤ String.length pre)%nat →
  "CD" +:+ ds ∈ findall_from match_cd k (pre +:+ "CD" +:+ ds +:+ post).
Proof.
  intros Hne Hall Hpost. revert k.
  induction pre as [|c pre IH]; intros k Hk.
  - assert (k = 0%nat) as -> by (simpl in Hk; lia).
    change ("" +:+ "CD" +:+ ds +:+ post) with (String "C" (String "D" (ds +:+ post))).
    cbn [findall_from].
    change (String "C" (String "D" (ds +:+ post))) with ("CD" +:+ ds +:+ post).
    rewrite (match_cd_here _ _ Hne Hall Hpost). apply elem_of_cons. auto.
  - change (String c pre +:+ "CD" +:+ ds +:+ post)
      with (String c (pre +:+ "CD" +:+ ds +:+ post)).
    cbn [findall_from]. destruct k as [|k].
    + change (String c (pre +:+ "CD" +:+ ds +:+ post))
        with (String c pre +:+ "CD" +:+ ds +:+ post).
      destruct (match_cd (String c pre +:+ "CD" +:+ ds +:+ post)) as [x|] eqn:Hx.
      * apply elem_of_cons. right. apply IH. eapply match_cd_before. exact Hx.
      * apply IH. lia.
    + apply IH. simpl in Hk. lia.
Qed.

(** A CD number followed by something other than a digit is among the
    matches of [findall]. *)
Lemma findall_occurrence (pre ds post : string) :
  ds ≠ "" → all is_digit ds = true → no_digit_ahead post →
  "CD" +:+ ds ∈ findall match_cd (pre +:+ "CD" +:+ ds +:+ post).
Proof.
  intros. apply findall_from_occurrence; auto. lia.
Qed.

Lemma match_cd_app_stop (c x : ascii) (a b : string) :
  is_digit x = false → Ascii.eqb x "D" = false →
  match_cd (String c a +:+ String x b) = match_cd (String c a).
Proof.
  intros Hd HD. simpl. destruct a as [|d r]; simpl.
  - rewrite HD, andb_false_r. reflexivity.
  - rewrite span_app_stop by exact Hd. reflexivity.
Qed.

(** Text appended behind a line break leaves the earlier matches. *)
Lemma findall_from_app (a b : string) (x : ascii) (k : nat) (m : string) :
  is_digit x = false → Ascii.eqb x "D" = false →
  m ∈ findall_from match_cd k a →
  m ∈ findall_from match_cd k (a +:+ String x b).
Proof.
  intros Hd HD. revert k. induction a as [|c a IH]; intros k.
  - simpl. intros []%elem_of_nil.
  - change (String c a +:+ String x b) with (String c (a +:+ String x b)).
    cbn [findall_from]. destruct k as [|k]; [|apply IH].
    change (String c (a +:+ String x b)) with (String c a +:+ String x b).
    rewrite (match_cd_app_stop _ _ _ _ Hd HD).
    destruct (match_cd (String c a)) as [y|]; [|apply IH].
    rewrite !elem_of_cons. intros [->|Hin]; [auto | right; apply IH; exact Hin].
Qed.

(** *** [strip] and [join] *)

Lemma rstrip_cons (c : ascii) (r : string) :
  rstrip r ≠ "" → rstrip (String c r) = String c (rstrip r).
Proof. simpl. destruct (rstrip r); [congruence | reflexivity]. Qed.

Lemma rstrip_app (a b : string) :
  rstrip b ≠ "" → rstrip (a +:+ b) = a +:+ rstrip b.
Proof.
  intros Hb. induction a as [|c a IH]; simpl; [reflexivity|].
  rewrite IH. destruct (a +:+ rstrip b) eqn:Hab; [|reflexivity].
  destruct a; simpl in Hab; congruence.
Qed.

Lemma rstrip_nonspace (c : ascii) (r : string) :
  is_space c = false → rstrip (String c r) ≠ "".
Proof. intros Hc. simpl. destruct (rstrip r); [rewrite Hc|]; discriminate. Qed.

Lemma on_a_line_wrap (u s a b : string) :
  on_a_line u s → on_a_line u (a +:+ s +:+ b).
Proof.
  intros (pre & post & ->). exists (a +:+ pre), (post +:+ b).
  rewrite !append_assoc. reflexivity.
Qed.

Lemma on_a_line_after (u s a : string) :
  on_a_line u s → on_a_line u (a +:+ s).
Proof.
  intros (pre & post & ->). exists (a +:+ pre), post.
  rewrite !append_assoc. reflexivity.
Qed.

Lemma on_a_line_join (u sep x : string) (l : list string) :
  x ∈ l → on_a_line u x → on_a_line u (join sep l).
Proof.
  intros Hin Hx. induction l as [|y l IH]; [inversion Hin|].
  apply elem_of_cons in Hin as [<-|Hin].
  - destruct l as [|z l]; [exact Hx|]. cbn [join].
    apply (on_a_line_wrap u x "" (sep +:+ join sep (z :: l))). exact Hx.
  - destruct l as [|z l]; [inversion Hin|]. cbn [join].
    specialize (IH Hin). apply (on_a_line_wrap u _ (y +:+ sep) "") in IH.
    rewrite append_nil_r, append_assoc in IH. exact IH.
Qed.

(** The CD number that [re.search] finds in a url is among the matches of
    [findall] on any text that holds the url on a line. *)
Lemma findall_url (u cd content : string) :
  search match_cd u = Some cd →
  on_a_line u content →
  cd ∈ findall match_cd content.
Proof.
  intros Hs (pre & post & ->).
  destruct (search_some _ _ _ Hs) as (u1 & suf & -> & Hm).
  destruct (match_cd_form _ _ Hm) as (ds & rest & -> & -> & Hne & Hall & Hrest).
  replace (pre +:+ (u1 +:+ "CD" +:+ ds +:+ rest) +:+ NL +:+ post)
    with ((pre +:+ u1) +:+ "CD" +:+ ds +:+ (rest +:+ NL +:+ post)).
  - apply findall_occurrence; auto.
    destruct rest as [|c r]; [reflexivity | exact Hrest].
  - rewrite !append_assoc. reflexivity.
Qed.

End ReFacts.

(** ** Facts on dicts and on the monad *)

Module PyFacts.
Import Py.

Lemma dict_set_twice (e : dict) (k : string) (v1 v2 : value) :
  dict_set (dict_set e k v1) k v2 = dict_set e k v2.
Proof.
  induction e as [|[k' v'] e IH]; simpl.
  - rewrite String.eqb_refl. reflexivity.
  - destruct (String.eqb k' k) eqn:Hk; simpl; rewrite Hk; [reflexivity|].
    rewrite IH. reflexivity.
Qed.

Lemma dict_get_set_eq (e : dict) (k : string) (v : value) :
  dict_get (dict_set e k v) k = Some v.
Proof.
  induction e as [|[k' v'] e IH]; simpl.
  - rewrite String.eqb_refl. reflexivity.
  - destruct (String.eqb k' k) eqn:Hk; simpl; rewrite Hk; [reflexivity | exact IH].
Qed.

Lemma dict_get_set_ne (e : dict) (k k' : string) (v : value) :
  k' ≠ k → dict_get (dict_set e k v) k' = dict_get e k'.
Proof.
  intros Hne. induction e as [|[k0 v0] e IH]; simpl.
  - destruct (String.eqb_spec k k'); [congruence | reflexivity].
  - destruct (String.eqb_spec k0 k) as [->|Hk0]; simpl.
    + destruct (String.eqb_spec k k'); [congruence | reflexivity].
    + destruct (String.eqb_spec k0 k'); [reflexivity | exact IH].
Qed.

(** Setting one key leaves the other items of the dict as they were, in
    their order. *)
Lemma dict_set_others (e : list (string * value)) (k : string) (v : value) :
  filter (λ kv, kv.1 ≠ k) (dict_set e k v : list (string * value))
  = filter (λ kv, kv.1 ≠ k) e.
Proof.
  induction e as [|[k0 v0] e IH]; cbn [dict_set].
  - rewrite filter_cons_False by (simpl; tauto). reflexivity.
  - destruct (String.eqb_spec k0 k) as [->|Hk0].
    + rewrite !filter_cons_False by (simpl; tauto). reflexivity.
    + rewrite !filter_cons_True by (simpl; tauto). rewrite IH. reflexivity.
Qed.

Lemma dict_set_length (e : dict) (k : string) (v : value) :
  (length e ≤ length (dict_set e k v))%nat.
Proof.
  induction e as [|[k0 v0] e IH]; simpl; [lia|].
  destruct (String.eqb k0 k); simpl; lia.
Qed.

(** *** How the combinators treat the store and the trace *)

Section Monad.
Context {W : Type}.

Lemma keeps_ret {A} (a : A) : keeps_store (ret a : M W A).
Proof. intros s. reflexivity. Qed.

Lemma keeps_raise {A} (e : exn) : keeps_store (raise e : M W A).
Proof. intros s. reflexivity. Qed.

Lemma keeps_lift {A} (r : result A) : keeps_store (lift r : M W A).
Proof. intros s. reflexivity. Qed.

Lemma keeps_call {A} (ev : event) (f : W → A * W) : keeps_store (call ev f).
Proof. intros s. unfold call. destruct (f (world s)). reflexivity. Qed.

Lemma keeps_emit (ev : event) : keeps_store (emit ev : M W unit).
Proof. intros s. reflexivity. Qed.

Lemma keeps_bind {A B} (m : M W A) (k : A → M W B) :
  keeps_store m → (∀ a, keeps_store (k a)) → keeps_store (bind m k).
Proof.
  intros Hm Hk s. unfold bind. specialize (Hm s).
  destruct (m s) as [[a|e] s1]; simpl in *; [|exact Hm].
  rewrite (Hk a s1). exact Hm.
Qed.

Lemma emits_ret {A} (P : event → Prop) (a : A) : emits_only P (ret a : M W A).
Proof. intros s. exists []. split; [symmetry; apply app_nil_r | constructor]. Qed.

Lemma emits_lift {A} (P : event → Prop) (r : result A) : emits_only P (lift r : M W A).
Proof. intros s. exists []. split; [symmetry; apply app_nil_r | constructor]. Qed.

Lemma emits_call {A} (P : event → Prop) (ev : event) (f : W → A * W) :
  P ev → emits_only P (call ev f).
Proof.
  intros Hev s. unfold call. destruct (f (world s)). exists [ev].
  split; [reflexivity | repeat constructor; exact Hev].
Qed.

Lemma emits_bind {A B} (P : event → Prop) (m : M W A) (k : A → M W B) :
  emits_only P m → (∀ a, emits_only P (k a)) → emits_only P (bind m k).
Proof.
  intros Hm Hk s. unfold bind. destruct (Hm s) as (e1 & H1 & HP1).
  destruct (m s) as [[a|e] s1]; simpl in *; [|eauto].
  destruct (Hk a s1) as (e2 & H2 & HP2). exists (e1 ++ e2)%list. split.
  - rewrite H2, H1. symmetry. apply app_assoc.
  - apply Forall_app. auto.
Qed.

Lemma emits_weaken {A} (P Q : event → Prop) (m : M W A) :
  (∀ ev, P ev → Q ev) → emits_only P m → emits_only Q m.
Proof.
  intros HPQ Hm s. destruct (Hm s) as (evs & Heq & HP).
  exists evs. split; [exact Heq|]. eapply Forall_impl; eauto.
Qed.

End Monad.

End PyFacts.

(** ** Date resolution ([add_dates.py]) *)

Module AddDatesFacts.
Import Py AddDates.

Section Facts.
Context {W : Type} (E : Env W).

Lemma field_date_passed_over (msg : dict) (g : string) :
  passed_over msg g → field_date E (VDict msg) g = Ok None.
Proof.
  intros [Habs | (fv & rest & Hfv & Hdp)]; unfold field_date; simpl.
  - rewrite Habs. rewrite bool_decide_eq_false_2; [reflexivity|].
    intros [x Hx]; discriminate.
  - rewrite Hfv. rewrite bool_decide_eq_true_2 by eauto.
    simpl. rewrite Hdp. reflexivity.
Qed.

Lemma first_date_skip (msg : dict) (pre l : list string) :
  Forall (passed_over msg) pre →
  first_date E (VDict msg) (pre ++ l) = first_date E (VDict msg) l.
Proof.
  induction 1 as [|g pre Hg _ IH]; [reflexivity|].
  simpl. rewrite (field_date_passed_over _ _ Hg). simpl. exact IH.
Qed.

Lemma field_date_chosen (msg fv : dict) (f : string) (parts rest : list value) :
  dict_get msg f = Some (VDict fv) →
  dict_get fv "date-parts" = Some (VList (VList parts :: rest)) →
  field_date E (VDict msg) f = format_date_parts E (VList parts).
Proof.
  intros Hf Hdp. unfold field_date; simpl.
  rewrite Hf. rewrite bool_decide_eq_true_2 by eauto. simpl.
  unfold dict_get_default. rewrite Hdp. reflexivity.
Qed.

(** The value of [get_date_from_crossref] when the request answers 200 with
    a body whose message has a chosen field. *)
Lemma crossref_chosen (doi : string) (s : st W) (resp : response) (w' : W)
    (data msg fv : dict) (pre post : list string) (f : string)
    (parts rest : list value) (d : string) :
  requests_get E (crossref_url doi) (world s) = (Some resp, w') →
  status_code resp = 200%Z →
  json_loads E (text resp) = Some (VDict data) →
  dict_get data "message" = Some (VDict msg) →
  date_fields = (pre ++ f :: post)%list →
  Forall (passed_over msg) pre →
  dict_get msg f = Some (VDict fv) →
  dict_get fv "date-parts" = Some (VList (VList parts :: rest)) →
  format_date_parts E (VList parts) = Ok (Some d) →
  fst (get_date_from_crossref E doi s) = Ok (Some d).
Proof.
  intros Hget Hst Hjson Hmsg Hfields Hpre Hf Hdp Hfmt.
  unfold get_date_from_crossref, bind, call, ret. rewrite Hget. simpl.
  rewrite Hst. unfold crossref_date. rewrite Hjson.
  unfold py_get, dict_get_default. rewrite Hmsg.
  unfold rbind at 1. rewrite Hfields, (first_date_skip _ _ _ Hpre).
  cbn [first_date]. rewrite (field_date_chosen _ _ _ _ _ Hf Hdp), Hfmt.
  reflexivity.
Qed.

(** The part of C4 that holds.  When the chosen date field of a 200
    CrossRef response carries integer date-parts, [get_date_from_crossref] returns [YYYY-01-01] for a
    year alone, [YYYY-MM-01] with the month padded to two digits for a year
    and a month, and [YYYY-MM-DD] with month and day padded for three or
    more parts. *)
Lemma crossref_date_granularity (doi : string) (s : st W) (resp : response) (w' : W)
    (data msg fv : dict) (pre post : list string) (f : string)
    (parts rest : list value) :
  requests_get E (crossref_url doi) (world s) = (Some resp, w') →
  status_code resp = 200%Z →
  json_loads E (text resp) = Some (VDict data) →
  dict_get data "message" = Some (VDict msg) →
  date_fields = (pre ++ f :: post)%list →
  Forall (passed_over msg) pre →
  dict_get msg f = Some (VDict fv) →
  dict_get fv "date-parts" = Some (VList (VList parts :: rest)) →
  ∀ (y m d : Z) (more : list value),
    (parts = [VInt y] →
     fst (get_date_from_crossref E doi s) = Ok (Some (Str.of_Z y +:+ "-01-01")))
    ∧ (parts = [VInt y; VInt m] →
       fst (get_date_from_crossref E doi s)
       = Ok (Some (Str.of_Z y +:+ "-" +:+ Str.pad2 m +:+ "-01")))
    ∧ (parts = VInt y :: VInt m :: VInt d :: more →
       fst (get_date_from_crossref E doi s)
       = Ok (Some (Str.of_Z y +:+ "-" +:+ Str.pad2 m +:+ "-" +:+ Str.pad2 d))).
Proof.
  intros Hget Hst Hjson Hmsg Hfields Hpre Hf Hdp y m d more.
  repeat split; intros ->;
    eapply crossref_chosen; eauto; reflexivity.
Qed.

(** The padding and the year, digit by digit. *)
Lemma pad2_two_digits (n : Z) : (0 ≤ n < 100)%Z → Str.pad2 n = two_digits n.
Proof.
  intros Hn.
  assert (Hall : forallb (λ k, String.eqb (Str.pad2 (Z.of_nat k)) (two_digits (Z.of_nat k)))
                   (seq 0 100) = true) by (vm_compute; reflexivity).
  rewrite forallb_forall in Hall. specialize (Hall (Z.to_nat n)).
  rewrite Z2Nat.id in Hall by lia. apply String.eqb_eq, Hall, in_seq. lia.
Qed.

Lemma of_Z_four_digits (n : Z) : (1000 ≤ n < 10000)%Z → Str.of_Z n = four_digits n.
Proof.
  intros Hn.
  assert (Hall : forallb (λ k, String.eqb (Str.of_Z (Z.of_nat k)) (four_digits (Z.of_nat k)))
                   (seq 1000 (90 * 100)) = true) by (vm_compute; reflexivity).
  rewrite forallb_forall in Hall. specialize (Hall (Z.to_nat n)).
  rewrite Z2Nat.id in Hall by lia. apply String.eqb_eq, Hall, in_seq. lia.
Qed.

(** So for a year of four digits and a month and a day below 100 the
    three forms are [YYYY-01-01], [YYYY-MM-01] and [YYYY-MM-DD] digit by
    digit, with a zero before a single digit. *)
Lemma crossref_date_digits (doi : string) (s : st W) (resp : response) (w' : W)
    (data msg fv : dict) (pre post : list string) (f : string)
    (parts rest : list value) :
  requests_get E (crossref_url doi) (world s) = (Some resp, w') →
  status_code resp = 200%Z →
  json_loads E (text resp) = Some (VDict data) →
  dict_get data "message" = Some (VDict msg) →
  date_fields = (pre ++ f :: post)%list →
  Forall (passed_over msg) pre →
  dict_get msg f = Some (VDict fv) →
  dict_get fv "date-parts" = Some (VList (VList parts :: rest)) →
  ∀ (y m d : Z) (more : list value),
    (1000 ≤ y < 10000)%Z → (0 ≤ m < 100)%Z → (0 ≤ d < 100)%Z →
    (parts = [VInt y] →
     fst (get_date_from_crossref E doi s) = Ok (Some (four_digits y +:+ "-01-01")))
    ∧ (parts = [VInt y; VInt m] →
       fst (get_date_from_crossref E doi s)
       = Ok (Some (four_digits y +:+ "-" +:+ two_digits m +:+ "-01")))
    ∧ (parts = VInt y :: VInt m :: VInt d :: more →
       fst (get_date_from_crossref E doi s)
       = Ok (Some (four_digits y +:+ "-" +:+ two_digits m +:+ "-" +:+ two_digits d))).
Proof.
  intros Hget Hst Hjson Hmsg Hfields Hpre Hf Hdp y m d more Hy Hm Hd.
  rewrite <- (of_Z_four_digits y Hy), <- (pad2_two_digits m Hm), <- (pad2_two_digits d Hd).
  repeat split; intros ->;
    eapply crossref_chosen; eauto; reflexivity.
Qed.

Lemma page_date_truthy (t d : string) : page_date t = Some d → Str.truthy d = true.
Proof.
  unfold page_date. destruct (Re.search _ t); [|discriminate].
  apply ReFacts.match_iso_date_truthy.
Qed.

(** What follows a CrossRef half that returned nothing, for a url with
    a CD number. *)
Lemma page_after_crossref (entry : dict) (i : nat) (u m : string) (s s1 : st W) :
  get_truthy entry "date" = false →
  dict_get_default entry "url" (VStr "") = VStr u →
  Re.search Re.match_cd_nocase u = Some m →
  try_crossref E (VStr u) s = (Ok None, s1) →
  ∃ (page : option string) (s2 : st W),
    get_date_from_cochrane_page E (Str.upper m)
      {| world := world s1; trace := (trace s1 ++ [EvSleep COCHRANE_DELAY])%list;
         store := store s1 |} = (Ok page, s2)
    ∧ trace s2
      = (trace s1 ++ [EvSleep COCHRANE_DELAY; EvGet (cochrane_url (Str.upper m))])%list
    ∧ get_date_for_entry E entry i s = (Ok (i, VStr <$> page), s2).
Proof.
  intros Hdate Hurl Hcd Hcross.
  destruct (ReFacts.search_some _ _ _ Hcd) as (pre & suf & _ & Hm).
  pose proof (ReFacts.match_cd_nocase_truthy _ _ Hm) as Htr.
  unfold get_date_for_entry. rewrite Hdate, Hurl.
  unfold bind at 1. rewrite Hcross.
  unfold try_cochrane_page, extract_cd_number. rewrite Hcd.
  unfold bind, lift, emit. rewrite Htr.
  unfold get_date_from_cochrane_page, bind, call, ret. cbn [world trace store].
  destruct (requests_get E (cochrane_url (Str.upper m)) (world s1)) as [r w2].
  eexists _, _. split; [reflexivity|]. cbn [trace]. split.
  - rewrite <- app_assoc. reflexivity.
  - destruct r as [resp|]; [|reflexivity].
    destruct (status_code resp =? 200)%Z; [|reflexivity].
    destruct (page_date (text resp)) as [d|] eqn:Hp; [|reflexivity].
    cbn [otruthy]. rewrite (page_date_truthy _ _ Hp). reflexivity.
Qed.

(** The CrossRef half returns nothing when no DOI is derived from the
    url or the lookup for the derived DOI returns no date. *)
Lemma crossref_half_nothing (u : string) (s : st W) :
  (∀ doi, extract_doi (VStr u) = Ok (Some doi) →
          fst (get_date_from_crossref E doi s) = Ok None) →
  fst (try_crossref E (VStr u) s) = Ok None.
Proof.
  intros Hno. unfold try_crossref, bind, lift.
  destruct (extract_doi (VStr u)) as [[doi|]|e] eqn:Hdoi; [| reflexivity |].
  - destruct (Str.truthy doi); [|reflexivity].
    specialize (Hno doi eq_refl).
    destruct (get_date_from_crossref E doi s) as [r sc]. cbn [fst] in Hno. subst r.
    reflexivity.
  - unfold extract_doi in Hdoi.
    destruct (Re.search Re.match_cochrane_doi u); [discriminate|].
    destruct (Re.search Re.match_generic_doi u); discriminate.
Qed.

(** C5, as the code has it.  For an entry without a date whose url holds
    a CD number: when the CrossRef lookup returns no date, be it that no
    DOI is derived from the url, that the request fails or that the
    answer gives none, the Cochrane page is requested next, before any
    result is returned, and the result of the entry is exactly what the
    page gave: its date when it has one, no date only when the page has
    none either. *)
Theorem cochrane_page_fallback (entry : dict) (i : nat) (u m : string) (s : st W) :
  get_truthy entry "date" = false →
  dict_get_default entry "url" (VStr "") = VStr u →
  Re.search Re.match_cd_nocase u = Some m →
  (∀ doi, extract_doi (VStr u) = Ok (Some doi) →
          fst (get_date_from_crossref E doi s) = Ok None) →
  ∃ (s1 : st W) (page : option string) (s2 : st W),
    try_crossref E (VStr u) s = (Ok None, s1)
    ∧ get_date_from_cochrane_page E (Str.upper m)
        {| world := world s1; trace := (trace s1 ++ [EvSleep COCHRANE_DELAY])%list;
           store := store s1 |} = (Ok page, s2)
    ∧ trace s2
      = (trace s1 ++ [EvSleep COCHRANE_DELAY; EvGet (cochrane_url (Str.upper m))])%list
    ∧ get_date_for_entry E entry i s = (Ok (i, VStr <$> page), s2).
Proof.
  intros Hdate Hurl Hcd Hno. pose proof (crossref_half_nothing u s Hno) as Hhalf.
  destruct (try_crossref E (VStr u) s) as [r s1] eqn:Hcross. cbn [fst] in Hhalf. subst r.
  destruct (page_after_crossref entry i u m s s1 Hdate Hurl Hcd Hcross)
    as (page & s2 & Hpage & Htr & Hrun).
  exists s1, page, s2. auto.
Qed.

(** A task reports the index it was given. *)
Lemma get_date_for_entry_index (e : dict) (i idx : nat) (d : option value) (s : st W) :
  fst (get_date_for_entry E e i s) = Ok (idx, d) → idx = i.
Proof.
  unfold get_date_for_entry, bind, lift, ret.
  repeat (case_match; simplify_eq/=); congruence.
Qed.

End Facts.

(** *** The pool of [main] *)

Section Backfill.
Context {W : Type} (E : Env W) (sm : list loc) (h0 : heap) (net : nat → st W).

Lemma elem_of_submitted (i : nat) :
  i ∈ submitted sm h0 ↔ ∃ l, sm !! i = Some l ∧ lacks_date (h0 l) = true.
Proof.
  unfold submitted.
  change (i ∈ fst <$> filter (λ p, lacks_date (h0 p.2) = true) (imap pair sm)
          ↔ ∃ l, sm !! i = Some l ∧ lacks_date (h0 l) = true).
  rewrite list_elem_of_fmap. split.
  - intros ([j l] & -> & Hin). apply list_elem_of_filter in Hin as [Hl Hin].
    apply elem_of_lookup_imap in Hin as (j' & l' & Heq & Hlook).
    simplify_eq. eauto.
  - intros (l & Hl & Hd). exists (i, l). split; [reflexivity|].
    apply list_elem_of_filter. split; [exact Hd|].
    apply elem_of_lookup_imap. eauto.
Qed.

Lemma steps_app (a b : list action) (p : pool) :
  steps E sm (submitted sm h0) net p (a ++ b)
  = match steps E sm (submitted sm h0) net p a with
    | Some (Ok p') => steps E sm (submitted sm h0) net p' b
    | x => x
    end.
Proof.
  revert p. induction a as [|x a IH]; intros p; simpl; [reflexivity|].
  destruct (step E sm (submitted sm h0) net p x) as [[p'|e]|]; auto.
Qed.

(** Any invariant of the single steps holds behind a whole schedule. *)
Lemma steps_invariant (I : pool → Prop) :
  (∀ p a p', I p → step E sm (submitted sm h0) net p a = Some (Ok p') → I p') →
  ∀ sched p p', I p → steps E sm (submitted sm h0) net p sched = Some (Ok p') → I p'.
Proof.
  intros Hstep. induction sched as [|a sched IH]; intros p p' Hp; simpl.
  - intros [= <-]. exact Hp.
  - destruct (step E sm (submitted sm h0) net p a) as [[p1|e]|] eqn:Ha; try discriminate.
    apply IH. eapply Hstep; eauto.
Qed.

Lemma frame_inv_pool0 : frame_inv sm h0 (pool0 h0).
Proof.
  split.
  - intros i r Hf. simpl in Hf. rewrite lookup_empty in Hf. discriminate.
  - intros l. left. reflexivity.
Qed.

Lemma frame_inv_step (p : pool) (a : action) (p' : pool) :
  frame_inv sm h0 p →
  step E sm (submitted sm h0) net p a = Some (Ok p') →
  frame_inv sm h0 p'.
Proof.
  intros [Hfin Hobj] Hstep. destruct a as [i|i]; simpl in Hstep.
  - destruct (bool_decide (i ∈ submitted sm h0)) eqn:Hi; simpl in Hstep; [|discriminate].
    destruct (bool_decide (finished p !! i = None) && bool_decide (i ∉ consumed p));
      [|discriminate].
    destruct (sm !! i) as [l|]; [|discriminate]. simplify_eq. split; simpl.
    + intros j r Hj. destruct (decide (i = j)) as [->|Hne].
      * rewrite lookup_insert_eq in Hj. simplify_eq. split.
        -- apply bool_decide_eq_true in Hi. exact Hi.
        -- intros idx d Hr. eapply get_date_for_entry_index. exact Hr.
      * rewrite lookup_insert_ne in Hj by exact Hne. eauto.
    + exact Hobj.
  - destruct (finished p !! i) as [[[idx date]|e]|] eqn:Hf; simplify_eq.
    destruct (Hfin _ _ Hf) as [Hsub Hidx]. specialize (Hidx _ _ eq_refl). subst idx.
    assert (Hfin' : ∀ j r, delete i (finished p) !! j = Some r →
              j ∈ submitted sm h0 ∧ ∀ idx d, r = Ok (idx, d) → idx = j).
    { intros j r Hj. apply lookup_delete_Some in Hj as [_ Hj]. eauto. }
    unfold merge in Hstep.
    destruct date as [d|]; [destruct (truthy d)|]; simplify_eq; try (split; assumption).
    destruct (sm !! i) as [l|] eqn:Hl; simplify_eq. split; [exact Hfin'|]. simpl.
    intros l'. unfold upd. destruct (decide (l' = l)) as [->|]; [|apply Hobj].
    right. apply elem_of_submitted in Hsub as (l2 & Hl2 & Hlack). simplify_eq.
    split; [exact Hlack|].
    destruct (Hobj l) as [-> | (_ & d' & ->)]; [eauto|].
    rewrite PyFacts.dict_set_twice. eauto.
Qed.

(** C9. Whatever the schedule of the pool, when the run reaches its write
    the collection has the length it was read with, and at every position
    the dict either is the one read or differs from it by a date set where
    [entry.get("date")] was falsy: the items under all other keys (url,
    question, answer, notes, interest, tags) are the same in the same
    order.  Where every date of the collection read is truthy, as a date
    string is, a falsy [entry.get("date")] is a missing key. *)
Theorem backfill_frame (sched : list action) (out : list dict) :
  main E sm h0 net sched = Some (Written out) →
  length out = length sm
  ∧ ∀ i l, sm !! i = Some l →
      ∃ e', out !! i = Some e'
        ∧ filter (λ kv, kv.1 ≠ "date") e' = filter (λ kv, kv.1 ≠ "date") (h0 l)
        ∧ (∀ k, k ≠ "date" → dict_get e' k = dict_get (h0 l) k)
        ∧ (e' ≠ h0 l →
           lacks_date (h0 l) = true ∧ is_Some (dict_get e' "date")
           ∧ ((∀ v, dict_get (h0 l) "date" = Some v → truthy v = true) →
              dict_get (h0 l) "date" = None)).
Proof.
  unfold main. destruct sm as [|l0 sm'] eqn:Hsm; [discriminate|]. rewrite <- Hsm.
  destruct (length (submitted sm h0) =? 0)%nat; [discriminate|].
  destruct (steps E sm (submitted sm h0) net (pool0 h0) sched) as [[p|e]|] eqn:Hsteps;
    try discriminate.
  destruct (all_consumed (submitted sm h0) p); [|discriminate].
  intros [= <-].
  pose proof (steps_invariant (frame_inv sm h0) frame_inv_step _ _ _
                frame_inv_pool0 Hsteps) as [_ Hobj].
  split; [apply length_map|].
  intros i l Hl. exists (objects p l). split.
  { change (map (objects p) sm) with (objects p <$> sm).
    rewrite list_lookup_fmap, Hl. reflexivity. }
  destruct (Hobj l) as [-> | (Hlack & d & ->)].
  - split; [reflexivity|]. split; [reflexivity|]. intros Hne. congruence.
  - split; [apply PyFacts.dict_set_others|]. split.
    + intros k Hk. apply PyFacts.dict_get_set_ne. exact Hk.
    + intros _. split; [exact Hlack|]. split; [rewrite PyFacts.dict_get_set_eq; eauto|].
      intros Hmodel. unfold lacks_date, get_truthy in Hlack.
      destruct (dict_get (h0 l) "date") as [v|]; [|reflexivity].
      rewrite (Hmodel v eq_refl) in Hlack. discriminate.
Qed.

Lemma order_inv_pool0 : order_inv E sm h0 net (pool0 h0).
Proof.
  split; [|split].
  - intros i r Hf. simpl in Hf. rewrite lookup_empty in Hf. discriminate.
  - intros i Hi. simpl in Hi. apply elem_of_nil in Hi. contradiction.
  - intros i l _. simpl. reflexivity.
Qed.

Lemma order_inv_step (p : pool) (a : action) (p' : pool) :
  no_alias sm h0 →
  order_inv E sm h0 net p →
  step E sm (submitted sm h0) net p a = Some (Ok p') →
  order_inv E sm h0 net p'.
Proof.
  intros Hna (Hfin & Hcons & Hobj) Hstep. destruct a as [i|i]; simpl in Hstep.
  - destruct (bool_decide (i ∈ submitted sm h0)) eqn:Hi; simpl in Hstep; [|discriminate].
    destruct (bool_decide (finished p !! i = None)) eqn:Hnone; simpl in Hstep;
      [|discriminate].
    destruct (bool_decide (i ∉ consumed p)) eqn:Hnc; [|discriminate].
    apply bool_decide_eq_true in Hi, Hnc.
    destruct (sm !! i) as [l|] eqn:Hl; [|discriminate]. simplify_eq.
    split; [|split]; simpl; [|exact Hcons|exact Hobj].
    intros j r Hj. destruct (decide (i = j)) as [<-|Hne].
    + rewrite lookup_insert_eq in Hj. simplify_eq.
      split; [exact Hi|]. split; [exact Hnc|]. exists l. split; [exact Hl|].
      unfold task_result. rewrite (Hobj _ _ Hl).
      rewrite bool_decide_eq_false_2 by exact Hnc. reflexivity.
    + rewrite lookup_insert_ne in Hj by exact Hne. eauto.
  - destruct (finished p !! i) as [[[idx date]|e]|] eqn:Hf; simplify_eq.
    destruct (Hfin _ _ Hf) as (Hsub & Hnc & l & Hl & Hres).
    assert (idx = i) as ->.
    { eapply get_date_for_entry_index. symmetry. exact Hres. }
    assert (Hlack : lacks_date (h0 l) = true).
    { apply elem_of_submitted in Hsub as (l2 & Hl2 & Hlack). congruence. }
    assert (Hold : objects p l = h0 l).
    { rewrite (Hobj _ _ Hl). rewrite bool_decide_eq_false_2 by exact Hnc. reflexivity. }
    assert (Hfin' : ∀ j r, delete i (finished p) !! j = Some r →
              j ∈ submitted sm h0 ∧ (j ∉ i :: consumed p)
              ∧ ∃ l, sm !! j = Some l ∧ r = task_result E h0 net j l).
    { intros j r Hj. apply lookup_delete_Some in Hj as [Hne Hj].
      destruct (Hfin _ _ Hj) as (? & ? & ?). split; [assumption|].
      split; [|assumption]. rewrite elem_of_cons. intros [?|?]; congruence. }
    assert (Hcons' : ∀ j, j ∈ i :: consumed p → j ∈ submitted sm h0).
    { intros j [->|Hj]%elem_of_cons; auto. }
    assert (Hother : ∀ j, j ≠ i →
              bool_decide (j ∈ i :: consumed p) = bool_decide (j ∈ consumed p)).
    { intros j Hne. apply bool_decide_ext. rewrite elem_of_cons. tauto. }
    assert (Hhere : bool_decide (i ∈ i :: consumed p) = true).
    { apply bool_decide_eq_true. apply elem_of_cons. left. reflexivity. }
    unfold merge in Hstep.
    destruct date as [d|]; [destruct (truthy d) eqn:Htr|].
    + rewrite Hl in Hstep. simplify_eq.
      split; [exact Hfin'|]. split; [exact Hcons'|]. simpl.
      intros j l' Hj. unfold upd. destruct (decide (l' = l)) as [->|Hne].
      * assert (j = i) as -> by (eapply Hna; eauto).
        rewrite Hhere, Hold. unfold merged. rewrite <- Hres, Htr. reflexivity.
      * rewrite Hother by congruence. apply Hobj. exact Hj.
    + simplify_eq. split; [exact Hfin'|]. split; [exact Hcons'|]. simpl.
      intros j l' Hj. destruct (decide (j = i)) as [->|Hne].
      * assert (l' = l) as -> by congruence.
        rewrite Hhere, Hold. unfold merged. rewrite <- Hres, Htr. reflexivity.
      * rewrite Hother by exact Hne. apply Hobj. exact Hj.
    + simplify_eq. split; [exact Hfin'|]. split; [exact Hcons'|]. simpl.
      intros j l' Hj. destruct (decide (j = i)) as [->|Hne].
      * assert (l' = l) as -> by congruence.
        rewrite Hhere, Hold. unfold merged. rewrite <- Hres. reflexivity.
      * rewrite Hother by exact Hne. apply Hobj. exact Hj.
Qed.

Lemma all_consumed_spec (p : pool) :
  all_consumed (submitted sm h0) p = true →
  finished p = ∅ ∧ ∀ i, i ∈ submitted sm h0 → i ∈ consumed p.
Proof.
  unfold all_consumed. intros [Hf Hall]%andb_prop.
  apply bool_decide_eq_true in Hf. split; [exact Hf|].
  intros i Hi. rewrite forallb_forall in Hall.
  apply list_elem_of_In in Hi. apply Hall in Hi.
  apply bool_decide_eq_true in Hi. exact Hi.
Qed.

(** When no two dateless positions share a dict, whatever is written is
    the backfilled collection. *)
Lemma written_backfilled (sched : list action) (out : list dict) :
  no_alias sm h0 →
  main E sm h0 net sched = Some (Written out) →
  out = backfilled E sm h0 net.
Proof.
  intros Hna. unfold main. destruct sm as [|l0 sm'] eqn:Hsm; [discriminate|].
  rewrite <- Hsm in Hna |- *.
  destruct (length (submitted sm h0) =? 0)%nat; [discriminate|].
  destruct (steps E sm (submitted sm h0) net (pool0 h0) sched) as [[p|e]|] eqn:Hsteps;
    try discriminate.
  destruct (all_consumed (submitted sm h0) p) eqn:Hall; [|discriminate].
  intros [= <-]. apply all_consumed_spec in Hall as [_ Hall].
  pose proof (steps_invariant (order_inv E sm h0 net)
                (λ p a p', order_inv_step p a p' Hna) _ _ _
                order_inv_pool0 Hsteps) as (_ & Hcons & Hobj).
  apply list_eq. intros i. unfold backfilled.
  change (map (objects p) sm) with (objects p <$> sm).
  rewrite list_lookup_fmap, list_lookup_imap.
  destruct (sm !! i) as [l|] eqn:Hl; [|reflexivity]. simpl. f_equal.
  rewrite (Hobj _ _ Hl). destruct (lacks_date (h0 l)) eqn:Hlack.
  - rewrite bool_decide_eq_true_2; [reflexivity|].
    apply Hall, elem_of_submitted. eauto.
  - rewrite bool_decide_eq_false_2; [reflexivity|].
    intros Hc. apply Hcons, elem_of_submitted in Hc as (l2 & Hl2 & Hlack2). congruence.
Qed.

Lemma submitted_NoDup : NoDup (submitted sm h0).
Proof.
  unfold submitted.
  change (NoDup (fst <$> filter (λ p, lacks_date (h0 p.2) = true) (imap pair sm))).
  apply NoDup_fmap_fst.
  - intros i l1 l2 [_ H1]%list_elem_of_filter [_ H2]%list_elem_of_filter.
    apply elem_of_lookup_imap in H1 as (? & ? & ? & ?).
    apply elem_of_lookup_imap in H2 as (? & ? & ? & ?). simplify_eq. congruence.
  - apply NoDup_filter. apply NoDup_alt. intros i j [k l] Hi Hj.
    apply list_lookup_imap_Some in Hi as (? & _ & ?).
    apply list_lookup_imap_Some in Hj as (? & _ & ?). congruence.
Qed.

Lemma merge_ok (p : pool) (i : nat) (l : loc) (date : option value) :
  sm !! i = Some l →
  ∃ p', merge sm p i i date = Ok p'
        ∧ finished p' = delete i (finished p) ∧ consumed p' = i :: consumed p.
Proof.
  intros Hl. unfold merge. rewrite Hl.
  destruct date as [d|]; [destruct (truthy d)|]; eexists; split; reflexivity || (split; reflexivity).
Qed.

(** Running the tasks of a list of distinct submitted indices. *)
Lemma runs_ok (todo : list nat) (p : pool) :
  NoDup todo →
  (∀ i, i ∈ todo → i ∈ submitted sm h0 ∧ finished p !! i = None ∧ i ∉ consumed p) →
  ∃ p', steps E sm (submitted sm h0) net p (map Run todo) = Some (Ok p')
        ∧ consumed p' = consumed p
        ∧ ∀ i, is_Some (finished p' !! i) ↔ i ∈ todo ∨ is_Some (finished p !! i).
Proof.
  revert p. induction todo as [|i todo IH]; intros p Hnd Hall.
  - exists p. split; [reflexivity|]. split; [reflexivity|].
    intros i. rewrite elem_of_nil. tauto.
  - apply NoDup_cons in Hnd as [Hni Hnd].
    destruct (Hall i) as (Hsub & Hnone & Hnc); [apply elem_of_cons; auto|].
    pose proof Hsub as (l & Hl & _)%elem_of_submitted.
    simpl. rewrite !bool_decide_eq_true_2 by assumption. simpl. rewrite Hl.
    match goal with |- context [steps _ _ _ _ ?q _] => set (p1 := q) end.
    destruct (IH p1 Hnd) as (p' & Hsteps & Hc & Hdom).
    { intros j Hj. destruct (Hall j) as (? & ? & ?); [apply elem_of_cons; auto|].
      split; [assumption|]. split; [|assumption].
      subst p1. simpl. rewrite lookup_insert_ne; [assumption|]. congruence. }
    exists p'. split; [exact Hsteps|]. split; [rewrite Hc; reflexivity|].
    intros j. rewrite Hdom, elem_of_cons. subst p1. simpl.
    destruct (decide (i = j)) as [->|Hne].
    + rewrite lookup_insert_eq. split; intros _; [auto | right; eauto].
    + rewrite lookup_insert_ne by exact Hne. split; intros [?|?]; auto.
      destruct H; [congruence | auto].
Qed.

(** Consuming the finished futures of a list of distinct indices. *)
Lemma yields_ok (order : list nat) (p : pool) :
  no_alias sm h0 →
  (∀ i l, i ∈ submitted sm h0 → sm !! i = Some l →
          ∃ v, task_result E h0 net i l = Ok v) →
  NoDup order →
  order_inv E sm h0 net p →
  (∀ i, i ∈ order → is_Some (finished p !! i)) →
  ∃ p', steps E sm (submitted sm h0) net p (map Yield order) = Some (Ok p')
        ∧ (∀ i, i ∈ order → i ∈ consumed p')
        ∧ (∀ i, finished p' !! i = if bool_decide (i ∈ order) then None else finished p !! i).
Proof.
  intros Hna Hok. revert p. induction order as [|i order IH]; intros p Hnd Hinv Hall.
  - exists p. split; [reflexivity|]. split; [intros i []%elem_of_nil|].
    intros i. rewrite bool_decide_eq_false_2; [reflexivity | apply not_elem_of_nil].
  - apply NoDup_cons in Hnd as [Hni Hnd].
    destruct (Hall i) as [r Hr]; [apply elem_of_cons; auto|].
    pose proof Hinv as (Hfin & _ & _).
    destruct (Hfin _ _ Hr) as (Hsub & _ & l & Hl & Hres).
    destruct (Hok _ _ Hsub Hl) as [[idx date] Hv].
    assert (idx = i) as -> by (eapply get_date_for_entry_index; exact Hv).
    destruct (merge_ok p i l date Hl) as (p1 & Hm & Hf1 & Hc1).
    assert (Hstep : step E sm (submitted sm h0) net p (Yield i) = Some (Ok p1)).
    { simpl. rewrite Hr, Hres, Hv, Hm. reflexivity. }
    destruct (IH p1 Hnd) as (p' & Hsteps & Hcons & Hfinal).
    { eapply order_inv_step; eauto. }
    { intros j Hj. rewrite Hf1, lookup_delete_ne by congruence.
      apply Hall, elem_of_cons. auto. }
    exists p'. split; [|split].
    + cbn [map steps]. rewrite Hstep. exact Hsteps.
    + intros j [->|Hj]%elem_of_cons; [|auto].
      assert (Hmono : ∀ q sched q', steps E sm (submitted sm h0) net q sched = Some (Ok q') →
                i ∈ consumed q → i ∈ consumed q').
      { clear. intros q sched. revert q.
        induction sched as [|a sched IHs]; intros q q'; simpl.
        - intros [= <-]. auto.
        - destruct (step E sm (submitted sm h0) net q a) as [[q1|e]|] eqn:Ha;
            try discriminate.
          intros Hs Hi. apply (IHs _ _ Hs).
          destruct a as [j|j]; simpl in Ha.
          + repeat case_match; simplify_eq. exact Hi.
          + unfold merge in Ha. repeat case_match; simplify_eq; simpl;
              apply elem_of_cons; auto. }
      apply (Hmono _ _ _ Hsteps). rewrite Hc1. apply elem_of_cons. auto.
    + intros j. rewrite Hfinal, Hf1.
      destruct (decide (j = i)) as [->|Hne].
      * rewrite lookup_delete_eq. rewrite (bool_decide_eq_true_2 (i ∈ i :: order)).
        -- destruct (bool_decide (i ∈ order)); reflexivity.
        -- apply elem_of_cons. auto.
      * rewrite lookup_delete_ne by congruence.
        rewrite (bool_decide_ext (j ∈ i :: order) (j ∈ order)); [reflexivity|].
        rewrite elem_of_cons. tauto.
Qed.

(** When no task raises, every completion order is a run that writes. *)
Lemma every_order_writes (order : list nat) :
  no_alias sm h0 →
  order ≡ₚ submitted sm h0 →
  submitted sm h0 ≠ [] →
  (∀ i l, i ∈ submitted sm h0 → sm !! i = Some l →
          ∃ v, task_result E h0 net i l = Ok v) →
  ∃ out, main E sm h0 net (run_then_yield (submitted sm h0) order) = Some (Written out).
Proof.
  intros Hna Hperm Hne Hok.
  destruct (runs_ok (submitted sm h0) (pool0 h0) submitted_NoDup) as (p1 & Hruns & Hc1 & Hdom1).
  { intros i Hi. split; [exact Hi|]. simpl. split; [apply lookup_empty | apply not_elem_of_nil]. }
  assert (Hinv1 : order_inv E sm h0 net p1).
  { eapply (steps_invariant (order_inv E sm h0 net)); eauto using order_inv_pool0.
    intros. eapply order_inv_step; eauto. }
  destruct (yields_ok order p1 Hna Hok) as (p2 & Hyields & Hcons2 & Hfin2); auto.
  { rewrite Hperm. apply submitted_NoDup. }
  { intros i Hi. apply Hdom1. left. rewrite <- Hperm. exact Hi. }
  exists (map (objects p2) sm). unfold main, run_then_yield.
  destruct sm as [|l0 sm'] eqn:Hsm.
  { exfalso. apply Hne. reflexivity. }
  rewrite <- Hsm in *.
  destruct (length (submitted sm h0) =? 0)%nat eqn:Hlen.
  { apply Nat.eqb_eq in Hlen. destruct (submitted sm h0); [congruence | discriminate]. }
  rewrite steps_app, Hruns, Hyields.
  assert (Hall : all_consumed (submitted sm h0) p2 = true).
  { unfold all_consumed. apply andb_true_intro. split.
    - apply bool_decide_eq_true. apply map_empty. intros i. rewrite Hfin2.
      case_bool_decide as Hin; [reflexivity|].
      destruct (finished p1 !! i) eqn:Hf; [|reflexivity].
      exfalso. apply Hin. rewrite Hperm.
      destruct (proj1 (Hdom1 i)) as [?|[? Hx]]; eauto.
      simpl in Hx. rewrite lookup_empty in Hx. discriminate.
    - apply forallb_forall. intros i Hi%list_elem_of_In.
      apply bool_decide_eq_true. apply Hcons2. rewrite Hperm. exact Hi. }
  rewrite Hall. reflexivity.
Qed.

Lemma backfilled_lookup (i : nat) (l : loc) (d : value) :
  sm !! i = Some l →
  lacks_date (h0 l) = true →
  task_result E h0 net i l = Ok (i, Some d) →
  truthy d = true →
  backfilled E sm h0 net !! i = Some (dict_set (h0 l) "date" d).
Proof.
  intros Hl Hlack Hres Htr. unfold backfilled.
  rewrite list_lookup_imap, Hl. simpl. rewrite Hlack.
  unfold merged. rewrite Hres, Htr. reflexivity.
Qed.

(** C6, as the code has it.  When no two dateless positions of the
    collection share one dict: every schedule of the pool that reaches the
    write writes the same collection, the backfilled one; it has the length
    of the collection read, and the date a task resolved sits at the
    position the task was submitted for; and when no task raises, every
    completion order of the submitted tasks is such a run. *)
Theorem backfill_positional :
  no_alias sm h0 →
  (∀ sched out, main E sm h0 net sched = Some (Written out) →
                out = backfilled E sm h0 net)
  ∧ length (backfilled E sm h0 net) = length sm
  ∧ (∀ i l d, sm !! i = Some l → lacks_date (h0 l) = true →
              task_result E h0 net i l = Ok (i, Some d) → truthy d = true →
              ∃ e, backfilled E sm h0 net !! i = Some e ∧ dict_get e "date" = Some d)
  ∧ (∀ order, order ≡ₚ submitted sm h0 → submitted sm h0 ≠ [] →
              (∀ i l, i ∈ submitted sm h0 → sm !! i = Some l →
                      ∃ v, task_result E h0 net i l = Ok v) →
              main E sm h0 net (run_then_yield (submitted sm h0) order)
              = Some (Written (backfilled E sm h0 net))).
Proof.
  intros Hna. split; [|split; [|split]].
  - intros sched out. apply written_backfilled. exact Hna.
  - apply length_imap.
  - intros i l d Hl Hlack Hres Htr. eexists. split.
    + eapply backfilled_lookup; eauto.
    + apply PyFacts.dict_get_set_eq.
  - intros order Hperm Hne Hok.
    destruct (every_order_writes order Hna Hperm Hne Hok) as [out Hout].
    rewrite Hout. f_equal. f_equal. eapply written_backfilled; eauto.
Qed.

End Backfill.

(** A run of [backfill_frame]: three records, the first and the last
    without a date, the later task completing first. *)
Lemma backfill_frame_witness :
  ∃ out,
    main Demo.flaky_env [0; 1; 2]%nat Demo.three_records Demo.flaky_net
      [Run 2; Run 0; Yield 2; Yield 0] = Some (Written out)
    ∧ length out = 3%nat
    ∧ ∀ i l, [0; 1; 2]%nat !! i = Some l →
        ∃ e', out !! i = Some e'
          ∧ filter (λ kv, kv.1 ≠ "date") e'
            = filter (λ kv, kv.1 ≠ "date") (Demo.three_records l)
          ∧ (∀ k, k ≠ "date" → dict_get e' k = dict_get (Demo.three_records l) k)
          ∧ (e' ≠ Demo.three_records l →
             lacks_date (Demo.three_records l) = true ∧ is_Some (dict_get e' "date")
             ∧ ((∀ v, dict_get (Demo.three_records l) "date" = Some v → truthy v = true) →
                dict_get (Demo.three_records l) "date" = None)).
Proof.
  eexists. split; [vm_compute; reflexivity|].
  apply (backfill_frame Demo.flaky_env [0; 1; 2]%nat Demo.three_records Demo.flaky_net
           [Run 2; Run 0; Yield 2; Yield 0]).
  vm_compute. reflexivity.
Defined.

(** A run of [backfill_positional]: the later task completes first. *)
Lemma backfill_positional_witness :
  ∃ out,
    main Demo.flaky_env [0; 1; 2]%nat Demo.three_records Demo.flaky_net
      [Run 2; Run 0; Yield 2; Yield 0] = Some (Written out)
    ∧ out = backfilled Demo.flaky_env [0; 1; 2]%nat Demo.three_records Demo.flaky_net.
Proof.
  assert (Hna : no_alias [0; 1; 2]%nat Demo.three_records).
  { intros i j l Hi Hj _.
    destruct i as [|[|[|i]]]; destruct j as [|[|[|j]]]; cbv in Hi, Hj;
      congruence. }
  eexists. split; [vm_compute; reflexivity|].
  apply (proj1 (backfill_positional Demo.flaky_env [0; 1; 2]%nat Demo.three_records
                  Demo.flaky_net Hna) [Run 2; Run 0; Yield 2; Yield 0]).
  vm_compute. reflexivity.
Defined.

(** C6 as stated fails when two positions of the collection are one dict
    (a YAML alias).  Both positions lack a date; the task of position 0
    finds 2021-03-01 at CrossRef, the task of position 1 does not reach
    CrossRef and finds 2020-05-06 on the Cochrane page.  The collection
    written depends on which future completes last, and in neither order
    does each position hold the date its own task resolved. *)
Lemma completion_order_matters :
  let record d :=
    [("question", VStr "a"); ("url", VStr (Demo.feed_link "CD000001")); ("date", VStr d)] in
  task_result Demo.flaky_env Demo.three_records Demo.flaky_net 0 0
  = Ok (0%nat, Some (VStr "2021-03-01"))
  ∧ task_result Demo.flaky_env Demo.three_records Demo.flaky_net 1 0
    = Ok (1%nat, Some (VStr "2020-05-06"))
  ∧ main Demo.flaky_env [0; 0]%nat Demo.three_records Demo.flaky_net
      [Run 0; Run 1; Yield 0; Yield 1]
    = Some (Written [record "2020-05-06"; record "2020-05-06"])
  ∧ main Demo.flaky_env [0; 0]%nat Demo.three_records Demo.flaky_net
      [Run 0; Run 1; Yield 1; Yield 0]
    = Some (Written [record "2021-03-01"; record "2021-03-01"])
  ∧ [record "2020-05-06"; record "2020-05-06"] ≠ [record "2021-03-01"; record "2021-03-01"].
Proof.
  cbv zeta. repeat split; try (vm_compute; reflexivity). discriminate.
Qed.

(** A run of [crossref_date_granularity]: a year and a month. *)
Lemma crossref_date_granularity_witness :
  fst (get_date_from_crossref (Demo.env [] true) "10.1002/14651858.CD000001"
         (Demo.start None)) = Ok (Some "2021-03-01").
Proof.
  refine (proj1 (proj2 (crossref_date_granularity (Demo.env [] true)
            "10.1002/14651858.CD000001" (Demo.start None)
            {| status_code := 200; text := "crossref-year-month" |} tt
            [("status", VStr "ok");
             ("message",
              VDict [("issued", VDict [("date-parts", VList [VList [VInt 2021; VInt 3]])]);
                     ("created", VDict [("date-parts", VList [VList [VInt 2020; VInt 1; VInt 2]])])])]
            [("issued", VDict [("date-parts", VList [VList [VInt 2021; VInt 3]])]);
             ("created", VDict [("date-parts", VList [VList [VInt 2020; VInt 1; VInt 2]])])]
            [("date-parts", VList [VList [VInt 2021; VInt 3]])]
            ["published"] ["published-online"; "created"] "issued"
            [VInt 2021; VInt 3] []
            eq_refl eq_refl eq_refl eq_refl eq_refl _ eq_refl eq_refl
            2021 3 0 [])) eq_refl).
  constructor; [left; reflexivity | constructor].
Defined.

(** C4 fails on the code where the year is no number.  CrossRef writes
    the date-parts of a date it does not know as a list with one null;
    the chosen field then has date-parts of length 1, and for it
    [get_date_from_crossref] returns the string None-01-01, which is no
    [YYYY-01-01].  The task of the entry returns that string and [main]
    writes it into the record as its date. *)
Lemma null_year_date :
  let doi := "10.1002/14651858.CD000001" in
  let entry := [("question", VStr "q"); ("url", VStr (Demo.feed_link "CD000001"))] in
  (∃ rest, DemoNull.json_loads "null-year"
           = Some (VDict [("message",
                           VDict (("published",
                                   VDict [("date-parts", VList [VList [VNone]])]) :: rest))]))
  ∧ fst (get_date_from_crossref DemoNull.env doi (Demo.start None))
    = Ok (Some "None-01-01")
  ∧ fst (get_date_for_entry DemoNull.env entry 0 (Demo.start None))
    = Ok (0%nat, Some (VStr "None-01-01"))
  ∧ main DemoNull.env [0%nat] (λ _, entry) (λ _, Demo.start None) [Run 0; Yield 0]
    = Some (Written [(entry ++ [("date", VStr "None-01-01")])%list]).
Proof.
  cbv zeta. split; [eexists; reflexivity|]. repeat split; vm_compute; reflexivity.
Qed.

(** A run of [cochrane_page_fallback]: CrossRef is out of reach for the
    DOI of the url, and the date comes from the Cochrane page. *)
Lemma cochrane_page_fallback_witness :
  ∃ (s1 : st bool) (page : option string) (s2 : st bool),
    try_crossref Demo.flaky_env (VStr (Demo.feed_link "CD000003")) (Demo.flaky_net 2)
    = (Ok None, s1)
    ∧ get_date_from_cochrane_page Demo.flaky_env (Str.upper "CD000003")
        {| world := world s1; trace := (trace s1 ++ [EvSleep COCHRANE_DELAY])%list;
           store := store s1 |} = (Ok page, s2)
    ∧ trace s2
      = (trace s1 ++ [EvSleep COCHRANE_DELAY;
                      EvGet (cochrane_url (Str.upper "CD000003"))])%list
    ∧ get_date_for_entry Demo.flaky_env (Demo.three_records 2) 2 (Demo.flaky_net 2)
      = (Ok (2%nat, VStr <$> page), s2).
Proof.
  apply (cochrane_page_fallback Demo.flaky_env (Demo.three_records 2) 2
           (Demo.feed_link "CD000003") "CD000003" (Demo.flaky_net 2)).
  - reflexivity.
  - reflexivity.
  - reflexivity.
  - intros doi Hdoi. vm_compute in Hdoi. injection Hdoi as <-. reflexivity.
Defined.

(** What that run returns. *)
Example page_date_returned :
  fst (get_date_for_entry Demo.flaky_env (Demo.three_records 2) 2 (Demo.flaky_net 2))
  = Ok (2%nat, Some (VStr "2020-05-06")).
Proof. reflexivity. Qed.

(** C5 as stated fails, in two ways.  The first entry has no date, its
    url holds a DOI but no CD number, CrossRef answers 404, and the result
    is no date although no request for a Cochrane page was ever made.  The
    second entry has no date and a url with a CD number; CrossRef answers
    with a null for the year, which is no usable date, and the result is
    the string made of it, although the page, never requested, has the
    date. *)
Lemma page_scrape_not_attempted :
  (let entry := [("question", VStr "q"); ("url", VStr "https://x.org/doi/10.1111/abc.12/full")] in
   let run := get_date_for_entry (Demo.env [] true) entry 0 (Demo.start None) in
   lacks_date entry = true
   ∧ fst (try_crossref (Demo.env [] true) (VStr "https://x.org/doi/10.1111/abc.12/full")
            (Demo.start None)) = Ok None
   ∧ fst run = Ok (0%nat, None)
   ∧ trace (snd run)
     = [EvGet "https://api.crossref.org/works/10.1111/abc.12"; EvSleep CROSSREF_DELAY]
   ∧ ¬ ∃ cd, EvGet (cochrane_url cd) ∈ trace (snd run))
  ∧ (let entry := [("question", VStr "q"); ("url", VStr (Demo.feed_link "CD000001"))] in
     let run := get_date_for_entry DemoNull.env entry 0 (Demo.start None) in
     lacks_date entry = true
     ∧ extract_cd_number (VStr (Demo.feed_link "CD000001")) = Ok (Some "CD000001")
     ∧ fst run = Ok (0%nat, Some (VStr "None-01-01"))
     ∧ trace (snd run) = [EvGet "https://api.crossref.org/works/10.1002/14651858.CD000001"]
     ∧ fst (get_date_from_cochrane_page DemoNull.env "CD000001" (Demo.start None))
       = Ok (Some "2020-05-06")).
Proof.
  cbv zeta. repeat split; try reflexivity.
  intros [cd Hin]. vm_compute in Hin.
  apply elem_of_cons in Hin as [Heq | Hin]; [discriminate|].
  apply elem_of_cons in Hin as [Heq | Hin]; [discriminate|].
  inversion Hin.
Qed.

(** The same holds for an entry with no url at all. *)
Example no_url_no_request :
  get_date_for_entry (Demo.env [] true) [("question", VStr "q")] 0 (Demo.start None)
  = (Ok (0%nat, None), Demo.start None).
Proof. reflexivity. Qed.

End AddDatesFacts.

(** ** Acquisition ([update_cochrane.py]) *)

Module UpdateCochraneFacts.
Import Py UpdateCochrane.

(** *** Extraction *)






(** The text of a script element is its body: a script between the
    summary heading and its paragraph is part of the run with its code,
    and a script that a selector finds is the region with its code. *)
Example script_sibling_text :
  extract_summary Demo.script_sibling_page
  = Some ("var x = 1;" +:+ blank_line +:+ "B").
Proof. reflexivity. Qed.

Example script_region_text :
  extract_summary [Demo.script_node] = Some "var x = 1;".
Proof. reflexivity. Qed.

(** *** Parsing the model's answer *)

(** Take a computation apart along its binds and case distinctions. *)
Ltac keeps :=
  repeat match goal with
    | |- keeps_store (let _ := _ in _) => cbv zeta
    | |- keeps_store (bind _ _) => apply PyFacts.keeps_bind; [|intros ?]
    | |- keeps_store (ret _) => apply PyFacts.keeps_ret
    | |- keeps_store (raise _) => apply PyFacts.keeps_raise
    | |- keeps_store (lift _) => apply PyFacts.keeps_lift
    | |- keeps_store (call _ _) => apply PyFacts.keeps_call
    | |- keeps_store (emit _) => apply PyFacts.keeps_emit
    | |- keeps_store (match ?x with _ => _ end) => destruct x
    end.

Ltac emits :=
  repeat match goal with
    | |- emits_only _ (let _ := _ in _) => cbv zeta
    | |- emits_only _ (bind _ _) => apply PyFacts.emits_bind; [|intros ?]
    | |- emits_only _ (ret _) => apply PyFacts.emits_ret
    | |- emits_only _ (lift _) => apply PyFacts.emits_lift
    | |- emits_only _ (match ?x with _ => _ end) => destruct x
    end.

Section Facts.
Context {W : Type} (E : Env W).

Lemma truthy_skip (d : dict) :
  truthy (dict_get_default d "skip" VNone) = get_truthy d "skip".
Proof.
  unfold dict_get_default, get_truthy. destruct (dict_get d "skip"); reflexivity.
Qed.


Lemma parse_summary_skip (response m : string) (d : dict) :
  Re.search Re.match_brace response = Some m →
  json_loads E m = Some (VDict d) →
  get_truthy d "skip" = true →
  parse_summary E response = Ok None.
Proof.
  intros Hm Hj Hskip. unfold parse_summary. rewrite Hm, Hj. simpl.
  rewrite truthy_skip, Hskip. reflexivity.
Qed.









(** *** The store and the trace along a run *)

Lemma try_urls_keeps (urls : list string) (last : option response) :
  keeps_store (try_urls E urls last).
Proof. revert last. induction urls as [|u r IH]; intros last; simpl; keeps; apply IH. Qed.

Lemma fetch_keeps (u cd : string) : keeps_store (fetch_plain_language_summary E u cd).
Proof. unfold fetch_plain_language_summary. keeps. apply try_urls_keeps. Qed.

Lemma summarize_keeps (pls : string) : keeps_store (summarize_review E pls).
Proof. unfold summarize_review, call_claude. keeps. Qed.

Lemma enrich_keeps (d : dict) : keeps_store (enrich_summary E d).
Proof. unfold enrich_summary, call_claude. keeps. Qed.

Lemma process_review_keeps (r : review) : keeps_store (process_review E r).
Proof.
  unfold process_review. keeps;
    first [apply fetch_keeps | apply summarize_keeps | apply enrich_keeps].
Qed.

Lemma process_all_keeps (l : list review) : keeps_store (process_all E l).
Proof.
  induction l as [|r l IH]; simpl; keeps; [apply process_review_keeps | exact IH].
Qed.

Lemma discover_keeps : keeps_store (discover E).
Proof. unfold discover, fetch_rss_reviews, scrape_news_page. keeps. Qed.

Lemma try_urls_emits (r : review) (urls : list string) (last : option response) :
  (∀ u, u ∈ urls → about r (EvGet u)) →
  emits_only (about r) (try_urls E urls last).
Proof.
  revert last. induction urls as [|u rest IH]; intros last Hall; simpl; emits.
  - apply PyFacts.emits_call. apply Hall. apply elem_of_cons. auto.
  - apply IH. intros; apply Hall; apply elem_of_cons; auto.
  - apply IH. intros; apply Hall; apply elem_of_cons; auto.
Qed.

Lemma process_review_emits (r : review) : emits_only (about r) (process_review E r).
Proof.
  unfold process_review, fetch_plain_language_summary, summarize_review,
    enrich_summary, call_claude.
  emits; try (apply PyFacts.emits_call; exact I).
  apply try_urls_emits. intros u Hu. simpl.
  destruct (Str.truthy (cd_number r)); simpl in Hu.
  - apply elem_of_cons in Hu as [->|Hu]; [auto|].
    apply elem_of_cons in Hu as [->|Hu]; [auto|]. inversion Hu.
  - apply elem_of_cons in Hu as [->|Hu]; [auto|]. inversion Hu.
Qed.

Lemma process_all_emits (l : list review) :
  emits_only (λ ev, ∃ r, r ∈ l ∧ about r ev) (process_all E l).
Proof.
  induction l as [|r l IH]; simpl; emits.
  - eapply PyFacts.emits_weaken; [|apply process_review_emits].
    intros ev Hev. exists r. split; [apply elem_of_cons; auto | exact Hev].
  - eapply PyFacts.emits_weaken; [|exact IH].
    intros ev (r' & Hin & Hev). exists r'. split; [apply elem_of_cons; auto | exact Hev].
Qed.

Lemma process_all_length (l : list review) (s s' : st W) (batch : list dict) :
  process_all E l s = (Ok batch, s') → (length batch ≤ length l)%nat.
Proof.
  revert s s' batch. induction l as [|r l IH]; intros s s' batch; simpl.
  - intros [= <- _]. simpl. lia.
  - unfold bind. destruct (process_review E r s) as [[x|e] s1]; [|discriminate].
    destruct (process_all E l s1) as [[xs|e] s2] eqn:Hxs; [|discriminate].
    apply IH in Hxs. unfold ret. intros [= <- _]. destruct x; simpl; lia.
Qed.

(** [main] taken apart at its early returns. *)
Lemma main_unfold (dry_run : bool) (max_reviews : Z) (s : st W) :
  main E dry_run max_reviews s
  = match discover E s with
    | (Ok reviews, s1) =>
        match reviews with
        | [] => (Ok [], s1)
        | _ =>
            match filter_new (existing_in (store s)) reviews with
            | [] => (Ok [], s1)
            | new_reviews =>
                if dry_run then (Ok [], s1)
                else bind (process_all E (slice_to new_reviews max_reviews))
                       (finish E) s1
            end
        end
    | (Raise e, s1) => (Raise e, s1)
    end.
Proof.
  unfold main, bind at 1, get_existing_cd_numbers, existing_in.
  destruct (store s); simpl; unfold bind at 1;
    destruct (discover E s) as [[reviews|e] s1]; try reflexivity;
    destruct reviews; try reflexivity;
    match goal with |- context [filter_new ?a ?b] => destruct (filter_new a b) end;
    try reflexivity; destruct dry_run; reflexivity.
Qed.

Lemma rmap_length {A B} (f : A → result B) (l : list A) (l' : list B) :
  rmap f l = Ok l' → length l' = length l.
Proof.
  revert l'. induction l as [|x l IH]; intros l'; simpl.
  - intros [= <-]. reflexivity.
  - destruct (f x); simpl; [|discriminate].
    destruct (rmap f l); simpl; [|discriminate].
    intros [= <-]. simpl. f_equal. apply IH. reflexivity.
Qed.

(** What [finish] does to the file: nothing, or it appends one entry for
    each processed summary. *)
Lemma finish_appends (batch : list dict) (s s' : st W) (out : result (list string)) :
  finish E batch s = (out, s') →
  store s' = store s
  ∨ ∃ c entries,
      store s = Some c
      ∧ rmap (λ d, rbind (format_entry E d) (λ e, Ok (Str.strip e))) batch = Ok entries
      ∧ store s' = Some (c +:+ appended_text entries).
Proof.
  unfold finish, bind, append_to_summaries, validate_yaml, raise, lift, ret.
  destruct batch as [|b batch].
  - intros [= _ <-]. left. reflexivity.
  - destruct (store s) as [c|] eqn:Hc; [|intros [= _ <-]; left; congruence].
    destruct (rmap _ (b :: batch)) as [entries|e] eqn:Hr;
      [|intros [= _ <-]; left; congruence].
    cbn [store]. intros Hrun. right. exists c, entries.
    split; [reflexivity|]. split; [reflexivity|].
    destruct (yaml_ok E _); injection Hrun as _ <-; reflexivity.
Qed.

Lemma finish_gate (batch : list dict) (s s' : st W) (out : result (list string)) :
  finish E batch s = (out, s') →
  store s' ≠ store s →
  (∀ c, store s' = Some c → yaml_ok E c = false) →
  out = Raise (SystemExit 1).
Proof.
  unfold finish, bind, append_to_summaries, validate_yaml, raise, lift, ret.
  destruct batch as [|b batch].
  - intros [= _ <-] Hne. congruence.
  - destruct (store s) as [c|] eqn:Hc; [|intros [= _ <-]; congruence].
    destruct (rmap _ (b :: batch)) as [entries|e] eqn:Hr; [|intros [= _ <-]; congruence].
    cbn [store]. destruct (yaml_ok E _) eqn:Hy.
    + intros [= _ <-] _ Hbad. cbn [store] in Hbad.
      rewrite (Hbad _ eq_refl) in Hy. discriminate.
    + intros [= <- _] _ _. reflexivity.
Qed.

(** C2. In a run that changed the file, that is, appended at least one
    record, when the text of the file behind the append is not valid YAML
    the process ends with [sys.exit(1)]: its exit status is 1, not 0, and
    it has not printed the two output lines. *)
Theorem validation_gate (dry_run : bool) (max_reviews : Z) (s s' : st W)
    (out : result (list string)) :
  main E dry_run max_reviews s = (out, s') →
  store s' ≠ store s →
  (∀ c, store s' = Some c → yaml_ok E c = false) →
  out = Raise (SystemExit 1) ∧ exit_status out = 1%Z ∧ ∀ lines, out ≠ Ok lines.
Proof.
  intros Hrun Hne Hbad.
  assert (Hout : out = Raise (SystemExit 1)); [|subst out; repeat split; discriminate].
  rewrite main_unfold in Hrun. pose proof (discover_keeps s) as Hd.
  destruct (discover E s) as [[reviews|e] s1]; simpl in Hd;
    [|injection Hrun as _ <-; congruence].
  destruct reviews as [|r0 reviews]; [injection Hrun as _ <-; congruence|].
  destruct (filter_new _ _) as [|n0 new]; [injection Hrun as _ <-; congruence|].
  destruct dry_run; [injection Hrun as _ <-; congruence|].
  unfold bind in Hrun.
  pose proof (process_all_keeps (slice_to (n0 :: new) max_reviews) s1) as Hp.
  destruct (process_all E _ s1) as [[batch|e] s2]; simpl in Hp;
    [|injection Hrun as _ <-; congruence].
  eapply finish_gate; eauto. congruence.
Qed.

Lemma process_all_app (a b : list review) (s0 : st W) :
  process_all E (a ++ b) s0
  = match process_all E a s0 with
    | (Ok b1, s) =>
        match process_all E b s with
        | (Ok b2, s3) => (Ok (b1 ++ b2)%list, s3)
        | (Raise e, s3) => (Raise e, s3)
        end
    | (Raise e, s) => (Raise e, s)
    end.
Proof.
  revert s0. induction a as [|r a IH]; intros s0.
  - simpl. unfold ret. destruct (process_all E b s0) as [[b2|e] s3]; reflexivity.
  - cbn [app process_all]. unfold bind, ret.
    destruct (process_review E r s0) as [[x|e] s1]; [|reflexivity].
    rewrite IH. destruct (process_all E a s1) as [[b1|e] s2]; [|reflexivity].
    destruct (process_all E b s2) as [[b2|e] s3]; destruct x; reflexivity.
Qed.

(** C3. When the page of a candidate was fetched and the object that the
    model's answer to the summarize prompt decodes to has a truthy skip
    flag: [summarize_review] returns [None]; the loop body is over right
    after that call of the model, before any enrichment call, with the file
    untouched; and the batch of a run over any list that holds the
    candidate is the batch of the candidates before it followed by the
    batch of the candidates after it. *)
Theorem skip_propagation (r : review) (s s1 : st W) (pls response m : string)
    (w' : W) (d : dict) :
  fetch_plain_language_summary E (url r) (cd_number r) s = (Ok (Some pls), s1) →
  Str.truthy pls = true →
  messages_create E (summarize_prompt_for E pls) 500 (world s1) = (Some response, w') →
  Str.truthy response = true →
  Re.search Re.match_brace response = Some m →
  json_loads E m = Some (VDict d) →
  get_truthy d "skip" = true →
  let s2 := {| world := w';
               trace := (trace s1 ++ [EvModel (summarize_prompt_for E pls) 500])%list;
               store := store s |} in
  summarize_review E pls s1 = (Ok None, s2)
  ∧ process_review E r s = (Ok None, s2)
  ∧ ∀ before after s0 b1,
      process_all E before s0 = (Ok b1, s) →
      process_all E (before ++ r :: after) s0
      = match process_all E after s2 with
        | (Ok b2, s3) => (Ok (b1 ++ b2)%list, s3)
        | (Raise e, s3) => (Raise e, s3)
        end.
Proof.
  intros Hfetch Hpls Hcall Hresp Hm Hj Hskip s2.
  assert (Hstore : store s1 = store s).
  { pose proof (fetch_keeps (url r) (cd_number r) s) as H. rewrite Hfetch in H. exact H. }
  assert (Hsum : summarize_review E pls s1 = (Ok None, s2)).
  { unfold summarize_review, call_claude, bind, call, lift. rewrite Hcall.
    cbn [otruthy]. rewrite Hresp. change (default "" (Some response)) with response.
    rewrite (parse_summary_skip _ _ _ Hm Hj Hskip). subst s2. rewrite Hstore.
    reflexivity. }
  assert (Hproc : process_review E r s = (Ok None, s2)).
  { unfold process_review, bind at 1. rewrite Hfetch. cbn [otruthy]. rewrite Hpls.
    change (default "" (Some pls)) with pls. unfold bind. rewrite Hsum. reflexivity. }
  split; [exact Hsum|]. split; [exact Hproc|].
  intros before after s0 b1 Hbefore.
  rewrite process_all_app, Hbefore. cbn [process_all]. unfold bind. rewrite Hproc.
  destruct (process_all E after s2) as [[b2|e] s3]; reflexivity.
Qed.

(** The part of C10 that holds.  For a non-negative [--max-reviews], a run
    that is not a dry run and has new reviews hands the loop the first
    max-reviews of them in discovery order and nothing else: the batch has
    at most max-reviews summaries, the loop requests pages of those
    reviews only, and what is appended to the file is one entry for each
    summary of the batch. *)
Lemma review_cap (max_reviews : Z) (s s1 : st W) (reviews : list review) :
  (0 ≤ max_reviews)%Z →
  discover E s = (Ok reviews, s1) →
  filter_new (existing_in (store s)) reviews ≠ [] →
  let cut := take (Z.to_nat max_reviews) (filter_new (existing_in (store s)) reviews) in
  main E false max_reviews s = bind (process_all E cut) (finish E) s1
  ∧ ∀ batch s2,
      process_all E cut s1 = (Ok batch, s2) →
      (Z.of_nat (length batch) ≤ max_reviews)%Z
      ∧ (∃ evs, trace s2 = (trace s1 ++ evs)%list
                ∧ Forall (λ ev, ∃ r, r ∈ cut ∧ about r ev) evs)
      ∧ ∀ out s3,
          finish E batch s2 = (out, s3) →
          store s3 = store s
          ∨ ∃ c entries,
              store s = Some c ∧ length entries = length batch
              ∧ store s3 = Some (c +:+ appended_text entries).
Proof.
  intros Hmax Hdisc Hnew cut. split.
  - rewrite main_unfold, Hdisc.
    destruct reviews as [|r0 reviews]; [exfalso; apply Hnew; reflexivity|].
    destruct (filter_new _ (r0 :: reviews)) as [|n0 new] eqn:Hf; [congruence|].
    unfold slice_to. destruct (Z.ltb_spec max_reviews 0); [lia|]. subst cut.
    reflexivity.
  - intros batch s2 Hbatch. split; [|split].
    + pose proof (process_all_length _ _ _ _ Hbatch) as Hlen.
      assert (length cut ≤ Z.to_nat max_reviews)%nat.
      { subst cut. rewrite length_take. lia. }
      lia.
    + destruct (process_all_emits cut s1) as (evs & Hevs & Hall).
      rewrite Hbatch in Hevs. eauto.
    + intros out s3 Hfin.
      assert (Hs2 : store s2 = store s).
      { pose proof (process_all_keeps cut s1) as H2. rewrite Hbatch in H2.
        pose proof (discover_keeps s) as H1. rewrite Hdisc in H1. simpl in *. congruence. }
      destruct (finish_appends _ _ _ _ Hfin) as [Hsame | (c & entries & Hc & Hr & Hs3)].
      * left. congruence.
      * right. exists c, entries. split; [congruence|].
        split; [eapply rmap_length; eauto | exact Hs3].
Qed.

(** *** The second run *)

Lemma rmap_elem {A B} (f : A → result B) (l : list A) (l' : list B) (x : A) :
  rmap f l = Ok l' → x ∈ l → ∃ y, y ∈ l' ∧ f x = Ok y.
Proof.
  revert l'. induction l as [|a l IH]; intros l' Hr Hin; [inversion Hin|].
  simpl in Hr. destruct (f a) as [b|] eqn:Hfa; simpl in Hr; [|discriminate].
  destruct (rmap f l) as [bs|]; simpl in Hr; [|discriminate].
  injection Hr as <-. apply elem_of_cons in Hin as [->|Hin].
  - exists b. split; [apply elem_of_cons; auto | exact Hfa].
  - destruct (IH bs eq_refl Hin) as (y & Hy & Hfy).
    exists y. split; [apply elem_of_cons; auto | exact Hfy].
Qed.

(** The stripped entry of a summary holds its url on a line of its own. *)
Lemma format_entry_url (d : dict) (e u : string) :
  format_entry E d = Ok e →
  dict_get d "url" = Some (VStr u) →
  Re.on_a_line u (Str.strip e).
Proof.
  intros He Hu. unfold format_entry in He. cbn [py_getitem] in He. rewrite Hu in He.
  destruct (dict_get d "question") as [q|]; [|discriminate].
  destruct (dict_get d "answer") as [a|]; [|discriminate].
  destruct (dict_get d "notes") as [n|]; [|discriminate].
  destruct (dict_get d "interest") as [i|]; [|discriminate].
  destruct (dict_get d "tags") as [t|]; [|discriminate].
  cbn [rbind py_str] in He.
  apply (f_equal (λ r, match r with Ok x => x | Raise _ => "" end)) in He.
  cbv beta iota in He. subst e. unfold Str.strip.
  change (Str.lstrip (Str.NL +:+ ?x)) with (Str.lstrip x).
  match goal with
  | |- Re.on_a_line _ (Str.rstrip (Str.lstrip ("- question: " +:+ ?x))) =>
      change (Str.lstrip ("- question: " +:+ x)) with ("- question: " +:+ x)
  end.
  set (tail := "  notes: |" +:+ _).
  assert (Htail : Str.rstrip tail ≠ "").
  { subst tail. change ("  notes: |" +:+ ?x) with (String " " (String " " ("notes: |" +:+ x))).
    rewrite !ReFacts.rstrip_cons; [discriminate | |];
      repeat first [apply ReFacts.rstrip_nonspace; reflexivity
                   | rewrite ReFacts.rstrip_cons; [discriminate|]]. }
  set (head := "- question: " +:+ json_dumps E q +:+ Str.NL
               +:+ "  answer: " +:+ json_dumps E a +:+ Str.NL +:+ "  url: ").
  exists head, (Str.rstrip tail).
  transitivity (Str.rstrip ((head +:+ u +:+ Str.NL) +:+ tail)).
  - f_equal. subst head. rewrite !ReFacts.append_assoc. reflexivity.
  - rewrite ReFacts.rstrip_app by exact Htail.
    rewrite !ReFacts.append_assoc. reflexivity.
Qed.

Lemma enrichment_keeps_url (sm enriched : dict) (response : string) (u : value) :
  parse_enrichment E sm response = Ok (Some enriched) →
  dict_get sm "url" = Some u → dict_get enriched "url" = Some u.
Proof.
  unfold parse_enrichment.
  destruct (Re.search Re.match_brace response) as [m|]; [|discriminate].
  destruct (json_loads E m) as [en|]; [|discriminate].
  destruct en; simpl; try discriminate. intros [= <-] Hu.
  rewrite !PyFacts.dict_get_set_ne by discriminate. exact Hu.
Qed.

(** A processed summary carries the url of its review. *)
Lemma process_review_url (r : review) (s s' : st W) (d : dict) :
  process_review E r s = (Ok (Some d), s') →
  dict_get d "url" = Some (VStr (url r)).
Proof.
  unfold process_review, bind.
  destruct (fetch_plain_language_summary E (url r) (cd_number r) s) as [[pls|e] s1];
    [|discriminate].
  destruct (otruthy pls); [|discriminate].
  destruct (summarize_review E (default "" pls) s1) as [[[[|kv sm]|]|e] s2];
    try discriminate.
  unfold enrich_summary, bind, lift.
  destruct (enrichment_prompt_for E _) as [p|e]; [|discriminate].
  destruct (call_claude E p 100 s2) as [[resp|e] s3]; [|discriminate].
  destruct (otruthy resp); unfold ret; [|discriminate].
  destruct (parse_enrichment E _ (default "" resp)) as [[[|kv' en]|]|e] eqn:Hen;
    try discriminate.
  intros [= <- _]. eapply enrichment_keeps_url; [exact Hen|].
  apply PyFacts.dict_get_set_eq.
Qed.

(** When the loop returns as many summaries as it was given reviews, each
    review has its summary in the batch. *)
Lemma process_all_complete (l : list review) (s s' : st W) (batch : list dict) :
  process_all E l s = (Ok batch, s') →
  length batch = length l →
  ∀ r, r ∈ l → ∃ d, d ∈ batch ∧ dict_get d "url" = Some (VStr (url r)).
Proof.
  revert s s' batch. induction l as [|r0 l IH]; intros s s' batch Hrun Hlen r Hin;
    [inversion Hin|].
  cbn [process_all] in Hrun. unfold bind, ret in Hrun.
  destruct (process_review E r0 s) as [[x|e] s1] eqn:Hr0; [|discriminate].
  destruct (process_all E l s1) as [[xs|e] s2] eqn:Hxs; [|discriminate].
  injection Hrun as <- <-.
  pose proof (process_all_length _ _ _ _ Hxs) as Hle.
  destruct x as [d0|]; [|simpl in Hlen; lia].
  simpl in Hlen. apply elem_of_cons in Hin as [->|Hin].
  - exists d0. split; [apply elem_of_cons; auto|]. eapply process_review_url; eauto.
  - destruct (IH _ _ _ Hxs ltac:(lia) r Hin) as (d & Hd & Hu).
    exists d. split; [apply elem_of_cons; auto | exact Hu].
Qed.

Lemma dedupe_subset (seen : list string) (l : list review) (r : review) :
  r ∈ dedupe seen l → r ∈ l.
Proof.
  revert seen. induction l as [|x l IH]; intros seen; simpl; [auto|].
  case_bool_decide.
  - intros H1. apply elem_of_cons. right. eapply IH; eauto.
  - intros [->|H1]%elem_of_cons; apply elem_of_cons; [auto | right; eapply IH; eauto].
Qed.

Lemma review_of_entry_cd (e : option string * option string) (r : review) :
  review_of_entry e = Some r → Re.search Re.match_cd (url r) = Some (cd_number r).
Proof.
  unfold review_of_entry. destruct (Re.search Re.match_cd (default "" e.1)) eqn:Hs;
    [|discriminate].
  intros [= <-]. exact Hs.
Qed.

Lemma review_of_link_cd (n : Dom.node) (r : review) :
  review_of_link n = Some r → Re.search Re.match_cd (url r) = Some (cd_number r).
Proof.
  unfold review_of_link. destruct (Dom.attr_of "href" n) as [href|]; [|discriminate].
  destruct (Re.search Re.match_cd href) as [cd|] eqn:Hs; [|discriminate].
  destruct (Str.startswith "/" href) eqn:Hsl; intros [= <-]; [|exact Hs].
  destruct href as [|c h]; cbn [Str.startswith] in Hsl; [discriminate|].
  destruct (Ascii.eqb_spec "/" c) as [<-|]; [|discriminate].
  exact Hs.
Qed.

(** The CD number of a discovered review is the first one in its url. *)
Lemma discover_cd (s s1 : st W) (reviews : list review) (r : review) :
  discover E s = (Ok reviews, s1) → r ∈ reviews →
  Re.search Re.match_cd (url r) = Some (cd_number r).
Proof.
  unfold discover, fetch_rss_reviews, scrape_news_page, bind, call, ret.
  destruct (feedparser_parse E RSS_URL (world s)) as [feed w1].
  set (rss := match feed with Some entries => omap review_of_entry entries | None => [] end).
  assert (Hrss : ∀ x, x ∈ rss → Re.search Re.match_cd (url x) = Some (cd_number x)).
  { subst rss. destruct feed as [entries|]; [|intros x []%elem_of_nil].
    intros x Hx. apply list_elem_of_omap in Hx as (e & _ & He).
    eapply review_of_entry_cd; eauto. }
  destruct rss as [|r0 rss'] eqn:Hr.
  - cbn [world]. destruct (requests_get E NEWS_URL w1) as [resp w2].
    intros [= <- _] Hin. destruct resp as [resp|]; [|inversion Hin].
    destruct (_ && _); [inversion Hin|].
    apply dedupe_subset in Hin. apply list_elem_of_omap in Hin as (n & _ & Hn).
    eapply review_of_link_cd; eauto.
  - intros [= <- _] Hin. apply Hrss. exact Hin.
Qed.

Lemma existing_grows (c entries_text : string) (m : string) :
  m ∈ existing_in (Some c) → m ∈ existing_in (Some (c +:+ marker +:+ entries_text)).
Proof.
  unfold existing_in, Re.findall. apply ReFacts.findall_from_app; reflexivity.
Qed.

Lemma finish_ok (batch : list dict) (s s' : st W) (out : list string) :
  finish E batch s = (Ok out, s') →
  (batch = [] ∧ store s' = store s)
  ∨ ∃ c entries,
      store s = Some c
      ∧ rmap (λ d, rbind (format_entry E d) (λ e, Ok (Str.strip e))) batch = Ok entries
      ∧ store s' = Some (c +:+ appended_text entries).
Proof.
  intros Hfin. destruct (finish_appends _ _ _ _ Hfin) as [Hsame|H]; [|right; exact H].
  destruct batch as [|b batch]; [left; auto|]. exfalso.
  revert Hfin Hsame.
  unfold finish, bind, append_to_summaries, validate_yaml, raise, lift, ret.
  destruct (store s) as [c|] eqn:Hc; [|discriminate].
  destruct (rmap _ (b :: batch)) as [entries|e]; [|discriminate].
  cbn [store]. destruct (yaml_ok E _); [|discriminate].
  intros [= _ <-]. cbn [store]. intros [= Heq].
  apply (f_equal String.length) in Heq. revert Heq.
  unfold appended_text, marker. rewrite !ReFacts.append_length. simpl. lia.
Qed.

(** C1, as the code has it.  Take a run of [main] that discovered
    [reviews], processed its new ones up to the cap and reported success.
    A discovered review whose record is in the appended batch has its CD
    number among those read back from the file; and when the run appended
    a record for each of its new reviews, a second run on that file that
    discovers the same reviews finds none of them new and returns without
    touching the file. *)
Theorem second_run_adds_nothing (max_reviews : Z) (s s1 s2 s3 : st W)
    (reviews : list review) (batch : list dict) (out : list string) :
  discover E s = (Ok reviews, s1) →
  process_all E (slice_to (filter_new (existing_in (store s)) reviews) max_reviews) s1
  = (Ok batch, s2) →
  finish E batch s2 = (Ok out, s3) →
  (filter_new (existing_in (store s)) reviews ≠ [] →
   main E false max_reviews s = (Ok out, s3))
  ∧ (∀ r d, r ∈ reviews → d ∈ batch → dict_get d "url" = Some (VStr (url r)) →
            cd_number r ∈ existing_in (store s3))
  ∧ (length batch = length (filter_new (existing_in (store s)) reviews) →
     ∀ (dry_run : bool) (max_reviews' : Z) (t t1 : st W),
       store t = store s3 →
       discover E t = (Ok reviews, t1) →
       filter_new (existing_in (store t)) reviews = []
       ∧ main E dry_run max_reviews' t = (Ok [], t1)
       ∧ store t1 = store s3).
Proof.
  intros Hdisc Hproc Hfin.
  assert (Hs2 : store s2 = store s).
  { pose proof (process_all_keeps
                  (slice_to (filter_new (existing_in (store s)) reviews) max_reviews) s1)
      as H2.
    rewrite Hproc in H2.
    pose proof (discover_keeps s) as H1. rewrite Hdisc in H1. simpl in *. congruence. }
  assert (Hpart : ∀ r d, r ∈ reviews → d ∈ batch →
            dict_get d "url" = Some (VStr (url r)) →
            cd_number r ∈ existing_in (store s3)).
  { intros r d Hr Hd Hu.
    destruct (finish_ok _ _ _ _ Hfin) as [[-> _] | (c & entries & Hc & Hmap & Hs3)];
      [inversion Hd|].
    destruct (rmap_elem _ _ _ _ Hmap Hd) as (y & Hy & Hfy).
    destruct (format_entry E d) as [e|] eqn:He; [|discriminate].
    injection Hfy as <-. rewrite Hs3. unfold existing_in.
    eapply ReFacts.findall_url; [eapply discover_cd; eauto|].
    unfold appended_text.
    apply ReFacts.on_a_line_after, ReFacts.on_a_line_wrap.
    eapply ReFacts.on_a_line_join; [exact Hy|].
    eapply format_entry_url; eauto. }
  split; [|split; [exact Hpart|]].
  { intros Hnew. rewrite main_unfold, Hdisc.
    destruct reviews as [|r0 reviews]; [exfalso; apply Hnew; reflexivity|].
    destruct (filter_new _ (r0 :: reviews)) as [|n0 new]; [congruence|].
    unfold bind. rewrite Hproc. exact Hfin. }
  intros Hlen dry_run max_reviews' t t1 Ht Hdisc2.
  set (new1 := filter_new (existing_in (store s)) reviews) in *.
  assert (Hcut : slice_to new1 max_reviews = new1).
  { pose proof (process_all_length _ _ _ _ Hproc) as Hle. rewrite Hlen in Hle.
    unfold slice_to in *. destruct (max_reviews <? 0)%Z;
      apply take_ge; rewrite length_take in Hle; lia. }
  rewrite Hcut in Hproc.
  assert (Hnone : filter_new (existing_in (store t)) reviews = []).
  { unfold filter_new. apply elem_of_nil_inv. intros r [Hnew Hr]%list_elem_of_filter.
    apply Hnew. rewrite Ht.
    destruct (decide (cd_number r ∈ existing_in (store s))) as [Hold|Hfresh].
    - destruct (finish_ok _ _ _ _ Hfin) as [[_ Hsame] | (c & entries & Hc & _ & Hs3)].
      + congruence.
      + rewrite Hs3. rewrite Hs2 in Hc. rewrite Hc in Hold.
        unfold appended_text. apply existing_grows. exact Hold.
    - assert (Hin : r ∈ new1).
      { subst new1. unfold filter_new. apply list_elem_of_filter. auto. }
      destruct (process_all_complete _ _ _ _ Hproc Hlen r Hin) as (d & Hd & Hu).
      eapply Hpart; eauto. }
  split; [exact Hnone|].
  pose proof (discover_keeps t) as Hk. rewrite Hdisc2 in Hk. simpl in Hk.
  split; [|congruence].
  rewrite main_unfold, Hdisc2, Hnone. destruct reviews; reflexivity.
Qed.

End Facts.

(** A run of [second_run_adds_nothing]: both new reviews are appended by
    the first run, the second run finds nothing new. *)
Lemma second_run_adds_nothing_witness :
  let E := Demo.env Demo.feed2 true in
  let reviews := [Demo.review "CD000001" "First"; Demo.review "CD000002" "Second"] in
  let run1 := main E false 10 (Demo.start (Some "- url: x")) in
  let t := Demo.start (store (snd run1)) in
  let t1 := Demo.after_feed (store (snd run1)) in
  filter_new (existing_in (store t)) reviews = []
  ∧ main E false 10 t = (Ok [], t1)
  ∧ store t1 = store (snd run1).
Proof.
  cbv zeta.
  set (E := Demo.env Demo.feed2 true).
  set (reviews := [Demo.review "CD000001" "First"; Demo.review "CD000002" "Second"]).
  set (s := Demo.start (Some "- url: x")).
  set (s1 := Demo.after_feed (Some "- url: x")).
  set (loop := process_all E (slice_to (filter_new (existing_in (store s)) reviews) 10) s1).
  set (batch := Demo.ok_or [] (fst loop)).
  set (last := finish E batch (snd loop)).
  refine (proj2 (proj2 (second_run_adds_nothing E 10%Z s s1 (snd loop) (snd last)
                          reviews batch (Demo.ok_or [] (fst last)) _ _ _))
            _ false 10%Z _ _ _ _);
    vm_compute; reflexivity.
Defined.

(** C1 as stated fails: with two new reviews and a cap of one, the first
    run appends the record of the first review; the second run, on the same
    feed, finds the second review still new and appends its record. *)
Lemma second_run_appends_more :
  let E := Demo.env Demo.feed2 true in
  let run1 := main E false 1 (Demo.start (Some "- url: x")) in
  let run2 := main E false 1 (Demo.start (store (snd run1))) in
  fst run1 = Ok ["::set-output name=count::1";
                 "::set-output name=reviews::" +:+ Demo.feed_link "CD000001"]
  ∧ existing_in (store (snd run1)) = ["CD000001"]
  ∧ fst (discover E (Demo.start (store (snd run1))))
    = fst (discover E (Demo.start (Some "- url: x")))
  ∧ fst run2 = Ok ["::set-output name=count::1";
                   "::set-output name=reviews::" +:+ Demo.feed_link "CD000002"]
  ∧ existing_in (store (snd run2)) = ["CD000001"; "CD000002"]
  ∧ store (snd run2) ≠ store (snd run1).
Proof.
  cbv zeta. repeat split; try (vm_compute; reflexivity).
  vm_compute. discriminate.
Qed.

(** A run of [validation_gate]: one record is appended and the YAML
    library rejects the file. *)
Lemma validation_gate_witness :
  fst (main (Demo.env Demo.feed2 false) false 1 (Demo.start (Some "- url: x")))
  = Raise (SystemExit 1).
Proof.
  refine (proj1 (validation_gate (Demo.env Demo.feed2 false) false 1
            (Demo.start (Some "- url: x"))
            (snd (main (Demo.env Demo.feed2 false) false 1 (Demo.start (Some "- url: x"))))
            (fst (main (Demo.env Demo.feed2 false) false 1 (Demo.start (Some "- url: x"))))
            _ _ _)).
  - vm_compute. reflexivity.
  - vm_compute. discriminate.
  - intros c _. reflexivity.
Defined.

(** A run of [skip_propagation]: the first of two candidates is skipped,
    the batch holds the record of the second only. *)
Lemma skip_propagation_witness :
  let E := Demo.env Demo.feed_skip true in
  let r := {| cd_number := "CD000003"; url := Demo.feed_link "CD000003"; title := "Protocol" |} in
  let s := Demo.start (Some "- url: x") in
  let s2 := {| world := tt;
               trace := [EvGet "https://www.cochrane.org/CD000003";
                         EvModel "Summarise: A protocol, skipme." 500];
               store := Some "- url: x" |} in
  summarize_review E "A protocol, skipme."
    {| world := tt; trace := [EvGet "https://www.cochrane.org/CD000003"];
       store := Some "- url: x" |} = (Ok None, s2)
  ∧ process_review E r s = (Ok None, s2)
  ∧ ∀ before after s0 b1,
      process_all E before s0 = (Ok b1, s) →
      process_all E (before ++ r :: after) s0
      = match process_all E after s2 with
        | (Ok b2, s3) => (Ok (b1 ++ b2)%list, s3)
        | (Raise e, s3) => (Raise e, s3)
        end.
Proof.
  cbv zeta.
  apply (skip_propagation (Demo.env Demo.feed_skip true)
           {| cd_number := "CD000003"; url := Demo.feed_link "CD000003"; title := "Protocol" |}
           (Demo.start (Some "- url: x"))
           {| world := tt; trace := [EvGet "https://www.cochrane.org/CD000003"];
              store := Some "- url: x" |}
           "A protocol, skipme." "No results yet: {skip}" "{skip}" tt
           [("skip", VBool true); ("reason", VStr "protocol")]);
    reflexivity.
Defined.

(** A run of [review_cap]: two new reviews, a cap of one. *)
Lemma review_cap_witness :
  let E := Demo.env Demo.feed2 true in
  let s := Demo.start (Some "- url: x") in
  let s1 := Demo.after_feed (Some "- url: x") in
  let cut := take (Z.to_nat 1)
               (filter_new (existing_in (store s))
                  [Demo.review "CD000001" "First"; Demo.review "CD000002" "Second"]) in
  main E false 1 s = bind (process_all E cut) (finish E) s1
  ∧ ∀ batch s2,
      process_all E cut s1 = (Ok batch, s2) →
      (Z.of_nat (length batch) ≤ 1)%Z
      ∧ (∃ evs, trace s2 = (trace s1 ++ evs)%list
                ∧ Forall (λ ev, ∃ r, r ∈ cut ∧ about r ev) evs)
      ∧ ∀ out s3,
          finish E batch s2 = (out, s3) →
          store s3 = store s
          ∨ ∃ c entries,
              store s = Some c ∧ length entries = length batch
              ∧ store s3 = Some (c +:+ appended_text entries).
Proof.
  apply (review_cap (Demo.env Demo.feed2 true) 1 (Demo.start (Some "- url: x"))
           (Demo.after_feed (Some "- url: x"))
           [Demo.review "CD000001" "First"; Demo.review "CD000002" "Second"]).
  - lia.
  - reflexivity.
  - vm_compute. discriminate.
Defined.

(** C10 fails on the code for a negative [--max-reviews], which the
    argument parser accepts as it accepts any integer: with two new
    reviews and a cap of -1 the slice keeps all but the last review, the
    kept review is fetched and summarised and its record is appended, and
    one record is more than the cap allows. *)
Lemma negative_cap_exceeded :
  let E := Demo.env Demo.feed2 true in
  let new_reviews := [Demo.review "CD000001" "First"; Demo.review "CD000002" "Second"] in
  let run := main E false (-1) (Demo.start (Some "- url: x")) in
  fst (discover E (Demo.start (Some "- url: x"))) = Ok new_reviews
  ∧ filter_new (existing_in (Some "- url: x")) new_reviews = new_reviews
  ∧ slice_to new_reviews (-1) = [Demo.review "CD000001" "First"]
  ∧ fst run = Ok ["::set-output name=count::1";
                  "::set-output name=reviews::" +:+ Demo.feed_link "CD000001"]
  ∧ existing_in (store (snd run)) = ["CD000001"]
  ∧ ¬ (1 ≤ -1)%Z.
Proof.
  cbv zeta. repeat split; try (vm_compute; reflexivity). lia.
Qed.


(** And an answer whose first brace group does not decode gives nothing,
    though a later group would decode. *)
Example later_group_not_tried :
  parse_summary (Demo.env [] true) "see {x} then {summary}" = Ok None
  ∧ Demo.json_loads "{summary}" ≠ None.
Proof. split; [reflexivity | discriminate]. Qed.

End UpdateCochraneFacts.

(** * Further properties *)

(** ** Discovery and extraction ([update_cochrane.py]) *)

Module UpdateCochraneMore.
Import Py UpdateCochrane Shape.

Lemma dedupe_fresh (seen : list string) (l : list review) (r : review) :
  r ∈ dedupe seen l → cd_number r ∉ seen.
Proof.
  revert seen. induction l as [|x l IH]; intros seen; simpl.
  - intros []%elem_of_nil.
  - case_bool_decide as Hx; [apply IH|].
    intros [->|Hin]%elem_of_cons; [exact Hx|].
    apply IH in Hin. intros Hs. apply Hin. apply elem_of_cons. auto.
Qed.

Lemma dedupe_distinct (seen : list string) (l : list review) :
  NoDup (map cd_number (dedupe seen l)).
Proof.
  revert seen. induction l as [|x l IH]; intros seen; simpl; [constructor|].
  case_bool_decide as Hx; [apply IH|]. simpl. constructor; [|apply IH].
  change (cd_number x ∉ cd_number <$> dedupe (cd_number x :: seen) l).
  intros (r & Heq & Hr)%list_elem_of_fmap.
  apply dedupe_fresh in Hr. apply Hr. rewrite <- Heq. apply elem_of_cons. auto.
Qed.

Lemma dedupe_sublist (seen : list string) (l : list review) :
  sublist (dedupe seen l) l.
Proof.
  revert seen. induction l as [|x l IH]; intros seen; simpl; [constructor|].
  case_bool_decide; [apply sublist_cons | apply sublist_skip]; apply IH.
Qed.

Lemma dedupe_first (seen : list string) (pre post : list review) (r : review) :
  cd_number r ∉ seen →
  (∀ x, x ∈ pre → cd_number x ≠ cd_number r) →
  r ∈ dedupe seen (pre ++ r :: post).
Proof.
  revert seen. induction pre as [|x pre IH]; intros seen Hs Hpre; simpl.
  - rewrite bool_decide_eq_false_2 by exact Hs. apply elem_of_cons. auto.
  - assert (Hx : cd_number x ≠ cd_number r) by (apply Hpre, elem_of_cons; auto).
    assert (Hrest : ∀ y, y ∈ pre → cd_number y ≠ cd_number r)
      by (intros; apply Hpre, elem_of_cons; auto).
    case_bool_decide; [apply IH; auto|].
    apply elem_of_cons. right. apply IH; [|exact Hrest].
    intros [?|?]%elem_of_cons; congruence.
Qed.

(** X4. The deduplication of [scrape_news_page]: the CD numbers of the result
    are pairwise distinct, the result keeps the order of the links, and of
    the links with one CD number it is the first that stays. *)
Theorem news_links_deduplicated (links : list review) :
  NoDup (map cd_number (dedupe [] links))
  ∧ sublist (dedupe [] links) links
  ∧ ∀ pre r post,
      links = (pre ++ r :: post)%list →
      (∀ x, x ∈ pre → cd_number x ≠ cd_number r) →
      r ∈ dedupe [] links.
Proof.
  split; [apply dedupe_distinct|]. split; [apply dedupe_sublist|].
  intros pre r post -> Hpre. apply dedupe_first; [apply not_elem_of_nil | exact Hpre].
Qed.

(** A run of [news_links_deduplicated]: the second link to CD000001 goes. *)
Lemma news_links_deduplicated_witness :
  let a := {| cd_number := "CD000001"; url := "u1"; title := "a" |} in
  let b := {| cd_number := "CD000001"; url := "u2"; title := "b" |} in
  let c := {| cd_number := "CD000002"; url := "u3"; title := "c" |} in
  c ∈ dedupe [] [a; b; c] ∧ dedupe [] [a; b; c] = [a; c].
Proof.
  cbv zeta. split; [|reflexivity].
  refine (proj2 (proj2 (news_links_deduplicated _)) [_; _] _ [] eq_refl _).
  intros x Hx. apply elem_of_cons in Hx as [->|Hx]; [discriminate|].
  apply elem_of_cons in Hx as [->|Hx]; [discriminate | inversion Hx].
Defined.

Lemma findall_from_sound (k : nat) (s x : string) :
  x ∈ Re.findall_from Re.match_cd k s →
  ∃ pre post, s = pre +:+ x +:+ post ∧ Re.no_digit_ahead post.
Proof.
  revert k. induction s as [|c r IH]; intros k.
  - simpl. intros []%elem_of_nil.
  - assert (Hlater : ∀ k', x ∈ Re.findall_from Re.match_cd k' r →
              ∃ pre post, String c r = pre +:+ x +:+ post ∧ Re.no_digit_ahead post).
    { intros k' (pre & post & -> & Hpost)%IH. exists (String c pre), post.
      split; [reflexivity | exact Hpost]. }
    cbn [Re.findall_from]. destruct k as [|k]; [|apply Hlater].
    destruct (Re.match_cd (String c r)) as [y|] eqn:Hy; [|apply Hlater].
    intros [->|Hin]%elem_of_cons; [|eapply Hlater; exact Hin].
    destruct (ReFacts.match_cd_form _ _ Hy) as (ds & rest & Hs & -> & _ & _ & Hrest).
    exists "", rest. split; [|exact Hrest].
    rewrite Hs. change ("" +:+ ?a) with a. symmetry. apply ReFacts.append_assoc.
Qed.

(** X1. Which reviews [main] takes for new: a discovered review is kept by
    the filter exactly when the text of the file has no occurrence of its
    CD number that ends there, one not followed by a further digit.  The
    check is on the whole text of the file, not on its url items. *)
Theorem new_review_by_text (content ds : string) (reviews : list review) (r : review) :
  cd_number r = "CD" +:+ ds → ds ≠ "" → Re.all Str.is_digit ds = true →
  r ∈ filter_new (existing_in (Some content)) reviews
  ↔ r ∈ reviews
    ∧ ¬ ∃ pre post, content = pre +:+ cd_number r +:+ post ∧ Re.no_digit_ahead post.
Proof.
  intros Hcd Hne Hall. unfold filter_new. rewrite list_elem_of_filter.
  assert (Hiff : cd_number r ∈ existing_in (Some content)
                 ↔ ∃ pre post, content = pre +:+ cd_number r +:+ post
                               ∧ Re.no_digit_ahead post).
  { unfold existing_in, Re.findall. split; [apply findall_from_sound|].
    intros (pre & post & -> & Hpost). rewrite Hcd.
    rewrite ReFacts.append_assoc.
    apply ReFacts.findall_from_occurrence; auto. lia. }
  rewrite Hiff. tauto.
Qed.

(** [new_review_by_text] on a file that names CD000001 in a note. *)
Lemma new_review_by_text_witness :
  let r := Demo.review "CD000001" "First" in
  let content := "  notes: |" +:+ Str.NL +:+ "    Updates CD000001." +:+ Str.NL in
  r ∈ filter_new (existing_in (Some content)) [r]
  ↔ r ∈ [r]
    ∧ ¬ ∃ pre post, content = pre +:+ cd_number r +:+ post ∧ Re.no_digit_ahead post.
Proof.
  intros r content. apply (new_review_by_text content "000001" [r] r).
  - reflexivity.
  - vm_compute. discriminate.
  - reflexivity.
Defined.

Section Facts.
Context {W : Type} (E : Env W).

Lemma review_of_link_absolute (n : Dom.node) (r : review) :
  review_of_link n = Some r → Str.startswith "/" (url r) = false.
Proof.
  unfold review_of_link. destruct (Dom.attr_of "href" n) as [href|]; [|discriminate].
  destruct (Re.search Re.match_cd href) as [cd|]; [|discriminate].
  destruct (Str.startswith "/" href) eqn:Hsl; intros [= <-]; [reflexivity | exact Hsl].
Qed.

(** X3. What [scrape_news_page] returns: one request for the news page and
    no change of the file; reviews with pairwise distinct CD numbers, each
    the first CD number of its url, and no url left relative to the site. *)
Theorem news_page_reviews (s s' : st W) (reviews : list review) :
  scrape_news_page E s = (Ok reviews, s') →
  trace s' = (trace s ++ [EvGet NEWS_URL])%list
  ∧ store s' = store s
  ∧ NoDup (map cd_number reviews)
  ∧ Forall (λ r, Re.search Re.match_cd (url r) = Some (cd_number r)
                 ∧ Str.startswith "/" (url r) = false) reviews.
Proof.
  unfold scrape_news_page, bind, call, ret.
  destruct (requests_get E NEWS_URL (world s)) as [resp w1].
  intros [= <- <-]. split; [reflexivity|]. split; [reflexivity|].
  destruct resp as [resp|]; [|split; constructor].
  destruct (_ && _); [split; constructor|].
  split; [apply dedupe_distinct|].
  apply Forall_forall. intros r Hr.
  apply UpdateCochraneFacts.dedupe_subset in Hr.
  apply list_elem_of_omap in Hr as (n & _ & Hn).
  split; [eapply UpdateCochraneFacts.review_of_link_cd | eapply review_of_link_absolute];
    eauto.
Qed.

(** X2. Discovery asks the feed first.  When the feed gives a review, these
    are the reviews discovered and the news page is not requested; when it
    gives none, or its parser raises, the news page is requested next and
    its reviews are the ones discovered. *)
Theorem discover_feed_first (s : st W)
    (feed : option (list (option string * option string))) (w1 : W) :
  feedparser_parse E RSS_URL (world s) = (feed, w1) →
  (feed_reviews feed ≠ [] →
   discover E s = (Ok (feed_reviews feed), after s w1 [EvFeed RSS_URL]))
  ∧ (feed_reviews feed = [] →
     discover E s = scrape_news_page E (after s w1 [EvFeed RSS_URL])
     ∧ trace (snd (discover E s)) = (trace s ++ [EvFeed RSS_URL; EvGet NEWS_URL])%list).
Proof.
  intros Hfeed. unfold discover, fetch_rss_reviews, bind, call, ret.
  rewrite Hfeed.
  change (match feed with Some entries => omap review_of_entry entries | None => [] end)
    with (feed_reviews feed).
  change {| world := w1; trace := (trace s ++ [EvFeed RSS_URL])%list; store := store s |}
    with (after s w1 [EvFeed RSS_URL]).
  split.
  - intros Hne. destruct (feed_reviews feed); [congruence | reflexivity].
  - intros ->. split; [reflexivity|].
    unfold scrape_news_page, bind, call, ret.
    destruct (requests_get E NEWS_URL _) as [resp w2]. cbn [snd trace after].
    rewrite <- app_assoc. reflexivity.
Qed.

Lemma try_urls_first (u : string) (rest : list string) (last : option response)
    (s : st W) (resp : response) (w1 : W) :
  requests_get E u (world s) = (Some resp, w1) →
  status_code resp = 200%Z →
  try_urls E (u :: rest) last s = (Ok (Some resp), after s w1 [EvGet u]).
Proof.
  intros Hget Hst. cbn [try_urls]. unfold bind, call. rewrite Hget, Hst. reflexivity.
Qed.

Lemma try_urls_next (u : string) (rest : list string) (last : option response)
    (s : st W) (r : option response) (w1 : W) :
  requests_get E u (world s) = (r, w1) →
  not_200 r →
  try_urls E (u :: rest) last s
  = try_urls E rest (match r with Some resp => Some resp | None => last end)
      (after s w1 [EvGet u]).
Proof.
  intros Hget Hst. cbn [try_urls]. unfold bind, call. rewrite Hget.
  destruct r as [resp|]; [|reflexivity]. simpl in Hst.
  destruct (Z.eqb_spec (status_code resp) 200); [contradiction | reflexivity].
Qed.

(** X5. The page of a review is asked for under its cochrane.org address
    first; when that request answers 200, the text is extracted from its
    page and the address from the feed is never requested. *)
Theorem canonical_page_first (url cd : string) (s : st W) (resp : response) (w1 : W) :
  Str.truthy cd = true →
  requests_get E ("https://www.cochrane.org/" +:+ cd) (world s) = (Some resp, w1) →
  status_code resp = 200%Z →
  fetch_plain_language_summary E url cd s
  = (Ok (extract_summary (html_parse E (text resp))),
     after s w1 [EvGet ("https://www.cochrane.org/" +:+ cd)]).
Proof.
  intros Hcd Hget Hst. unfold fetch_plain_language_summary. rewrite Hcd.
  cbv zeta. unfold bind. cbn [app].
  rewrite (try_urls_first _ _ _ _ _ _ Hget Hst), Hst. reflexivity.
Qed.

(** X6. When the cochrane.org address does not answer 200, the address from
    the feed is requested next: its page is used when it answers 200, and
    otherwise, whether it raised or answered another status, there is no
    text, and no page is parsed. *)
Theorem feed_page_second (url cd : string) (s : st W)
    (r1 r2 : option response) (w1 w2 : W) :
  Str.truthy cd = true →
  requests_get E ("https://www.cochrane.org/" +:+ cd) (world s) = (r1, w1) →
  not_200 r1 →
  requests_get E url w1 = (r2, w2) →
  fetch_plain_language_summary E url cd s
  = (Ok (match r2 with
         | Some resp =>
             if (status_code resp =? 200)%Z
             then extract_summary (html_parse E (text resp)) else None
         | None => None
         end),
     after s w2 [EvGet ("https://www.cochrane.org/" +:+ cd); EvGet url]).
Proof.
  intros Hcd Hget1 Hno1 Hget2. unfold fetch_plain_language_summary. rewrite Hcd.
  cbv zeta. unfold bind at 1. cbn [app].
  rewrite (try_urls_next _ _ _ _ _ _ Hget1 Hno1). cbn [try_urls].
  unfold bind at 1, call. cbn [world after]. rewrite Hget2. unfold after. cbn [trace store].
  rewrite <- app_assoc. cbn [app].
  destruct r2 as [resp2|].
  - destruct (Z.eqb_spec (status_code resp2) 200) as [H200|Hn].
    + unfold ret. rewrite H200. reflexivity.
    + unfold ret. destruct (Z.eqb_spec (status_code resp2) 200); [contradiction|].
      reflexivity.
  - unfold ret. destruct r1 as [resp1|]; [|reflexivity]. simpl in Hno1.
    destruct (Z.eqb_spec (status_code resp1) 200); [contradiction | reflexivity].
Qed.

(** *** One turn of the loop of [main] *)

Lemma try_urls_trace (urls : list string) (last : option response) (s : st W) :
  urls ≠ [] →
  ∃ k, (0 < k ≤ length urls)%nat
       ∧ trace (snd (try_urls E urls last s)) = (trace s ++ map EvGet (take k urls))%list.
Proof.
  revert last s. induction urls as [|u rest IH]; intros last s Hne; [congruence|].
  cbn [try_urls]. unfold bind, call.
  destruct (requests_get E u (world s)) as [r w1].
  set (s1 := {| world := w1; trace := (trace s ++ [EvGet u])%list; store := store s |}).
  assert (Hone : ∀ x : result (option response),
            ∃ k, (0 < k ≤ length (u :: rest))%nat
                 ∧ trace (snd (x, s1)) = (trace s ++ map EvGet (take k (u :: rest)))%list).
  { intros x. exists 1%nat. simpl. split; [lia | reflexivity]. }
  assert (Hmore : ∀ last', rest ≠ [] →
            ∃ k, (0 < k ≤ length (u :: rest))%nat
                 ∧ trace (snd (try_urls E rest last' s1))
                   = (trace s ++ map EvGet (take k (u :: rest)))%list).
  { intros last' Hr. destruct (IH last' s1 Hr) as (k & Hk & Htr).
    exists (S k). simpl. split; [lia|]. rewrite Htr. subst s1. simpl.
    rewrite <- app_assoc. reflexivity. }
  destruct r as [resp|].
  - destruct (status_code resp =? 200)%Z; [apply Hone|].
    destruct rest as [|u2 rest]; [apply Hone | apply Hmore; discriminate].
  - destruct rest as [|u2 rest]; [apply Hone | apply Hmore; discriminate].
Qed.

Lemma fetch_trace (r : review) (s : st W) :
  ∃ gets, page_requests r gets
          ∧ trace (snd (fetch_plain_language_summary E (url r) (cd_number r) s))
            = (trace s ++ gets)%list.
Proof.
  destruct (try_urls_trace (urls_to_try r) None s) as (k & Hk & Htr).
  { unfold urls_to_try. destruct (Str.truthy (cd_number r)); discriminate. }
  exists (map EvGet (take k (urls_to_try r))). split; [exists k; auto|].
  rewrite <- Htr. unfold fetch_plain_language_summary. cbv zeta.
  fold (urls_to_try r). unfold bind.
  destruct (try_urls E (urls_to_try r) None s) as [[[resp|]|e] s1]; try reflexivity.
  destruct (status_code resp =? 200)%Z; reflexivity.
Qed.

Lemma summarize_trace (pls : string) (s : st W) :
  trace (snd (summarize_review E pls s))
  = (trace s ++ [EvModel (summarize_prompt_for E pls) 500])%list.
Proof.
  unfold summarize_review, call_claude, bind, call, lift, ret.
  destruct (messages_create E _ 500 (world s)) as [resp w1].
  destruct (otruthy resp); reflexivity.
Qed.

Lemma enrich_trace (d : dict) (s : st W) :
  (∃ e, enrich_summary E d s = (Raise e, s))
  ∨ ∃ q, trace (snd (enrich_summary E d s)) = (trace s ++ [EvModel q 100])%list.
Proof.
  unfold enrich_summary, call_claude, bind, call, lift, ret.
  destruct (enrichment_prompt_for E d) as [p|e]; [|left; eauto].
  right. exists p. destruct (messages_create E p 100 (world s)) as [resp w1].
  destruct (otruthy resp); reflexivity.
Qed.

(** The loop body of [main], case by case. *)
Lemma process_review_cases (r : review) (s : st W) :
  process_review E r s
  = match fetch_plain_language_summary E (url r) (cd_number r) s with
    | (Ok (Some pls), s1) =>
        if Str.truthy pls then
          match summarize_review E pls s1 with
          | (Ok (Some (kv :: sm)), s2) =>
              match enrich_summary E (dict_set (kv :: sm) "url" (VStr (url r))) s2 with
              | (Ok (Some (kv' :: en)), s3) => (Ok (Some (kv' :: en)), s3)
              | (Ok _, s3) => (Ok None, s3)
              | (Raise e, s3) => (Raise e, s3)
              end
          | (Ok _, s2) => (Ok None, s2)
          | (Raise e, s2) => (Raise e, s2)
          end
        else (Ok None, s1)
    | (Ok None, s1) => (Ok None, s1)
    | (Raise e, s1) => (Raise e, s1)
    end.
Proof.
  unfold process_review, bind, ret.
  destruct (fetch_plain_language_summary E (url r) (cd_number r) s) as [[[pls|]|e] s1];
    try reflexivity.
  cbn [otruthy]. destruct (Str.truthy pls); [|reflexivity].
  change (default "" (Some pls)) with pls.
  destruct (summarize_review E pls s1) as [[[[|kv sm]|]|e] s2]; try reflexivity.
  destruct (enrich_summary E _ s2) as [[[[|kv' en]|]|e] s3]; reflexivity.
Qed.

(** X10. What one turn of the loop asks of the outside: the page of the review
    under at most its two addresses, then no call of the model, or the
    summarize call, or the summarize call followed by the enrichment call.
    The model is called only when a non-empty text was fetched, and a
    summary is returned only behind both calls. *)
Theorem review_calls (r : review) (s : st W) :
  ∃ gets models,
    trace (snd (process_review E r s)) = (trace s ++ gets ++ models)%list
    ∧ page_requests r gets
    ∧ model_calls models
    ∧ (models ≠ [] →
       ∃ pls, fst (fetch_plain_language_summary E (url r) (cd_number r) s) = Ok (Some pls)
              ∧ Str.truthy pls = true)
    ∧ (∀ d, fst (process_review E r s) = Ok (Some d) →
            ∃ p q, models = [EvModel p 500; EvModel q 100]).
Proof.
  destruct (fetch_trace r s) as (gets & Hgets & Htr). exists gets.
  rewrite process_review_cases.
  destruct (fetch_plain_language_summary E (url r) (cd_number r) s) as [[[pls|]|e] s1];
    cbn [snd fst] in *.
  2,3: exists []; rewrite app_nil_r;
       (split; [exact Htr|]); (split; [exact Hgets|]); (split; [left; reflexivity|]);
       (split; [congruence | discriminate]).
  destruct (Str.truthy pls) eqn:Hpls.
  2:{ exists []. rewrite app_nil_r. cbn [snd fst].
      split; [exact Htr|]. split; [exact Hgets|]. split; [left; reflexivity|].
      split; [congruence | discriminate]. }
  pose proof (summarize_trace pls s1) as Hsum.
  assert (Hone : ∀ (x : result (option dict)) (s2 : st W),
            trace s2 = (trace s1 ++ [EvModel (summarize_prompt_for E pls) 500])%list →
            (∀ d, x ≠ Ok (Some d)) →
            ∃ models,
              trace (snd (x, s2)) = (trace s ++ gets ++ models)%list
              ∧ page_requests r gets ∧ model_calls models
              ∧ (models ≠ [] → ∃ pls0, Ok (Some pls) = Ok (Some pls0)
                                       ∧ Str.truthy pls0 = true)
              ∧ (∀ d, fst (x, s2) = Ok (Some d) →
                      ∃ p q, models = [EvModel p 500; EvModel q 100])).
  { intros x s2 H2 Hx. exists [EvModel (summarize_prompt_for E pls) 500].
    cbn [snd fst]. rewrite H2, Htr, <- app_assoc.
    split; [reflexivity|]. split; [exact Hgets|]. split; [right; left; eauto|].
    split; [eauto|]. intros d Hd. destruct (Hx d Hd). }
  destruct (summarize_review E pls s1) as [[[[|kv sm]|]|e] s2]; cbn [snd] in Hsum;
    try (apply Hone; [exact Hsum | discriminate]).
  assert (Htwo : ∀ (x : result (option dict)) (s3 : st W) (q : string),
            trace s3 = (trace s2 ++ [EvModel q 100])%list →
            ∃ models,
              trace (snd (x, s3)) = (trace s ++ gets ++ models)%list
              ∧ page_requests r gets ∧ model_calls models
              ∧ (models ≠ [] → ∃ pls0, Ok (Some pls) = Ok (Some pls0)
                                       ∧ Str.truthy pls0 = true)
              ∧ (∀ d, fst (x, s3) = Ok (Some d) →
                      ∃ p q, models = [EvModel p 500; EvModel q 100])).
  { intros x s3 q H3. exists [EvModel (summarize_prompt_for E pls) 500; EvModel q 100].
    cbn [snd fst]. rewrite H3, Hsum, Htr, <- !app_assoc.
    split; [reflexivity|]. split; [exact Hgets|]. split; [right; right; eauto|].
    split; eauto. }
  destruct (enrich_trace (dict_set (kv :: sm) "url" (VStr (url r))) s2)
    as [[e He] | [q Hq]].
  - rewrite He. apply Hone; [exact Hsum | discriminate].
  - destruct (enrich_summary E _ s2) as [[[[|kv' en]|]|e] s3]; cbn [snd] in Hq;
      eapply Htwo; exact Hq.
Qed.

(** *** Enrichment and the records of the batch *)

Lemma parse_enrichment_merge (sm en : dict) (response : string) :
  parse_enrichment E sm response = Ok (Some en) →
  ∃ m enr,
    Re.search Re.match_brace response = Some m
    ∧ json_loads E m = Some (VDict enr)
    ∧ dict_get en "interest" = Some (dict_get_default enr "interest" (VInt 5))
    ∧ dict_get en "tags" = Some (dict_get_default enr "tags" (VList []))
    ∧ ∀ k, k ≠ "interest" → k ≠ "tags" → dict_get en k = dict_get sm k.
Proof.
  unfold parse_enrichment.
  destruct (Re.search Re.match_brace response) as [m|]; [|discriminate].
  destruct (json_loads E m) as [enr|] eqn:Hj; [|discriminate].
  destruct enr as [| | | | | |enr|]; simpl; try discriminate.
  intros [= <-]. exists m, enr. split; [reflexivity|]. split; [exact Hj|].
  split; [|split].
  - rewrite PyFacts.dict_get_set_ne by discriminate. apply PyFacts.dict_get_set_eq.
  - apply PyFacts.dict_get_set_eq.
  - intros k Hi Ht. rewrite !PyFacts.dict_get_set_ne by assumption. reflexivity.
Qed.

Lemma prompt_keys (sm : dict) (p : string) :
  enrichment_prompt_for E sm = Ok p →
  (∃ q, dict_get sm "question" = Some (VStr q))
  ∧ (∃ a, dict_get sm "answer" = Some (VStr a))
  ∧ (∃ n, dict_get sm "notes" = Some (VStr n)).
Proof.
  unfold enrichment_prompt_for. cbn [py_getitem].
  destruct (dict_get sm "question") as [[| | | |q| | |]|];
    cbn [rbind replace_value]; try discriminate.
  destruct (dict_get sm "answer") as [[| | | |a| | |]|];
    cbn [rbind replace_value]; try discriminate.
  destruct (dict_get sm "notes") as [[| | | |n| | |]|];
    cbn [rbind replace_value]; try discriminate.
  intros _. repeat split; eexists; reflexivity.
Qed.

Lemma enrich_summary_inv (sm en : dict) (s s' : st W) :
  enrich_summary E sm s = (Ok (Some en), s') →
  ∃ prompt response,
    enrichment_prompt_for E sm = Ok prompt
    ∧ messages_create E prompt 100 (world s) = (Some response, world s')
    ∧ parse_enrichment E sm response = Ok (Some en).
Proof.
  unfold enrich_summary, call_claude, bind, call, lift, ret.
  destruct (enrichment_prompt_for E sm) as [p|e] eqn:Hp; [|discriminate].
  destruct (messages_create E p 100 (world s)) as [resp w1] eqn:Hcall.
  destruct resp as [response|]; cbn [otruthy]; [|discriminate].
  destruct (Str.truthy response); [|discriminate].
  change (default "" (Some response)) with response.
  destruct (parse_enrichment E sm response) as [[en'|]|e] eqn:Hen; try discriminate.
  intros [= <- <-]. cbn [world]. exists p, response. auto.
Qed.

(** X8. What [enrich_summary] returns when it returns a summary: the
    summary it was given, whose question, answer and notes are strings,
    with the interest and the tags of the object the model's answer
    decodes to, 5 and the empty list where that object has none; every
    other item is as it was. *)
Theorem enrichment_merge (sm en : dict) (s s' : st W) :
  enrich_summary E sm s = (Ok (Some en), s') →
  ∃ prompt response m enr,
    enrichment_prompt_for E sm = Ok prompt
    ∧ messages_create E prompt 100 (world s) = (Some response, world s')
    ∧ Re.search Re.match_brace response = Some m
    ∧ json_loads E m = Some (VDict enr)
    ∧ dict_get en "interest" = Some (dict_get_default enr "interest" (VInt 5))
    ∧ dict_get en "tags" = Some (dict_get_default enr "tags" (VList []))
    ∧ (∀ k, k ≠ "interest" → k ≠ "tags" → dict_get en k = dict_get sm k)
    ∧ (∃ q, dict_get sm "question" = Some (VStr q))
    ∧ (∃ a, dict_get sm "answer" = Some (VStr a))
    ∧ (∃ n, dict_get sm "notes" = Some (VStr n)).
Proof.
  intros (p & response & Hp & Hcall & Hen)%enrich_summary_inv.
  destruct (parse_enrichment_merge _ _ _ Hen) as (m & enr & Hm & Hj & Hi & Ht & Hk).
  destruct (prompt_keys _ _ Hp) as (Hq & Ha & Hn).
  exists p, response, m, enr. repeat split; assumption.
Qed.

Lemma process_review_record (r : review) (s s' : st W) (d : dict) :
  process_review E r s = (Ok (Some d), s') → record_of r d.
Proof.
  unfold process_review, bind.
  destruct (fetch_plain_language_summary E (url r) (cd_number r) s) as [[pls|e] s1];
    [|discriminate].
  destruct (otruthy pls); [|discriminate].
  destruct (summarize_review E (default "" pls) s1) as [[[[|kv sm]|]|e] s2];
    try discriminate.
  destruct (enrich_summary E _ s2) as [[[[|kv' en]|]|e] s3] eqn:Hen; try discriminate.
  unfold ret. intros [= <- _].
  destruct (enrich_summary_inv _ _ _ _ Hen) as (p & resp & Hp & _ & Hparse).
  destruct (parse_enrichment_merge _ _ _ Hparse) as (m & enr & _ & _ & Hi & Ht & Hk).
  destruct (prompt_keys _ _ Hp) as ((q & Hq) & (a & Ha) & (n & Hn)).
  unfold record_of. rewrite !Hk by discriminate. rewrite Hi, Ht, Hq, Ha, Hn.
  rewrite PyFacts.dict_get_set_eq. repeat split; eauto.
Qed.

Lemma record_formats (r : review) (d : dict) :
  record_of r d → ∃ e, format_entry E d = Ok e.
Proof.
  intros (Hu & (q & Hq) & (a & Ha) & (n & Hn) & (i & Hi) & (t & Ht)).
  unfold format_entry. cbn [py_getitem]. rewrite Hq, Ha, Hu, Hn, Hi, Ht.
  cbn [rbind]. eauto.
Qed.

Lemma rmap_total {A B} (f : A → result B) (l : list A) :
  Forall (λ x, ∃ y, f x = Ok y) l → ∃ l', rmap f l = Ok l'.
Proof.
  induction 1 as [|x l [y Hy] _ [l' Hl']]; simpl; [eauto|].
  rewrite Hy, Hl'. simpl. eauto.
Qed.

Lemma process_all_records (l : list review) (s s' : st W) (batch : list dict) :
  process_all E l s = (Ok batch, s') →
  Forall (λ d, ∃ r, r ∈ l ∧ record_of r d) batch.
Proof.
  revert s s' batch. induction l as [|r l IH]; intros s s' batch; cbn [process_all].
  - intros [= <- _]. constructor.
  - unfold bind, ret.
    destruct (process_review E r s) as [[x|e] s1] eqn:Hr; [|discriminate].
    destruct (process_all E l s1) as [[xs|e] s2] eqn:Hxs; [|discriminate].
    intros [= <- _]. apply IH in Hxs.
    assert (Hrest : Forall (λ d, ∃ r0, r0 ∈ r :: l ∧ record_of r0 d) xs).
    { eapply Forall_impl; [exact Hxs|]. intros d (r0 & Hin & Hrec).
      exists r0. split; [apply elem_of_cons; auto | exact Hrec]. }
    destruct x as [d|]; [|exact Hrest]. constructor; [|exact Hrest].
    exists r. split; [apply elem_of_cons; auto|]. eapply process_review_record; eauto.
Qed.

(** X11. Every summary that the loop of [main] puts into the batch is a full
    record of one of the reviews it was given, and [append_to_summaries]
    formats the whole batch without raising: when the file exists, the
    append succeeds and writes one entry for each summary. *)
Theorem batch_is_appendable (l : list review) (s s' : st W) (batch : list dict) (c : string) :
  process_all E l s = (Ok batch, s') →
  batch ≠ [] →
  store s' = Some c →
  Forall (λ d, ∃ r, r ∈ l ∧ record_of r d) batch
  ∧ ∃ entries,
      length entries = length batch
      ∧ append_to_summaries E batch s'
        = (Ok tt, {| world := world s'; trace := trace s';
                     store := Some (c +:+ appended_text entries) |}).
Proof.
  intros Hrun Hne Hc. pose proof (process_all_records _ _ _ _ Hrun) as Hrec.
  split; [exact Hrec|].
  destruct (rmap_total (λ d, rbind (format_entry E d) (λ e, Ok (Str.strip e))) batch)
    as [entries Hentries].
  { eapply Forall_impl; [exact Hrec|]. intros d (r & _ & Hd).
    destruct (record_formats _ _ Hd) as [e He]. rewrite He. simpl. eauto. }
  exists entries. split; [eapply UpdateCochraneFacts.rmap_length; eauto|].
  unfold append_to_summaries. destruct batch as [|b batch]; [congruence|].
  rewrite Hc, Hentries. reflexivity.
Qed.

(** X12. The summaries of the batch come in the order of the reviews: their
    urls are a subsequence of the urls of the reviews given to the loop. *)
Theorem batch_in_discovery_order (l : list review) (s s' : st W) (batch : list dict) :
  process_all E l s = (Ok batch, s') →
  sublist (map (λ d, dict_get d "url") batch) (map (λ r, Some (VStr (url r))) l).
Proof.
  revert s s' batch. induction l as [|r l IH]; intros s s' batch; cbn [process_all].
  - intros [= <- _]. constructor.
  - unfold bind, ret.
    destruct (process_review E r s) as [[x|e] s1] eqn:Hr; [|discriminate].
    destruct (process_all E l s1) as [[xs|e] s2] eqn:Hxs; [|discriminate].
    intros [= <- _]. apply IH in Hxs. destruct x as [d|]; simpl.
    + rewrite (UpdateCochraneFacts.process_review_url _ _ _ _ _ Hr).
      apply sublist_skip. exact Hxs.
    + apply sublist_cons. exact Hxs.
Qed.

(** *** The runs of [main] *)

Lemma discover_cases (s : st W) :
  ∃ reviews w evs,
    discover E s = (Ok reviews, after s w evs) ∧ discovery_events evs.
Proof.
  unfold discover, fetch_rss_reviews, scrape_news_page, bind, call, ret.
  destruct (feedparser_parse E RSS_URL (world s)) as [feed w1].
  destruct (match feed with Some entries => omap review_of_entry entries | None => [] end)
    as [|r0 reviews].
  - cbn [world trace store].
    destruct (requests_get E NEWS_URL w1) as [resp w2].
    eexists _, w2, [EvFeed RSS_URL; EvGet NEWS_URL]. split; [|right; reflexivity].
    unfold after. rewrite <- app_assoc. reflexivity.
  - eexists _, w1, [EvFeed RSS_URL]. split; [reflexivity | left; reflexivity].
Qed.

Lemma try_urls_returns (urls : list string) (last : option response) (s : st W) :
  ∃ r s', try_urls E urls last s = (Ok r, s').
Proof.
  revert last s. induction urls as [|u rest IH]; intros last s; cbn [try_urls].
  - unfold ret. eauto.
  - unfold bind, call. destruct (requests_get E u (world s)) as [[resp|] w1].
    + destruct (status_code resp =? 200)%Z; [unfold ret; eauto | apply IH].
    + apply IH.
Qed.

Lemma fetch_returns (u cd : string) (s : st W) :
  ∃ r s', fetch_plain_language_summary E u cd s = (Ok r, s').
Proof.
  unfold fetch_plain_language_summary. cbv zeta. unfold bind.
  destruct (try_urls_returns
              ((if Str.truthy cd then ["https://www.cochrane.org/" +:+ cd] else []) ++ [u])
              None s) as (r & s1 & ->).
  destruct r as [resp|]; [|unfold ret; eauto].
  destruct (status_code resp =? 200)%Z; unfold ret; eauto.
Qed.

Lemma summarize_raises (pls : string) (s s' : st W) (e : exn) :
  summarize_review E pls s = (Raise e, s') → e = AttributeError.
Proof.
  unfold summarize_review, call_claude, bind, call, lift, ret, parse_summary.
  destruct (messages_create E _ 500 (world s)) as [resp w1].
  destruct (otruthy resp); [|discriminate].
  destruct (Re.search Re.match_brace _) as [m|]; [|discriminate].
  destruct (json_loads E m) as [[| | | | | |d|]|]; cbn [py_get rbind]; try discriminate;
    try (intros [= <- _]; reflexivity).
  destruct (truthy _); discriminate.
Qed.

Lemma prompt_raises (sm : dict) (e : exn) :
  enrichment_prompt_for E sm = Raise e → e = KeyError ∨ e = TypeError.
Proof.
  unfold enrichment_prompt_for. cbn [py_getitem].
  destruct (dict_get sm "question") as [[| | | |q| | |]|];
    cbn [rbind replace_value]; try (intros [= <-]; auto).
  destruct (dict_get sm "answer") as [[| | | |a| | |]|];
    cbn [rbind replace_value]; try (intros [= <-]; auto).
  destruct (dict_get sm "notes") as [[| | | |n| | |]|];
    cbn [rbind replace_value]; intros [= <-]; auto.
Qed.

Lemma enrich_raises (sm : dict) (s s' : st W) (e : exn) :
  enrich_summary E sm s = (Raise e, s') → loop_error e.
Proof.
  unfold enrich_summary, call_claude, bind, call, lift, ret, loop_error.
  destruct (enrichment_prompt_for E sm) as [p|e0] eqn:Hp.
  - destruct (messages_create E p 100 (world s)) as [resp w1].
    destruct (otruthy resp); [|discriminate].
    unfold parse_enrichment.
    destruct (Re.search Re.match_brace _) as [m|]; [|discriminate].
    destruct (json_loads E m) as [[| | | | | |d|]|]; cbn [py_get rbind];
      try discriminate; intros [= <- _]; auto.
  - intros [= <- _]. destruct (prompt_raises _ _ Hp); auto.
Qed.

Lemma process_review_raises (r : review) (s s' : st W) (e : exn) :
  process_review E r s = (Raise e, s') → loop_error e.
Proof.
  rewrite process_review_cases.
  destruct (fetch_returns (url r) (cd_number r) s) as (pls & s1 & ->).
  destruct pls as [pls|]; [|discriminate].
  destruct (Str.truthy pls); [|discriminate].
  destruct (summarize_review E pls s1) as [[[[|kv sm]|]|e1] s2] eqn:Hsum;
    try discriminate.
  - destruct (enrich_summary E _ s2) as [[[[|kv' en]|]|e2] s3] eqn:Hen;
      try discriminate.
    intros [= <- <-]. exact (enrich_raises _ _ _ _ Hen).
  - intros [= <- <-]. right; right. exact (summarize_raises _ _ _ _ Hsum).
Qed.

Lemma process_all_raises (l : list review) (s s' : st W) (e : exn) :
  process_all E l s = (Raise e, s') → loop_error e.
Proof.
  revert s. induction l as [|r l IH]; intros s; cbn [process_all]; [discriminate|].
  unfold bind, ret.
  destruct (process_review E r s) as [[x|e1] s1] eqn:Hr.
  - destruct (process_all E l s1) as [[xs|e2] s2] eqn:Hxs; [discriminate|].
    intros [= <- <-]. exact (IH _ Hxs).
  - intros [= <- <-]. exact (process_review_raises _ _ _ _ Hr).
Qed.

Lemma record_url (r : review) (d : dict) : record_of r d → url_of d = url r.
Proof. intros (Hu & _). unfold url_of. rewrite Hu. reflexivity. Qed.

Lemma output_lines_records (l : list review) (batch : list dict) :
  Forall (λ d, ∃ r, r ∈ l ∧ record_of r d) batch →
  output_lines batch = Ok (report (map url_of batch)).
Proof.
  intros Hrec. unfold output_lines, report.
  assert (Hurls : rmap (λ s, as_str (dict_get_default s "url" (VStr ""))) batch
                  = Ok (map url_of batch)).
  { induction Hrec as [|d batch (r & _ & Hu & _) _ IH]; [reflexivity|].
    cbn [rmap map]. unfold dict_get_default at 1, url_of at 1. rewrite Hu.
    cbn [as_str rbind default]. rewrite IH. reflexivity. }
  rewrite Hurls. cbn [rbind]. rewrite length_map. reflexivity.
Qed.

Lemma process_all_urls (l : list review) (s s' : st W) (batch : list dict) :
  process_all E l s = (Ok batch, s') → sublist (map url_of batch) (map url l).
Proof.
  revert s s' batch. induction l as [|r l IH]; intros s s' batch; cbn [process_all].
  - intros [= <- _]. constructor.
  - unfold bind, ret.
    destruct (process_review E r s) as [[x|e] s1] eqn:Hr; [|discriminate].
    destruct (process_all E l s1) as [[xs|e] s2] eqn:Hxs; [|discriminate].
    intros [= <- _]. apply IH in Hxs. destruct x as [d|]; cbn [map].
    + rewrite (record_url r d (process_review_record _ _ _ _ Hr)).
      apply sublist_skip. exact Hxs.
    + apply sublist_cons. exact Hxs.
Qed.

Lemma slice_to_sublist {A} (l : list A) (k : Z) : sublist (slice_to l k) l.
Proof. unfold slice_to. destruct (k <? 0)%Z; apply sublist_take. Qed.

(** [finish] on a batch of full records. *)
Lemma finish_cases (l : list review) (batch : list dict) (s : st W) :
  Forall (λ d, ∃ r, r ∈ l ∧ record_of r d) batch →
  (batch = [] ∧ finish E batch s = (Ok (report []), s))
  ∨ (batch ≠ [] ∧ store s = None ∧ finish E batch s = (Raise FileNotFoundError, s))
  ∨ (batch ≠ []
     ∧ ∃ c entries,
         store s = Some c ∧ length entries = length batch
         ∧ ((yaml_ok E (c +:+ appended_text entries) = true
             ∧ finish E batch s = (Ok (report (map url_of batch)), appended s c entries))
            ∨ (yaml_ok E (c +:+ appended_text entries) = false
               ∧ finish E batch s = (Raise (SystemExit 1), appended s c entries)))).
Proof.
  intros Hrec. pose proof (output_lines_records _ _ Hrec) as Hout.
  destruct batch as [|b batch]; [left; split; [reflexivity|] |right].
  { unfold finish, bind, ret, lift. rewrite Hout. reflexivity. }
  destruct (store s) as [c|] eqn:Hc.
  - right. split; [discriminate|].
    destruct (rmap_total (λ d, rbind (format_entry E d) (λ e, Ok (Str.strip e))) (b :: batch))
      as [entries Hentries].
    { eapply Forall_impl; [exact Hrec|]. intros d (r & _ & Hd).
      destruct (record_formats _ _ Hd) as [e He]. rewrite He. simpl. eauto. }
    exists c, entries. split; [reflexivity|].
    split; [eapply UpdateCochraneFacts.rmap_length; eauto|].
    unfold finish, bind, append_to_summaries, validate_yaml, raise, lift, ret.
    rewrite Hc, Hentries. cbn [store]. rewrite Hout. unfold appended.
    destruct (yaml_ok E _); [left | right]; split; reflexivity.
  - left. split; [discriminate|]. split; [reflexivity|].
    unfold finish, bind, append_to_summaries. rewrite Hc. reflexivity.
Qed.

(** Every run of [main]: discovery, then an early return, or the loop and
    what follows it. *)
Lemma main_cases (dry_run : bool) (max_reviews : Z) (s : st W) :
  ∃ reviews w evs,
    discover E s = (Ok reviews, after s w evs) ∧ discovery_events evs
    ∧ match filter_new (existing_in (store s)) reviews with
      | [] => main E dry_run max_reviews s = (Ok [], after s w evs)
      | new_reviews =>
          if dry_run then main E dry_run max_reviews s = (Ok [], after s w evs)
          else main E dry_run max_reviews s
               = bind (process_all E (slice_to new_reviews max_reviews)) (finish E)
                   (after s w evs)
      end.
Proof.
  destruct (discover_cases s) as (reviews & w & evs & Hd & Hevs).
  exists reviews, w, evs. split; [exact Hd|]. split; [exact Hevs|].
  rewrite UpdateCochraneFacts.main_unfold, Hd.
  destruct reviews as [|r0 reviews]; [reflexivity|].
  destruct (filter_new _ _); [reflexivity|]. destruct dry_run; reflexivity.
Qed.

(** The outcomes of a run of [main] that got to the loop. *)
Lemma loop_then_finish (l : list review) (s1 s' : st W) (out : result (list string)) :
  bind (process_all E l) (finish E) s1 = (out, s') →
  (∃ e, out = Raise e ∧ loop_error e ∧ store s' = store s1)
  ∨ ∃ batch s2,
      process_all E l s1 = (Ok batch, s2) ∧ store s2 = store s1
      ∧ sublist (map url_of batch) (map url l)
      ∧ ((batch = [] ∧ out = Ok (report []) ∧ s' = s2)
         ∨ (batch ≠ [] ∧ store s1 = None ∧ out = Raise FileNotFoundError ∧ s' = s2)
         ∨ (batch ≠ []
            ∧ ∃ c entries,
                store s1 = Some c ∧ length entries = length batch
                ∧ s' = appended s2 c entries
                ∧ ((yaml_ok E (c +:+ appended_text entries) = true
                    ∧ out = Ok (report (map url_of batch)))
                   ∨ (yaml_ok E (c +:+ appended_text entries) = false
                      ∧ out = Raise (SystemExit 1))))).
Proof.
  unfold bind. pose proof (UpdateCochraneFacts.process_all_keeps E l s1) as Hk.
  destruct (process_all E l s1) as [[batch|e] s2] eqn:Hrun; cbn [snd] in Hk.
  - intros Hfin. right. exists batch, s2. split; [reflexivity|]. split; [exact Hk|].
    split; [exact (process_all_urls _ _ _ _ Hrun)|].
    destruct (finish_cases l batch s2 (process_all_records _ _ _ _ Hrun))
      as [(-> & Hf) | [(Hne & Hnone & Hf) | (Hne & c & entries & Hc & Hlen & Hf)]].
    + left. rewrite Hf in Hfin. injection Hfin as <- <-. auto.
    + right; left. rewrite Hf in Hfin. injection Hfin as <- <-.
      rewrite <- Hk. auto.
    + right; right. split; [exact Hne|]. exists c, entries.
      rewrite <- Hk. split; [exact Hc|]. split; [exact Hlen|].
      destruct Hf as [(Hy & Hf) | (Hy & Hf)]; rewrite Hf in Hfin;
        injection Hfin as <- <-; (split; [reflexivity|]); [left | right]; auto.
  - intros [= <- <-]. left. exists e. split; [reflexivity|].
    split; [exact (process_all_raises _ _ _ _ Hrun) | exact Hk].
Qed.

Lemma process_review_called (r : review) (s s' : st W) (d : dict) :
  process_review E r s = (Ok (Some d), s') →
  ∃ evs p q, trace s' = (trace s ++ evs)%list
             ∧ EvModel p 500 ∈ evs ∧ EvModel q 100 ∈ evs.
Proof.
  rewrite process_review_cases.
  destruct (fetch_trace r s) as (gets & _ & Htr).
  destruct (fetch_plain_language_summary E (url r) (cd_number r) s) as [[[pls|]|e] s1];
    try discriminate.
  destruct (Str.truthy pls); [|discriminate].
  pose proof (summarize_trace pls s1) as Hsum.
  destruct (summarize_review E pls s1) as [[[[|kv sm]|]|e] s2]; try discriminate.
  destruct (enrich_trace (dict_set (kv :: sm) "url" (VStr (url r))) s2)
    as [[e He] | [q Hq]]; [rewrite He; discriminate|].
  destruct (enrich_summary E _ s2) as [[[[|kv' en]|]|e] s3]; try discriminate.
  intros [= _ <-]. cbn [snd] in Htr, Hsum, Hq.
  exists (gets ++ [EvModel (summarize_prompt_for E pls) 500; EvModel q 100])%list,
    (summarize_prompt_for E pls), q.
  split; [|split; rewrite !elem_of_app, !elem_of_cons; auto].
  rewrite Hq, Hsum, Htr, <- !app_assoc. reflexivity.
Qed.

Lemma process_all_called (l : list review) (s s' : st W) (batch : list dict) :
  process_all E l s = (Ok batch, s') → batch ≠ [] →
  ∃ evs p q, trace s' = (trace s ++ evs)%list
             ∧ EvModel p 500 ∈ evs ∧ EvModel q 100 ∈ evs.
Proof.
  revert s s' batch. induction l as [|r l IH]; intros s s' batch; cbn [process_all].
  - intros [= <- _]. congruence.
  - unfold bind, ret.
    destruct (UpdateCochraneFacts.process_review_emits E r s) as (evs1 & Htr1 & _).
    destruct (process_review E r s) as [[x|e] s1] eqn:Hr; [|discriminate].
    destruct (UpdateCochraneFacts.process_all_emits E l s1) as (evs2 & Htr2 & _).
    destruct (process_all E l s1) as [[xs|e] s2] eqn:Hxs; [|discriminate].
    cbn [snd] in Htr1, Htr2. intros [= <- <-]. destruct x as [d|].
    + intros _. destruct (process_review_called _ _ _ _ Hr) as (evs & p & q & Htr & Hp & Hq).
      exists (evs ++ evs2)%list, p, q. rewrite Htr2, Htr, <- app_assoc.
      split; [reflexivity|]. rewrite !elem_of_app. auto.
    + intros Hne. destruct (IH _ _ _ Hxs Hne) as (evs & p & q & Htr & Hp & Hq).
      exists (evs1 ++ evs)%list, p, q. rewrite Htr, Htr1, <- app_assoc.
      split; [reflexivity|]. rewrite !elem_of_app. auto.
Qed.

Lemma main_outcomes (dry_run : bool) (max_reviews : Z) (s s' : st W)
    (out : result (list string)) :
  main E dry_run max_reviews s = (out, s') →
  ∃ reviews w evs,
    discover E s = (Ok reviews, after s w evs) ∧ discovery_events evs
    ∧ ((out = Ok [] ∧ s' = after s w evs)
       ∨ (dry_run = false
          ∧ bind (process_all E
                    (slice_to (filter_new (existing_in (store s)) reviews) max_reviews))
               (finish E) (after s w evs) = (out, s'))).
Proof.
  intros Hrun. destruct (main_cases dry_run max_reviews s)
    as (reviews & w & evs & Hd & Hevs & Hmain).
  exists reviews, w, evs. split; [exact Hd|]. split; [exact Hevs|].
  destruct (filter_new _ _) as [|n0 new].
  - left. rewrite Hmain in Hrun. injection Hrun as <- <-. auto.
  - destruct dry_run.
    + left. rewrite Hmain in Hrun. injection Hrun as <- <-. auto.
    + right. rewrite <- Hmain. auto.
Qed.

(** X13. A dry run: [main] reads the feed, and the news page when the feed
    gave no review, and returns.  It prints nothing, leaves the file as
    it is, fetches no review page and does not call the model. *)
Theorem dry_run_reads_only (max_reviews : Z) (s : st W) :
  ∃ w evs,
    main E true max_reviews s = (Ok [], after s w evs) ∧ discovery_events evs.
Proof.
  destruct (main_cases true max_reviews s) as (reviews & w & evs & _ & Hevs & Hmain).
  exists w, evs. split; [|exact Hevs]. destruct (filter_new _ _); exact Hmain.
Qed.

(** X16. No rollback: a run of [main] that ends in [sys.exit] has status 1,
    was no dry run, and leaves the file with the entries it appended, the
    text that failed the validation. *)
Theorem failed_validation_stays (dry_run : bool) (max_reviews k : Z) (s s' : st W) :
  main E dry_run max_reviews s = (Raise (SystemExit k), s') →
  k = 1%Z ∧ dry_run = false
  ∧ ∃ c entries,
      entries ≠ [] ∧ store s = Some c
      ∧ store s' = Some (c +:+ appended_text entries)
      ∧ yaml_ok E (c +:+ appended_text entries) = false.
Proof.
  intros Hrun. destruct (main_outcomes _ _ _ _ _ Hrun)
    as (reviews & w & evs & _ & _ & [(Hout & _) | (Hdry & Hloop)]); [discriminate|].
  destruct (loop_then_finish _ _ _ _ Hloop)
    as [(e & [= <-] & [He | [He | He]] & _) | (batch & s2 & _ & Hk & _ & Hfin)];
    try discriminate.
  destruct Hfin as [(_ & Hout & _) | [(_ & _ & Hout & _) | (Hne & c & entries & Hc & Hlen & -> & Hy)]];
    try discriminate.
  destruct Hy as [(_ & Hout) | (Hy & [= <-])]; [discriminate|].
  split; [reflexivity|]. split; [exact Hdry|]. exists c, entries.
  split; [|auto]. intros ->. destruct batch; [congruence | discriminate].
Qed.

(** X15. Two ways for a run of [main] to end in an exception.  When the
    loop raises, [main] ends with that exception in the state the loop
    left: the file is as it was, and what the loop had summarised before
    is lost.  When the file is missing and the loop has made a summary,
    the append raises [FileNotFoundError] and the file stays missing; by
    then the run has made a summarize call and an enrichment call. *)
Theorem loop_exception_ends_run (max_reviews : Z) (s s1 : st W) (reviews : list review) :
  discover E s = (Ok reviews, s1) →
  (∀ e s2,
     process_all E (slice_to (filter_new (existing_in (store s)) reviews) max_reviews) s1
     = (Raise e, s2) →
     main E false max_reviews s = (Raise e, s2) ∧ store s2 = store s)
  ∧ (∀ batch s2,
       process_all E (slice_to (filter_new (existing_in (store s)) reviews) max_reviews) s1
       = (Ok batch, s2) →
       batch ≠ [] → store s = None →
       main E false max_reviews s = (Raise FileNotFoundError, s2) ∧ store s2 = None
       ∧ ∃ evs p q, trace s2 = (trace s1 ++ evs)%list
                    ∧ EvModel p 500 ∈ evs ∧ EvModel q 100 ∈ evs).
Proof.
  intros Hdisc.
  assert (Hs1 : store s1 = store s).
  { pose proof (UpdateCochraneFacts.discover_keeps E s) as H. rewrite Hdisc in H. exact H. }
  assert (Hkeep : ∀ l r s2, process_all E l s1 = (r, s2) → store s2 = store s).
  { intros l r s2 Hl. pose proof (UpdateCochraneFacts.process_all_keeps E l s1) as H.
    rewrite Hl in H. cbn [snd] in H. congruence. }
  assert (Hnil : ∀ k : Z, slice_to (@nil review) k = []).
  { intros k. unfold slice_to. destruct (k <? 0)%Z; apply take_nil. }
  rewrite UpdateCochraneFacts.main_unfold, Hdisc.
  destruct (filter_new (existing_in (store s)) reviews) as [|n0 new] eqn:Hnew.
  { rewrite Hnil. cbn [process_all]. unfold ret.
    split; [discriminate|]. intros batch s2 [= <- _] Hne. congruence. }
  destruct reviews as [|r0 reviews]; [discriminate|]. unfold bind. split.
  - intros e s2 Hl. rewrite Hl. split; [reflexivity | exact (Hkeep _ _ _ Hl)].
  - intros batch s2 Hl Hne Hnone. rewrite Hl.
    assert (Hs2 : store s2 = None) by (rewrite (Hkeep _ _ _ Hl); exact Hnone).
    split; [|split; [exact Hs2 | exact (process_all_called _ _ _ _ Hl Hne)]].
    unfold finish, bind, append_to_summaries.
    destruct batch as [|b batch]; [congruence|]. rewrite Hs2. reflexivity.
Qed.

(** X14. The report of [main].  A run that returns has printed nothing and
    left the file as it was, or has printed the two output lines for the
    urls of the summaries it made: these are urls of new reviews, in the
    order of discovery, and when there is one the file has grown by one
    entry for each and passed the validation. *)
Theorem main_report (dry_run : bool) (max_reviews : Z) (s s' : st W)
    (lines : list string) :
  main E dry_run max_reviews s = (Ok lines, s') →
  (lines = [] ∧ store s' = store s)
  ∨ ∃ reviews s1 urls,
      discover E s = (Ok reviews, s1)
      ∧ lines = report urls
      ∧ sublist urls (map url (filter_new (existing_in (store s)) reviews))
      ∧ ((urls = [] ∧ store s' = store s)
         ∨ ∃ c entries,
             store s = Some c ∧ length entries = length urls
             ∧ store s' = Some (c +:+ appended_text entries)
             ∧ yaml_ok E (c +:+ appended_text entries) = true).
Proof.
  intros Hrun. destruct (main_outcomes _ _ _ _ _ Hrun)
    as (reviews & w & evs & Hd & _ & [([= ->] & ->) | (Hdry & Hloop)]);
    [left; auto|].
  right. exists reviews, (after s w evs).
  destruct (loop_then_finish _ _ _ _ Hloop)
    as [(e' & Hout & _) | (batch & s2 & Hproc & Hk & Hsub & Hfin)]; [discriminate|].
  exists (map url_of batch). split; [exact Hd|].
  assert (Hsub' : sublist (map url_of batch)
                    (map url (filter_new (existing_in (store s)) reviews))).
  { etrans; [exact Hsub|]. exact (fmap_sublist url _ _ (slice_to_sublist _ _)). }
  destruct Hfin as [(-> & [= ->] & ->) | [(_ & _ & Hout & _) | (Hne & c & entries & Hc & Hlen & -> & Hy)]];
    [|discriminate|].
  - split; [reflexivity|]. split; [exact Hsub'|]. left. split; [reflexivity|].
    rewrite Hk. reflexivity.
  - destruct Hy as [(Hy & [= ->]) | (_ & Hout)]; [|discriminate].
    split; [reflexivity|]. split; [exact Hsub'|]. right. exists c, entries.
    rewrite length_map. auto.
Qed.

(** X17. [main] only ever appends.  Whatever the run does and however it
    ends, a missing file is not created, the old text of an existing file
    is the start of the new one, and every CD number found in the file
    before the run is found in it behind the run. *)
Theorem main_appends_only (dry_run : bool) (max_reviews : Z) (s s' : st W)
    (out : result (list string)) :
  main E dry_run max_reviews s = (out, s') →
  (store s = None → store s' = None)
  ∧ (∀ c, store s = Some c →
       store s' = Some c
       ∨ ∃ entries, entries ≠ [] ∧ store s' = Some (c +:+ appended_text entries))
  ∧ (∀ m, m ∈ existing_in (store s) → m ∈ existing_in (store s')).
Proof.
  intros Hrun.
  assert (Hcases : store s' = store s
                   ∨ ∃ c entries, store s = Some c ∧ entries ≠ []
                                  ∧ store s' = Some (c +:+ appended_text entries)).
  { destruct (main_outcomes _ _ _ _ _ Hrun)
      as (reviews & w & evs & _ & _ & [(_ & ->) | (_ & Hloop)]); [left; reflexivity|].
    destruct (loop_then_finish _ _ _ _ Hloop)
      as [(e' & _ & _ & Hst) | (batch & s2 & _ & Hk & _ & Hfin)]; [left; exact Hst|].
    destruct Hfin as [(_ & _ & ->) | [(_ & _ & _ & ->) | (Hne & c & entries & Hc & Hlen & -> & _)]];
      [left; exact Hk | left; exact Hk |].
    right. exists c, entries. split; [exact Hc|]. split; [|reflexivity].
    intros ->. destruct batch; [congruence | discriminate]. }
  destruct Hcases as [Hsame | (c & entries & Hc & Hne & Hnew)].
  - rewrite Hsame. split; [auto|]. split; [auto | auto].
  - rewrite Hc, Hnew. split; [discriminate|]. split.
    + intros c' [= <-]. right. exists entries. auto.
    + intros m Hm. unfold appended_text.
      apply UpdateCochraneFacts.existing_grows. exact Hm.
Qed.

Lemma prompt_needs_texts (sm : dict) :
  (has_texts sm ∧ ∃ p, enrichment_prompt_for E sm = Ok p)
  ∨ (¬ has_texts sm
     ∧ ∃ e, (e = KeyError ∨ e = TypeError) ∧ enrichment_prompt_for E sm = Raise e).
Proof.
  unfold has_texts, enrichment_prompt_for. cbn [py_getitem].
  destruct (dict_get sm "question") as [[| | | |q| | |]|];
    cbn [rbind replace_value];
    try solve [right; split; [intros (? & ? & ? & ? & ? & ?); discriminate
                             | eexists; split; [|reflexivity]; auto]].
  destruct (dict_get sm "answer") as [[| | | |a| | |]|];
    cbn [rbind replace_value];
    try solve [right; split; [intros (? & ? & ? & ? & ? & ?); discriminate
                             | eexists; split; [|reflexivity]; auto]].
  destruct (dict_get sm "notes") as [[| | | |n| | |]|];
    cbn [rbind replace_value];
    try solve [right; split; [intros (? & ? & ? & ? & ? & ?); discriminate
                             | eexists; split; [|reflexivity]; auto]].
  left. split; [exists q, a, n; auto | eauto].
Qed.

(** X9. A summary of the model without a string under question, answer or
    notes is not skipped: [enrich_summary] raises [KeyError] or
    [TypeError] before it calls the model, and the turn of the loop for
    that review raises it on. *)
Theorem incomplete_summary_aborts (r : review) (s s1 s2 : st W) (pls : string)
    (sm : dict) :
  fetch_plain_language_summary E (url r) (cd_number r) s = (Ok (Some pls), s1) →
  Str.truthy pls = true →
  summarize_review E pls s1 = (Ok (Some sm), s2) →
  sm ≠ [] →
  ¬ has_texts sm →
  ∃ e, (e = KeyError ∨ e = TypeError) ∧ process_review E r s = (Raise e, s2).
Proof.
  intros Hfetch Hpls Hsum Hne Hbad. rewrite process_review_cases, Hfetch, Hpls, Hsum.
  destruct sm as [|kv sm]; [congruence|].
  destruct (prompt_needs_texts (dict_set (kv :: sm) "url" (VStr (url r))))
    as [((q & a & n & Hq & Ha & Hn) & _) | (_ & e & He & Hraise)].
  - exfalso. apply Hbad. exists q, a, n.
    rewrite !PyFacts.dict_get_set_ne in Hq, Ha, Hn by discriminate. auto.
  - exists e. split; [exact He|].
    unfold enrich_summary, bind, lift. rewrite Hraise. reflexivity.
Qed.

(** *** The region of the summary *)

Lemma first_selected_at (sels : list Dom.selector) (roots : list Dom.node) (i : nat)
    (sel : Dom.selector) (sec : Dom.node) :
  sels !! i = Some sel →
  (∀ j sel', (j < i)%nat → sels !! j = Some sel' → Dom.select_one sel' roots = None) →
  Dom.select_one sel roots = Some sec →
  first_selected sels roots = Some sec.
Proof.
  revert i. induction sels as [|x sels IH]; intros i Hi Hearlier Hsel; [discriminate|].
  cbn [first_selected]. destruct i as [|i].
  - injection Hi as ->. rewrite Hsel. reflexivity.
  - rewrite (Hearlier 0%nat x) by (reflexivity || lia).
    apply (IH i Hi); [|exact Hsel].
    intros j sel' Hj Hl. apply (Hearlier (S j) sel'); [lia | exact Hl].
Qed.

Lemma select_one_matches (sel : Dom.selector) (roots : list Dom.node) (sec : Dom.node) :
  Dom.select_one sel roots = Some sec →
  Dom.matches sel sec = true ∧ sec ∈ map fst (Dom.walk_all roots).
Proof.
  unfold Dom.select_one. intros Hhead.
  assert (Hin : sec ∈ filter (λ n, Dom.matches sel n = true) (map fst (Dom.walk_all roots))).
  { destruct (filter _ _) as [|x l]; [discriminate|].
    injection Hhead as ->. apply elem_of_cons. auto. }
  apply list_elem_of_filter in Hin. exact Hin.
Qed.

(** X7. The four selectors are tried in the order of the list, not in the
    order of the page: the first element that matches a selector is the
    region when no element of the page matches an earlier selector.  Its
    stripped text is the summary, also when it is empty, and the headings
    of the page are not looked at. *)
Theorem region_by_selector_order (roots : list Dom.node) (i : nat) (sel : Dom.selector)
    (sec : Dom.node) :
  selectors !! i = Some sel →
  (∀ j sel', (j < i)%nat → selectors !! j = Some sel' →
             Dom.select_one sel' roots = None) →
  Dom.select_one sel roots = Some sec →
  extract_summary roots = Some (Dom.get_text true sec)
  ∧ Dom.matches sel sec = true
  ∧ sec ∈ map fst (Dom.walk_all roots).
Proof.
  intros Hi Hearlier Hsel. split; [|exact (select_one_matches _ _ _ Hsel)].
  unfold extract_summary. cbv zeta.
  rewrite (first_selected_at _ _ _ _ _ Hi Hearlier Hsel). reflexivity.
Qed.

End Facts.

(** A run of [news_page_reviews] on the demo news page. *)
Lemma news_page_reviews_witness :
  let run := scrape_news_page (DemoNews.env None) (Demo.start None) in
  trace (snd run) = [EvGet NEWS_URL]
  ∧ store (snd run) = None
  ∧ NoDup (map cd_number (Demo.ok_or [] (fst run)))
  ∧ Forall (λ r, Re.search Re.match_cd (url r) = Some (cd_number r)
                 ∧ Str.startswith "/" (url r) = false) (Demo.ok_or [] (fst run)).
Proof.
  apply (news_page_reviews (DemoNews.env None) (Demo.start None)).
  vm_compute. reflexivity.
Defined.

(** A run of [discover_feed_first]: the feed parser raises, the news page
    gives the reviews. *)
Lemma discover_feed_first_witness :
  let E := DemoNews.env None in
  let s := Demo.start None in
  (feed_reviews None ≠ [] →
   discover E s = (Ok (feed_reviews None), after s tt [EvFeed RSS_URL]))
  ∧ (feed_reviews None = [] →
     discover E s = scrape_news_page E (after s tt [EvFeed RSS_URL])
     ∧ trace (snd (discover E s)) = [EvFeed RSS_URL; EvGet NEWS_URL]).
Proof.
  apply (discover_feed_first (DemoNews.env None) (Demo.start None) None tt).
  reflexivity.
Defined.

(** A run of [canonical_page_first]. *)
Lemma canonical_page_first_witness :
  fetch_plain_language_summary (Demo.env [] true) (Demo.feed_link "CD000001") "CD000001"
    (Demo.start None)
  = (Ok (Some "First summary."),
     after (Demo.start None) tt [EvGet "https://www.cochrane.org/CD000001"]).
Proof.
  apply (canonical_page_first (Demo.env [] true) (Demo.feed_link "CD000001") "CD000001"
           (Demo.start None) {| status_code := 200; text := Demo.page_text "1" |} tt);
    reflexivity.
Defined.

(** A run of [feed_page_second]: no page for CD000009 under either
    address. *)
Lemma feed_page_second_witness :
  fetch_plain_language_summary (Demo.env [] true) (Demo.feed_link "CD000009") "CD000009"
    (Demo.start None)
  = (Ok None,
     after (Demo.start None) tt
       [EvGet "https://www.cochrane.org/CD000009"; EvGet (Demo.feed_link "CD000009")]).
Proof.
  apply (feed_page_second (Demo.env [] true) (Demo.feed_link "CD000009") "CD000009"
           (Demo.start None) None None tt tt); first [reflexivity | exact I].
Defined.

(** A run of [enrichment_merge] on the demo summary. *)
Lemma enrichment_merge_witness :
  let E := Demo.env [] true in
  let sm := [("question", VStr "Does it help?"); ("answer", VStr "Yes.");
             ("notes", VStr "Reduces pain.")] in
  let en := (sm ++ [("interest", VInt 7); ("tags", VList [VStr "pain"])])%list in
  let s := Demo.start None in
  let s' := snd (enrich_summary E sm s) in
  ∃ prompt response m enr,
    enrichment_prompt_for E sm = Ok prompt
    ∧ messages_create E prompt 100 (world s) = (Some response, world s')
    ∧ Re.search Re.match_brace response = Some m
    ∧ json_loads E m = Some (VDict enr)
    ∧ dict_get en "interest" = Some (dict_get_default enr "interest" (VInt 5))
    ∧ dict_get en "tags" = Some (dict_get_default enr "tags" (VList []))
    ∧ (∀ k, k ≠ "interest" → k ≠ "tags" → dict_get en k = dict_get sm k)
    ∧ (∃ q, dict_get sm "question" = Some (VStr q))
    ∧ (∃ a, dict_get sm "answer" = Some (VStr a))
    ∧ (∃ n, dict_get sm "notes" = Some (VStr n)).
Proof.
  intros E sm en s s'. apply (enrichment_merge E sm en s s').
  vm_compute. reflexivity.
Defined.

(** A run of [batch_is_appendable]: a protocol, which is skipped, and a
    review. *)
Lemma batch_is_appendable_witness :
  let E := Demo.env Demo.feed_skip true in
  let l := [Demo.review "CD000003" "Protocol"; Demo.review "CD000001" "First"] in
  let s := Demo.after_feed (Some "old") in
  let batch := Demo.ok_or [] (fst (process_all E l s)) in
  let s' := snd (process_all E l s) in
  Forall (λ d, ∃ r, r ∈ l ∧ record_of r d) batch
  ∧ ∃ entries,
      length entries = length batch
      ∧ append_to_summaries E batch s'
        = (Ok tt, {| world := world s'; trace := trace s';
                     store := Some ("old" +:+ appended_text entries) |}).
Proof.
  intros E l s batch s'. apply (batch_is_appendable E l s s' batch "old").
  - vm_compute. reflexivity.
  - vm_compute. discriminate.
  - vm_compute. reflexivity.
Defined.

(** A run of [batch_in_discovery_order] on the same two reviews. *)
Lemma batch_in_discovery_order_witness :
  let E := Demo.env Demo.feed_skip true in
  let l := [Demo.review "CD000003" "Protocol"; Demo.review "CD000001" "First"] in
  let s := Demo.after_feed (Some "old") in
  sublist (map (λ d, dict_get d "url") (Demo.ok_or [] (fst (process_all E l s))))
          (map (λ r, Some (VStr (url r))) l).
Proof.
  intros E l s.
  apply (batch_in_discovery_order E l s (snd (process_all E l s))).
  vm_compute. reflexivity.
Defined.

(** A run of [failed_validation_stays]: two reviews are appended and the
    file then fails the validation. *)
Lemma failed_validation_stays_witness :
  let E := Demo.env Demo.feed2 false in
  let s := Demo.start (Some "old") in
  let s' := snd (main E false 10 s) in
  1%Z = 1%Z ∧ false = false
  ∧ ∃ c entries,
      entries ≠ [] ∧ store s = Some c
      ∧ store s' = Some (c +:+ appended_text entries)
      ∧ yaml_ok E (c +:+ appended_text entries) = false.
Proof.
  intros E s s'. apply (failed_validation_stays E false 10 1 s s').
  vm_compute. reflexivity.
Defined.

(** A run of [loop_exception_ends_run] without the file: both reviews
    are summarised and enriched, then the append raises. *)
Lemma loop_exception_ends_run_witness :
  let E := Demo.env Demo.feed2 true in
  let s := Demo.start None in
  let s1 := Demo.after_feed None in
  let reviews := [Demo.review "CD000001" "First"; Demo.review "CD000002" "Second"] in
  (∀ e s2,
     process_all E (slice_to (filter_new (existing_in (store s)) reviews) 10) s1
     = (Raise e, s2) →
     main E false 10 s = (Raise e, s2) ∧ store s2 = store s)
  ∧ (∀ batch s2,
       process_all E (slice_to (filter_new (existing_in (store s)) reviews) 10) s1
       = (Ok batch, s2) →
       batch ≠ [] → store s = None →
       main E false 10 s = (Raise FileNotFoundError, s2) ∧ store s2 = None
       ∧ ∃ evs p q, trace s2 = (trace s1 ++ evs)%list
                    ∧ EvModel p 500 ∈ evs ∧ EvModel q 100 ∈ evs).
Proof.
  intros E s s1 reviews. apply (loop_exception_ends_run E 10 s s1 reviews).
  vm_compute. reflexivity.
Defined.

(** The two ways, run: a summary without notes makes the loop raise and
    leaves the file; a missing file makes the append raise. *)
Example loop_raises_run :
  let run := main DemoPartial.env false 10 (Demo.start (Some "old")) in
  fst run = Raise KeyError ∧ store (snd run) = Some "old".
Proof. split; reflexivity. Qed.

Example missing_file_run :
  let run := main (Demo.env Demo.feed2 true) false 10 (Demo.start None) in
  fst run = Raise FileNotFoundError ∧ store (snd run) = None.
Proof. split; reflexivity. Qed.

(** A run of [main_report] that adds two reviews. *)
Lemma main_report_witness :
  let E := Demo.env Demo.feed2 true in
  let s := Demo.start (Some "old") in
  let s' := snd (main E false 10 s) in
  let lines := Demo.ok_or [] (fst (main E false 10 s)) in
  (lines = [] ∧ store s' = store s)
  ∨ ∃ reviews s1 urls,
      discover E s = (Ok reviews, s1)
      ∧ lines = report urls
      ∧ sublist urls (map url (filter_new (existing_in (store s)) reviews))
      ∧ ((urls = [] ∧ store s' = store s)
         ∨ ∃ c entries,
             store s = Some c ∧ length entries = length urls
             ∧ store s' = Some (c +:+ appended_text entries)
             ∧ yaml_ok E (c +:+ appended_text entries) = true).
Proof.
  intros E s s' lines. apply (main_report E false 10 s s' lines).
  vm_compute. reflexivity.
Defined.

(** A run of [main_appends_only] on a file that names CD000002. *)
Lemma main_appends_only_witness :
  let E := Demo.env Demo.feed2 true in
  let s := Demo.start (Some "see CD000002") in
  let s' := snd (main E false 10 s) in
  (store s = None → store s' = None)
  ∧ (∀ c, store s = Some c →
       store s' = Some c
       ∨ ∃ entries, entries ≠ [] ∧ store s' = Some (c +:+ appended_text entries))
  ∧ (∀ m, m ∈ existing_in (store s) → m ∈ existing_in (store s')).
Proof.
  intros E s s'. apply (main_appends_only E false 10 s s' (fst (main E false 10 s))).
  vm_compute. reflexivity.
Defined.

(** A run of [incomplete_summary_aborts]: the summary of the model has no
    notes. *)
Lemma incomplete_summary_aborts_witness :
  let r := Demo.review "CD000001" "First" in
  let s := Demo.start (Some "old") in
  ∃ e, (e = KeyError ∨ e = TypeError)
       ∧ process_review DemoPartial.env r s
         = (Raise e, after s tt [EvGet "https://www.cochrane.org/CD000001";
                                 EvModel "Summarise: First summary." 500]).
Proof.
  intros r s.
  apply (incomplete_summary_aborts DemoPartial.env r s
           (after s tt [EvGet "https://www.cochrane.org/CD000001"])
           (after s tt [EvGet "https://www.cochrane.org/CD000001";
                        EvModel "Summarise: First summary." 500])
           "First summary."
           [("question", VStr "Does it help?"); ("answer", VStr "Yes.")]).
  - vm_compute. reflexivity.
  - reflexivity.
  - vm_compute. reflexivity.
  - vm_compute. discriminate.
  - vm_compute. intros (q & a & n & _ & _ & H). discriminate H.
Defined.

(** [region_by_selector_order] on a page with a summary heading, then an
    element of id pls, then one of class pls-section: the last is the
    region. *)
Lemma region_by_selector_order_witness :
  let by_id := Dom.Elem "div" [("id", "pls")] [Dom.Text "by id"] in
  let by_class := Dom.Elem "div" [("class", "box pls-section")] [Dom.Text " by class "] in
  let roots := [Demo.h2_summary; Demo.par_a; by_id; by_class] in
  extract_summary roots = Some (Dom.get_text true by_class)
  ∧ Dom.matches (Dom.ByClass "pls-section") by_class = true
  ∧ by_class ∈ map fst (Dom.walk_all roots).
Proof.
  intros by_id by_class roots.
  apply (region_by_selector_order roots 0 (Dom.ByClass "pls-section") by_class).
  - reflexivity.
  - intros j sel' Hj. lia.
  - vm_compute. reflexivity.
Defined.

End UpdateCochraneMore.

(** ** Dates ([add_dates.py]) *)

Module AddDatesMore.
Import Py AddDates Shape.

Lemma upper_digit (c : ascii) : Str.is_digit c = true → Str.upper_char c = c.
Proof.
  destruct c as [[] [] [] [] [] [] [] []]; vm_compute; intros; congruence.
Qed.

Lemma upper_digits (ds : string) : Re.all Str.is_digit ds = true → Str.upper ds = ds.
Proof.
  induction ds as [|c ds IH]; [reflexivity|]. cbn [Re.all].
  intros [Hc Hds]%andb_prop. unfold Str.upper. cbn [Str.smap].
  rewrite (upper_digit c Hc). f_equal. apply IH, Hds.
Qed.

Lemma match_cd_nocase_form (s m : string) :
  Re.match_cd_nocase s = Some m →
  ∃ ds rest, s = m +:+ rest ∧ Str.upper m = "CD" +:+ ds ∧ ds ≠ ""
             ∧ Re.all Str.is_digit ds = true ∧ Re.no_digit_ahead rest.
Proof.
  unfold Re.match_cd_nocase. destruct s as [|c [|d r]]; try discriminate.
  destruct (Ascii.eqb_spec (Str.upper_char c) "C") as [Hc|]; [|discriminate].
  destruct (Ascii.eqb_spec (Str.upper_char d) "D") as [Hd|]; [|discriminate].
  cbn [andb].
  destruct (Str.span Str.is_digit r) as [|x ds] eqn:Hspan; [discriminate|].
  intros [= <-]. exists (String x ds), (Str.drop (String.length (String x ds)) r).
  assert (Hall : Re.all Str.is_digit (String x ds) = true)
    by (rewrite <- Hspan; apply ReFacts.span_all).
  split; [|split; [|split; [discriminate|split; [exact Hall|]]]].
  - rewrite <- Hspan.
    change (String c (String d r)
            = String c (String d (Str.span Str.is_digit r
                          +:+ Str.drop (String.length (Str.span Str.is_digit r)) r))).
    do 2 f_equal. apply ReFacts.span_drop.
  - change (Str.upper (String c (String d (String x ds))))
      with (String (Str.upper_char c)
              (String (Str.upper_char d) (Str.upper (String x ds)))).
    rewrite Hc, Hd, (upper_digits _ Hall). reflexivity.
  - rewrite <- Hspan. apply ReFacts.span_maximal.
Qed.

Lemma no_match_no_start (s : string) :
  Re.match_cd_nocase s = None → ¬ cd_start s.
Proof.
  intros Hno (c & d & x & rest & -> & Hc & Hd & Hx). revert Hno.
  unfold Re.match_cd_nocase.
  assert (Hdig : Str.is_digit x = true).
  { unfold Str.is_digit. apply andb_true_intro. split; apply N.leb_le; apply Hx. }
  cbn [Str.span]. rewrite Hdig.
  destruct Hc as [-> | ->]; destruct Hd as [-> | ->]; vm_compute; discriminate.
Qed.

(** X19. The number that [extract_cd_number] gives is the leftmost run
    of [cd] and digits of the url in either case, read to its last digit
    and put in upper case: the url is a text before the run, the run and
    a text behind it that starts with no digit, no such run starts at an
    earlier place of the url, and the result is the letters CD followed
    by the digits of the run, at least one. *)
Theorem looked_up_number (url : value) (cd : string) :
  extract_cd_number url = Ok (Some cd) →
  ∃ u pre m post ds,
    url = VStr u ∧ u = pre +:+ m +:+ post ∧ Str.upper m = cd
    ∧ cd = "CD" +:+ ds ∧ ds ≠ "" ∧ Re.all Str.is_digit ds = true
    ∧ Re.no_digit_ahead post
    ∧ ∀ p1 p2, pre = p1 +:+ p2 → p2 ≠ "" → ¬ cd_start (p2 +:+ m +:+ post).
Proof.
  unfold extract_cd_number. destruct url as [| | | |u| | |]; try discriminate.
  destruct (Re.search Re.match_cd_nocase u) as [m|] eqn:Hs; [|discriminate].
  intros [= <-]. destruct (ReFacts.search_leftmost _ _ _ Hs) as (pre & suf & -> & Hm & Hleft).
  destruct (match_cd_nocase_form _ _ Hm) as (ds & rest & -> & Hup & Hne & Hall & Hrest).
  exists (pre +:+ m +:+ rest), pre, m, rest, ds.
  repeat (split; [solve [auto]|]).
  intros p1 p2 Heq Hp2. apply no_match_no_start, (Hleft p1 p2 Heq Hp2).
Qed.

(** [looked_up_number] on a url with two numbers, the first in mixed
    case. *)
Lemma looked_up_number_witness :
  ∃ u pre m post ds,
    VStr "x/Cd12CD34" = VStr u ∧ u = pre +:+ m +:+ post
    ∧ Str.upper m = "CD12"
    ∧ "CD12" = "CD" +:+ ds ∧ ds ≠ "" ∧ Re.all Str.is_digit ds = true
    ∧ Re.no_digit_ahead post
    ∧ ∀ p1 p2, pre = p1 +:+ p2 → p2 ≠ "" → ¬ cd_start (p2 +:+ m +:+ post).
Proof.
  apply (looked_up_number (VStr "x/Cd12CD34") "CD12").
  reflexivity.
Defined.

Lemma iso_take (s : string) :
  String.length (Str.take 4 s) = 4%nat →
  Str.startswith "-" (Str.drop 4 s) = true →
  String.length (Str.take 2 (Str.drop 5 s)) = 2%nat →
  Str.startswith "-" (Str.drop 7 s) = true →
  String.length (Str.take 2 (Str.drop 8 s)) = 2%nat →
  Str.take 4 s +:+ "-" +:+ Str.take 2 (Str.drop 5 s) +:+ "-" +:+ Str.take 2 (Str.drop 8 s)
  = Str.take 10 s.
Proof.
  destruct s as [|a0 [|a1 [|a2 [|a3 [|a4 [|a5 [|a6 [|a7 [|a8 [|a9 r]]]]]]]]]];
    cbn [Str.take Str.drop Str.startswith String.length String.append];
    intros H1 H2 H3 H4 H5; try congruence.
  destruct (Ascii.eqb_spec "-" a4) as [<-|]; [|discriminate].
  destruct (Ascii.eqb_spec "-" a7) as [<-|]; [|discriminate].
  reflexivity.
Qed.

Lemma match_iso_date_form (s d : string) :
  Re.match_iso_date s = Some d → d = Str.take 10 s ∧ iso_shaped d.
Proof.
  unfold Re.match_iso_date. cbv zeta.
  match goal with |- (if ?c then _ else _) = _ → _ => destruct c eqn:Hc end;
    [|discriminate].
  intros Heq.
  assert (Hd : d = Str.take 4 s +:+ "-" +:+ Str.take 2 (Str.drop 5 s) +:+ "-"
                   +:+ Str.take 2 (Str.drop 8 s)) by congruence.
  clear Heq. subst d.
  repeat match goal with
         | H : (_ && _)%bool = true |- _ => apply andb_prop in H; destruct H
         end.
  repeat match goal with
         | H : (_ =? _)%nat = true |- _ => apply Nat.eqb_eq in H
         end.
  split; [apply iso_take; assumption|].
  exists (Str.take 4 s), (Str.take 2 (Str.drop 5 s)), (Str.take 2 (Str.drop 8 s)).
  repeat split; assumption.
Qed.

(** X21. The date that [get_date_from_cochrane_page] reads off a page is the
    first ten characters of the first [datePublished] value of the page:
    four digits, two digits and two digits between dashes.  What follows
    them in the value is dropped, and the digits are not checked against
    the calendar. *)
Theorem page_date_iso (t d : string) :
  page_date t = Some d →
  iso_shaped d
  ∧ ∃ value, Re.search Re.match_date_published t = Some value ∧ d = Str.take 10 value.
Proof.
  unfold page_date.
  destruct (Re.search Re.match_date_published t) as [value|]; [|discriminate].
  intros [-> Hiso]%match_iso_date_form. split; [exact Hiso|]. exists value. auto.
Qed.

(** [page_date_iso] on the page of the demo review. *)
Lemma page_date_iso_witness :
  iso_shaped "2020-05-06"
  ∧ ∃ value, Re.search Re.match_date_published (Demo.page_text "1") = Some value
             ∧ "2020-05-06" = Str.take 10 value.
Proof.
  apply (page_date_iso (Demo.page_text "1") "2020-05-06"). reflexivity.
Defined.





Lemma after_nil {W} (s : st W) : after s (world s) [] = s.
Proof. destruct s. unfold after. cbn [world trace store]. rewrite app_nil_r. reflexivity. Qed.

Lemma after_after {W} (s : st W) (w1 w2 : W) (a b : list event) :
  after (after s w1 a) w2 b = after s w2 (a ++ b).
Proof. unfold after. cbn [world trace store]. rewrite app_assoc. reflexivity. Qed.

Section Dates.
Context {W : Type} (E : Env W).

Lemma try_crossref_cases (url : value) (s : st W) :
  ((∀ u, url ≠ VStr u) ∧ try_crossref E url s = (Raise TypeError, s))
  ∨ (∃ u, url = VStr u)
    ∧ (try_crossref E url s = (Ok None, s)
       ∨ (∃ doi d w,
            try_crossref E url s = (Ok (Some d), after s w [EvGet (crossref_url doi)]))
       ∨ (∃ doi w,
            try_crossref E url s
            = (Ok None, after s w [EvGet (crossref_url doi); EvSleep CROSSREF_DELAY]))).
Proof.
  unfold try_crossref, bind, lift.
  destruct url as [| | | |u| | |];
    try (left; split; [intros u; discriminate | reflexivity]).
  right. split; [eauto|]. unfold extract_doi.
  assert (Hdoi : ∀ d : string,
            (if Str.truthy d
             then bind (get_date_from_crossref E d)
                    (λ date, if otruthy date then ret date
                             else bind (emit (EvSleep CROSSREF_DELAY)) (λ _, ret None))
             else ret None) s = (Ok None, s)
            ∨ (∃ doi d0 w,
                 (if Str.truthy d
                  then bind (get_date_from_crossref E d)
                         (λ date, if otruthy date then ret date
                                  else bind (emit (EvSleep CROSSREF_DELAY)) (λ _, ret None))
                  else ret None) s
                 = (Ok (Some d0), after s w [EvGet (crossref_url doi)]))
            ∨ (∃ doi w,
                 (if Str.truthy d
                  then bind (get_date_from_crossref E d)
                         (λ date, if otruthy date then ret date
                                  else bind (emit (EvSleep CROSSREF_DELAY)) (λ _, ret None))
                  else ret None) s
                 = (Ok None, after s w [EvGet (crossref_url doi); EvSleep CROSSREF_DELAY]))).
  { intros d. destruct (Str.truthy d); [|left; reflexivity]. right.
    unfold get_date_from_crossref, bind, call, ret, emit.
    destruct (requests_get E (crossref_url d) (world s)) as [r w].
    set (date := match r with
                 | Some resp =>
                     if (status_code resp =? 200)%Z then crossref_date E (text resp)
                     else None
                 | None => None
                 end).
    destruct date as [d0|]; cbn [otruthy].
    - destruct (Str.truthy d0).
      + left. exists d, d0, w. reflexivity.
      + right. exists d, w. unfold after. cbn [world trace store].
        rewrite <- app_assoc. reflexivity.
    - right. exists d, w. unfold after. cbn [world trace store].
      rewrite <- app_assoc. reflexivity. }
  destruct (Re.search Re.match_cochrane_doi u) as [d|]; [apply Hdoi|].
  destruct (Re.search Re.match_generic_doi u) as [d|]; [apply Hdoi|].
  left. reflexivity.
Qed.

Lemma try_cochrane_page_cases (u : string) (s : st W) :
  try_cochrane_page E (VStr u) s = (Ok None, s)
  ∨ ∃ ds r w,
      ds ≠ "" ∧ Re.all Str.is_digit ds = true
      ∧ try_cochrane_page E (VStr u) s
        = (Ok r, after s w [EvSleep COCHRANE_DELAY; EvGet (cochrane_url ("CD" +:+ ds))]).
Proof.
  unfold try_cochrane_page, bind, lift. unfold extract_cd_number.
  destruct (Re.search Re.match_cd_nocase u) as [m|] eqn:Hs; [|left; reflexivity].
  destruct (ReFacts.search_some _ _ _ Hs) as (pre & suf & _ & Hm).
  destruct (match_cd_nocase_form _ _ Hm) as (ds & rest & _ & -> & Hne & Hall & _).
  right. change (Str.truthy ("CD" +:+ ds)) with true. cbv iota.
  unfold get_date_from_cochrane_page, bind, call, ret, emit. cbn [world trace store].
  destruct (requests_get E (cochrane_url ("CD" +:+ ds)) (world s)) as [r w].
  set (date := match r with
               | Some resp =>
                   if (status_code resp =? 200)%Z then page_date (text resp) else None
               | None => None
               end).
  exists ds, (if otruthy date then date else None), w.
  split; [exact Hne|]. split; [exact Hall|].
  unfold after. cbn [world trace store]. rewrite <- app_assoc.
  destruct (otruthy date); reflexivity.
Qed.

(** X22. What one task asks of the outside, and when it raises.  For an entry
    with a date: nothing, and the date it has is the result.  Otherwise
    at most one CrossRef request, with a pause behind it when it gave no
    date, then at most one Cochrane page request behind its pause, for a
    number in upper case; no page is requested behind a CrossRef request
    that gave a date.  The task raises only for a url that is no string,
    and then [TypeError], before any request. *)
Theorem entry_requests (entry : dict) (i : nat) (s : st W) :
  ∃ cr pg w r,
    get_date_for_entry E entry i s = (r, after s w (cr ++ pg))
    ∧ crossref_part cr ∧ page_part pg
    ∧ (get_truthy entry "date" = true →
       cr = [] ∧ pg = [] ∧ r = Ok (i, dict_get entry "date"))
    ∧ (∀ doi, cr = [EvGet (crossref_url doi)] →
              pg = [] ∧ ∃ d, r = Ok (i, Some (VStr d)))
    ∧ (∀ e, r = Raise e →
            e = TypeError ∧ cr = [] ∧ pg = []
            ∧ ∀ u, dict_get_default entry "url" (VStr "") ≠ VStr u).
Proof.
  unfold get_date_for_entry. cbv zeta.
  destruct (get_truthy entry "date") eqn:Hdate.
  { exists [], [], (world s), (Ok (i, dict_get entry "date")).
    cbn [app]. rewrite after_nil. unfold get_truthy in Hdate.
    unfold bind, lift, ret. cbn [py_getitem].
    destruct (dict_get entry "date") as [v|]; [|discriminate].
    split; [reflexivity|]. split; [left; reflexivity|]. split; [left; reflexivity|].
    split; [auto|]. split; [discriminate | discriminate]. }
  unfold bind at 1.
  destruct (try_crossref_cases (dict_get_default entry "url" (VStr "")) s)
    as [(Hbad & ->) | ((u & Hu) & [-> | [(doi & d & w & ->) | (doi & w & ->)]])].
  - exists [], [], (world s), (Raise TypeError). cbn [app]. rewrite after_nil.
    split; [reflexivity|]. split; [left; reflexivity|]. split; [left; reflexivity|].
    split; [discriminate|]. split; [discriminate|].
    intros e [= <-]. auto.
  - rewrite Hu. unfold bind.
    destruct (try_cochrane_page_cases u s) as [-> | (ds & r & w & Hne & Hall & ->)].
    + exists [], [], (world s), (Ok (i, None)). cbn [app]. rewrite after_nil.
      split; [reflexivity|]. split; [left; reflexivity|]. split; [left; reflexivity|].
      split; [discriminate|]. split; [discriminate | discriminate].
    + exists [], [EvSleep COCHRANE_DELAY; EvGet (cochrane_url ("CD" +:+ ds))], w,
        (Ok (i, VStr <$> r)).
      split; [destruct r; reflexivity|]. split; [left; reflexivity|].
      split; [right; eauto|]. split; [discriminate|]. split; [discriminate | discriminate].
  - exists [EvGet (crossref_url doi)], [], w, (Ok (i, Some (VStr d))).
    rewrite app_nil_r. split; [reflexivity|]. split; [right; left; eauto|].
    split; [left; reflexivity|]. split; [discriminate|]. split; [eauto | discriminate].
  - rewrite Hu. unfold bind.
    set (s1 := after s w [EvGet (crossref_url doi); EvSleep CROSSREF_DELAY]).
    destruct (try_cochrane_page_cases u s1) as [-> | (ds & r & w2 & Hne & Hall & ->)].
    + exists [EvGet (crossref_url doi); EvSleep CROSSREF_DELAY], [], w, (Ok (i, None)).
      rewrite app_nil_r. split; [reflexivity|]. split; [right; right; eauto|].
      split; [left; reflexivity|]. split; [discriminate|].
      split; [discriminate | discriminate].
    + exists [EvGet (crossref_url doi); EvSleep CROSSREF_DELAY],
        [EvSleep COCHRANE_DELAY; EvGet (cochrane_url ("CD" +:+ ds))], w2,
        (Ok (i, VStr <$> r)).
      subst s1. rewrite after_after.
      split; [destruct r; reflexivity|]. split; [right; right; eauto|].
      split; [right; eauto|]. split; [discriminate|].
      split; [discriminate | discriminate].
Qed.

Lemma crossref_field (doi : string) (s : st W) (resp : response) (w' : W)
    (data msg fv : dict) (pre post : list string) (f : string)
    (parts rest : list value) :
  requests_get E (crossref_url doi) (world s) = (Some resp, w') →
  status_code resp = 200%Z →
  json_loads E (text resp) = Some (VDict data) →
  dict_get data "message" = Some (VDict msg) →
  date_fields = (pre ++ f :: post)%list →
  Forall (passed_over msg) pre →
  dict_get msg f = Some (VDict fv) →
  dict_get fv "date-parts" = Some (VList (VList parts :: rest)) →
  fst (get_date_from_crossref E doi s)
  = Ok (catch_none
          (rbind (format_date_parts E (VList parts))
             (λ o, match o with
                   | Some d => Ok (Some d)
                   | None => first_date E (VDict msg) post
                   end))).
Proof.
  intros Hget Hst Hjson Hmsg Hfields Hpre Hf Hdp.
  unfold get_date_from_crossref, bind, call, ret. rewrite Hget. cbn [fst].
  rewrite Hst. cbn [Z.eqb Pos.eqb]. unfold crossref_date. rewrite Hjson.
  unfold py_get, dict_get_default. rewrite Hmsg.
  unfold rbind at 1. rewrite Hfields, (AddDatesFacts.first_date_skip _ _ _ _ Hpre).
  cbn [first_date]. rewrite (AddDatesFacts.field_date_chosen _ _ _ _ _ _ Hf Hdp).
  reflexivity.
Qed.

(** X20. The parts of a CrossRef date are not checked.  A chosen field with
    one part gives that part, whatever it is, followed by -01-01: a null
    year gives the date None-01-01.  A second or third part that cannot
    be formatted as a number makes the lookup give nothing, also when a
    later field holds a full date. *)
Theorem crossref_parts_unchecked (doi : string) (s : st W) (resp : response) (w' : W)
    (data msg fv : dict) (pre post : list string) (f : string)
    (parts rest : list value) :
  requests_get E (crossref_url doi) (world s) = (Some resp, w') →
  status_code resp = 200%Z →
  json_loads E (text resp) = Some (VDict data) →
  dict_get data "message" = Some (VDict msg) →
  date_fields = (pre ++ f :: post)%list →
  Forall (passed_over msg) pre →
  dict_get msg f = Some (VDict fv) →
  dict_get fv "date-parts" = Some (VList (VList parts :: rest)) →
  (∀ y, parts = [y] →
        fst (get_date_from_crossref E doi s) = Ok (Some (py_str E y +:+ "-01-01")))
  ∧ (∀ y m more e, parts = y :: m :: more → format_02d m = Raise e →
        fst (get_date_from_crossref E doi s) = Ok None)
  ∧ (∀ y m d more ms e, parts = y :: m :: d :: more → format_02d m = Ok ms →
        format_02d d = Raise e →
        fst (get_date_from_crossref E doi s) = Ok None).
Proof.
  intros Hget Hst Hjson Hmsg Hfields Hpre Hf Hdp.
  rewrite (crossref_field _ _ _ _ _ _ _ _ _ _ _ _ Hget Hst Hjson Hmsg Hfields Hpre Hf Hdp).
  split; [|split].
  - intros y ->. reflexivity.
  - intros y m more e -> Hm. unfold format_date_parts. cbn [py_len rbind length].
    destruct more as [|d more]; cbn [Nat.leb py_index nth_error rbind];
      rewrite Hm; reflexivity.
  - intros y m d more ms e -> Hm Hd. unfold format_date_parts.
    cbn [py_len rbind length Nat.leb py_index nth_error]. rewrite Hm.
    cbn [rbind]. rewrite Hd. reflexivity.
Qed.

End Dates.

(** *** The pool of [main] *)

Section Pool.
Context {W : Type} (E : Env W) (sm : list loc) (h0 : heap) (net : nat → st W).

Lemma count_inv_pool0 : count_inv (submitted sm h0) (pool0 h0).
Proof.
  split; [reflexivity|]. split; [constructor|]. split.
  - intros i []%elem_of_nil.
  - intros i [r Hr]. simpl in Hr. rewrite lookup_empty in Hr. discriminate.
Qed.

Lemma count_inv_step (p : pool) (a : action) (p' : pool) :
  count_inv (submitted sm h0) p →
  step E sm (submitted sm h0) net p a = Some (Ok p') →
  count_inv (submitted sm h0) p'.
Proof.
  intros (Hsum & Hnd & Hsub & Hfin) Hstep. destruct a as [i|i]; simpl in Hstep.
  - destruct (bool_decide (i ∈ submitted sm h0)) eqn:Hi; simpl in Hstep; [|discriminate].
    destruct (bool_decide (finished p !! i = None)) eqn:Hnone; simpl in Hstep;
      [|discriminate].
    destruct (bool_decide (i ∉ consumed p)) eqn:Hc; [|discriminate].
    destruct (sm !! i) as [l|]; [|discriminate]. simplify_eq.
    apply bool_decide_eq_true in Hi, Hc.
    split; [exact Hsum|]. split; [exact Hnd|]. split; [exact Hsub|]. simpl.
    intros j [r Hj]. destruct (decide (i = j)) as [<-|Hne]; [auto|].
    rewrite lookup_insert_ne in Hj by exact Hne. apply Hfin. eauto.
  - destruct (finished p !! i) as [[[idx date]|e]|] eqn:Hf; simplify_eq.
    destruct (Hfin i (ex_intro _ _ Hf)) as [Hi Hc].
    assert (Hgoal : ∀ u f,
              (u + f = S (updated p + failed p))%nat →
              count_inv (submitted sm h0)
                {| objects := objects p'; finished := delete i (finished p);
                   consumed := i :: consumed p; updated := u; failed := f |}).
    { intros u f Huf. split; [simpl; lia|]. split; [constructor; assumption|]. split.
      - simpl. intros j [->|Hj]%elem_of_cons; auto.
      - simpl. intros j [r Hj]. apply lookup_delete_Some in Hj as [Hne Hj].
        destruct (Hfin j (ex_intro _ _ Hj)) as [Hjs Hjc]. split; [exact Hjs|].
        intros [->|?]%elem_of_cons; congruence. }
    unfold merge in Hstep.
    destruct date as [d|]; [destruct (truthy d)|]; simplify_eq;
      try (apply (Hgoal (updated p) (S (failed p))); simpl; lia).
    destruct (sm !! idx) as [l|]; simplify_eq.
    apply (Hgoal (S (updated p)) (failed p)). simpl. lia.
Qed.

(** X23. The counters of [main]: at every moment of a run, whatever the order
    in which the futures complete, the dates added and the failures add
    up to the futures consumed, none of them twice; at the end of the loop
    they add up to the number of entries that lacked a date. *)
Theorem counters_add_up (sched : list action) (p : pool) :
  steps E sm (submitted sm h0) net (pool0 h0) sched = Some (Ok p) →
  (updated p + failed p = length (consumed p))%nat
  ∧ (length (consumed p) ≤ length (submitted sm h0))%nat
  ∧ (all_consumed (submitted sm h0) p = true →
     (updated p + failed p)%nat = length (submitted sm h0)).
Proof.
  intros Hsteps.
  pose proof (AddDatesFacts.steps_invariant E sm h0 net (count_inv (submitted sm h0))
                count_inv_step _ _ _ count_inv_pool0 Hsteps)
    as (Hsum & Hnd & Hsub & _).
  split; [exact Hsum|]. split.
  - apply submseteq_length, NoDup_submseteq; assumption.
  - intros [_ Hall]%AddDatesFacts.all_consumed_spec. rewrite Hsum.
    apply Permutation_length, NoDup_Permutation;
      [exact Hnd | apply AddDatesFacts.submitted_NoDup|].
    intros i. split; [apply Hsub | apply Hall].
Qed.

Lemma bad_task_raises (entry : dict) (i : nat) (s : st W) :
  lacks_date entry = true →
  (∀ u, dict_get_default entry "url" (VStr "") ≠ VStr u) →
  fst (get_date_for_entry E entry i s) = Raise TypeError.
Proof.
  unfold lacks_date. intros Hdate%negb_true_iff Hbad.
  unfold get_date_for_entry. cbv zeta. rewrite Hdate. unfold bind at 1.
  destruct (try_crossref_cases E (dict_get_default entry "url" (VStr "")) s)
    as [(_ & ->) | ((u & Hu) & _)]; [reflexivity|].
  destruct (Hbad u Hu).
Qed.

Lemma task_raise_bad (entry : dict) (i : nat) (s : st W) (e : exn) :
  fst (get_date_for_entry E entry i s) = Raise e →
  e = TypeError ∧ ∀ u, dict_get_default entry "url" (VStr "") ≠ VStr u.
Proof.
  unfold get_date_for_entry. cbv zeta.
  destruct (get_truthy entry "date") eqn:Hdate.
  { unfold get_truthy in Hdate. unfold bind, lift, ret. cbn [py_getitem].
    destruct (dict_get entry "date"); discriminate. }
  unfold bind at 1.
  destruct (try_crossref_cases E (dict_get_default entry "url" (VStr "")) s)
    as [(Hbad & ->) | ((u & Hu) & [-> | [(doi & d & w & ->) | (doi & w & ->)]])].
  - intros [= <-]. auto.
  - rewrite Hu. unfold bind.
    destruct (try_cochrane_page_cases E u s) as [-> | (ds & r & w & _ & _ & ->)];
      [discriminate | destruct r; discriminate].
  - discriminate.
  - rewrite Hu. unfold bind.
    destruct (try_cochrane_page_cases E u
                (after s w [EvGet (crossref_url doi); EvSleep CROSSREF_DELAY]))
      as [-> | (ds & r & w2 & _ & _ & ->)];
      [discriminate | destruct r; discriminate].
Qed.

Lemma crash_inv_pool0 : crash_inv sm h0 (pool0 h0).
Proof.
  split; [apply AddDatesFacts.frame_inv_pool0|]. split; [reflexivity|]. split.
  - intros i r Hr. simpl in Hr. rewrite lookup_empty in Hr. discriminate.
  - intros i l []%elem_of_nil.
Qed.

Lemma url_kept (p : pool) (l : loc) :
  frame_inv sm h0 p →
  dict_get_default (objects p l) "url" (VStr "") = dict_get_default (h0 l) "url" (VStr "").
Proof.
  intros [_ Hobj]. destruct (Hobj l) as [-> | (_ & d & ->)]; [reflexivity|].
  unfold dict_get_default. rewrite PyFacts.dict_get_set_ne by discriminate. reflexivity.
Qed.

Lemma crash_inv_step (p : pool) (a : action) (p' : pool) :
  crash_inv sm h0 p →
  step E sm (submitted sm h0) net p a = Some (Ok p') →
  crash_inv sm h0 p'.
Proof.
  intros (Hframe & Hbad & Hfin & Hcons) Hstep.
  pose proof (AddDatesFacts.frame_inv_step E sm h0 net p a p' Hframe Hstep) as Hframe'.
  split; [exact Hframe'|]. destruct a as [i|i]; simpl in Hstep.
  - destruct (bool_decide (i ∈ submitted sm h0)) eqn:Hi; simpl in Hstep; [|discriminate].
    destruct (bool_decide (finished p !! i = None) && bool_decide (i ∉ consumed p));
      [|discriminate].
    destruct (sm !! i) as [l|] eqn:Hl; [|discriminate]. simplify_eq. simpl.
    apply bool_decide_eq_true in Hi.
    split; [exact Hbad|]. split; [|exact Hcons].
    intros j r Hj. destruct (decide (i = j)) as [<-|Hne].
    + rewrite lookup_insert_eq in Hj. injection Hj as <-. exists l. split; [exact Hl|].
      destruct (fst (get_date_for_entry E (objects p l) i (net i))) as [x|e] eqn:Hr.
      * intros Hb. rewrite (Hbad l Hb) in Hr. destruct Hb as [Hlack Hurl].
        rewrite (bad_task_raises _ _ _ Hlack Hurl) in Hr. discriminate.
      * destruct (task_raise_bad _ _ _ _ Hr) as [-> Hurl]. split; [reflexivity|].
        apply AddDatesFacts.elem_of_submitted in Hi as (l2 & Hl2 & Hlack).
        rewrite Hl in Hl2. injection Hl2 as <-. split; [exact Hlack|].
        rewrite <- (url_kept p l Hframe). exact Hurl.
    + rewrite lookup_insert_ne in Hj by exact Hne. eauto.
  - destruct (finished p !! i) as [[[idx date]|e]|] eqn:Hf; simplify_eq.
    destruct Hframe as [Hidx _]. destruct (Hidx _ _ Hf) as [_ Hi].
    specialize (Hi _ _ eq_refl). subst idx.
    destruct (Hfin _ _ Hf) as (l & Hl & Hgood).
    assert (Hfin' : ∀ j r, delete i (finished p) !! j = Some r →
              ∃ l, sm !! j = Some l
                   ∧ match r with
                     | Ok _ => ¬ bad_url h0 l
                     | Raise e => e = TypeError ∧ bad_url h0 l
                     end).
    { intros j r Hj. apply lookup_delete_Some in Hj as [_ Hj]. eauto. }
    assert (Hcons' : ∀ j l', j ∈ i :: consumed p → sm !! j = Some l' → ¬ bad_url h0 l').
    { intros j l' [->|Hj]%elem_of_cons Hl'; [congruence | eauto]. }
    unfold merge in Hstep. rewrite Hl in Hstep.
    destruct date as [d|]; [destruct (truthy d)|]; simplify_eq; simpl;
      try (split; [exact Hbad|]; split; [exact Hfin' | exact Hcons']).
    split; [|split; [exact Hfin' | exact Hcons']].
    intros l' Hb. unfold upd. destruct (decide (l' = l)) as [->|]; [|apply Hbad, Hb].
    destruct (Hgood Hb).
Qed.

Lemma step_raise (p : pool) (a : action) (e : exn) :
  crash_inv sm h0 p →
  step E sm (submitted sm h0) net p a = Some (Raise e) →
  e = TypeError ∧ ∃ i l, sm !! i = Some l ∧ bad_url h0 l.
Proof.
  intros (Hframe & Hbad & Hfin & Hcons) Hstep. destruct a as [i|i]; simpl in Hstep.
  - destruct (bool_decide (i ∈ submitted sm h0) && bool_decide (finished p !! i = None)
              && bool_decide (i ∉ consumed p)); [|discriminate].
    destruct (sm !! i); discriminate.
  - destruct (finished p !! i) as [[[idx date]|e']|] eqn:Hf; [| |discriminate].
    + destruct Hframe as [Hidx _]. destruct (Hidx _ _ Hf) as [_ Hi].
      specialize (Hi _ _ eq_refl). subst idx.
      destruct (Hfin _ _ Hf) as (l & Hl & _).
      unfold merge in Hstep. rewrite Hl in Hstep.
      destruct date as [d|]; [destruct (truthy d)|]; discriminate.
    + injection Hstep as <-. destruct (Hfin _ _ Hf) as (l & Hl & -> & Hb). eauto.
Qed.

Lemma steps_raise (sched : list action) (p : pool) (e : exn) :
  crash_inv sm h0 p →
  steps E sm (submitted sm h0) net p sched = Some (Raise e) →
  e = TypeError ∧ ∃ i l, sm !! i = Some l ∧ bad_url h0 l.
Proof.
  revert p. induction sched as [|a sched IH]; intros p Hp; simpl; [discriminate|].
  destruct (step E sm (submitted sm h0) net p a) as [[p1|e1]|] eqn:Ha; [| |discriminate].
  - apply IH. eapply crash_inv_step; eauto.
  - intros [= <-]. eapply step_raise; eauto.
Qed.

(** X24. When [main] crashes.  A run ends in an exception exactly when some
    entry without a date has a url that is no string, a null for one: the
    task of that entry raises [TypeError], no schedule of the pool gets
    past it to the write, and nothing else makes a run crash. *)
Theorem crash_only_for_bad_url (sched : list action) (o : outcome) :
  main E sm h0 net sched = Some o →
  match o with
  | Crashed e => e = TypeError ∧ ∃ i l, sm !! i = Some l ∧ bad_url h0 l
  | _ => ∀ i l, sm !! i = Some l → ¬ bad_url h0 l
  end.
Proof.
  unfold main. destruct sm as [|l0 sm'] eqn:Hsm.
  { intros [= <-]. intros i l Hl. rewrite lookup_nil in Hl. discriminate. }
  rewrite <- Hsm.
  destruct (length (submitted sm h0) =? 0)%nat eqn:Hlen.
  { intros [= <-]. intros i l Hl [Hlack _].
    assert (Hi : i ∈ submitted sm h0) by (apply AddDatesFacts.elem_of_submitted; eauto).
    apply Nat.eqb_eq in Hlen. destruct (submitted sm h0); [|discriminate].
    apply elem_of_nil in Hi. exact Hi. }
  destruct (steps E sm (submitted sm h0) net (pool0 h0) sched) as [[p|e]|] eqn:Hsteps;
    [| |discriminate].
  - destruct (all_consumed (submitted sm h0) p) eqn:Hall; [|discriminate].
    intros [= <-]. intros i l Hl Hb.
    pose proof (AddDatesFacts.steps_invariant E sm h0 net (crash_inv sm h0)
                  crash_inv_step _ _ _ crash_inv_pool0 Hsteps) as (_ & _ & _ & Hcons).
    apply AddDatesFacts.all_consumed_spec in Hall as [_ Hall].
    apply (Hcons i l); [|exact Hl | exact Hb].
    apply Hall, AddDatesFacts.elem_of_submitted. destruct Hb. eauto.
  - intros [= <-]. exact (steps_raise _ _ _ crash_inv_pool0 Hsteps).
Qed.

End Pool.

(** A run of [counters_add_up]: one date found, one not. *)
Lemma counters_add_up_witness :
  let subm := submitted [0; 1; 2]%nat Demo.three_records in
  let p := match steps Demo.flaky_env [0; 1; 2]%nat subm Demo.flaky_net
                   (pool0 Demo.three_records) [Run 2; Run 0; Yield 2; Yield 0] with
           | Some (Ok p) => p
           | _ => pool0 Demo.three_records
           end in
  (updated p + failed p = length (consumed p))%nat
  ∧ (length (consumed p) ≤ length subm)%nat
  ∧ (all_consumed subm p = true → (updated p + failed p)%nat = length subm).
Proof.
  intros subm p.
  apply (counters_add_up Demo.flaky_env [0; 1; 2]%nat Demo.three_records Demo.flaky_net
           [Run 2; Run 0; Yield 2; Yield 0] p).
  vm_compute. reflexivity.
Defined.

(** A run of [crash_only_for_bad_url] on records whose first has a null
    url. *)
Lemma crash_only_for_bad_url_witness :
  TypeError = TypeError
  ∧ ∃ i l, [0; 1]%nat !! i = Some l ∧ bad_url DemoBad.records l.
Proof.
  apply (crash_only_for_bad_url Demo.flaky_env [0; 1]%nat DemoBad.records Demo.flaky_net
           [Run 0; Yield 0] (Crashed TypeError)).
  vm_compute. reflexivity.
Defined.

(** [crossref_parts_unchecked] on an answer whose first date field has a
    null year and whose second has a full date. *)
Lemma crossref_parts_unchecked_witness :
  let get := get_date_from_crossref DemoNull.env "10.1002/14651858.CD000001"
               (Demo.start None) in
  (∀ y, [VNone] = [y] → fst get = Ok (Some (py_str DemoNull.env y +:+ "-01-01")))
  ∧ (∀ y m more e, [VNone] = y :: m :: more → format_02d m = Raise e → fst get = Ok None)
  ∧ (∀ y m d more ms e, [VNone] = y :: m :: d :: more → format_02d m = Ok ms →
        format_02d d = Raise e → fst get = Ok None).
Proof.
  intros get.
  apply (crossref_parts_unchecked DemoNull.env "10.1002/14651858.CD000001"
           (Demo.start None) {| status_code := 200; text := "null-year" |} tt
           [("message",
             VDict [("published", VDict [("date-parts", VList [VList [VNone]])]);
                    ("issued",
                     VDict [("date-parts", VList [VList [VInt 2020; VInt 1; VInt 2]])])])]
           [("published", VDict [("date-parts", VList [VList [VNone]])]);
            ("issued", VDict [("date-parts", VList [VList [VInt 2020; VInt 1; VInt 2]])])]
           [("date-parts", VList [VList [VNone]])]
           [] ["issued"; "published-online"; "created"] "published" [VNone] []).
  - reflexivity.
  - reflexivity.
  - reflexivity.
  - reflexivity.
  - reflexivity.
  - constructor.
  - reflexivity.
  - reflexivity.
Defined.

End AddDatesMore.
